(** * Interview session orchestrator: a shallow embedding of the React
    component [App], the hook [useSpeechRecognition] and [geminiService].

    The component state is the record [InterviewState]; the handlers of
    [App] are functions on a [World] that holds the component state, the
    state of the speech hook, the module variable [chatSession], the armed
    interval of the timer effect and the exchange calls that are still
    in flight.  Every [await] splits a handler in two: what runs at the
    click, and a continuation that runs when the call settles, with the
    values its closure captured at the click.

    How React is read here.  Events (clicks, interval ticks, settled
    promises, recognizer callbacks) are processed one at a time, each
    to completion.  A click runs the handler of the last render, so it
    sees the current state; code after an [await] sees the [state] and
    the hook callbacks of the render in which the handler started.  The
    updaters passed to [setState] are applied once each, in the order of
    the calls.  After the updates of an event the component renders
    once, and an effect runs when one of its dependencies differs from
    the previous render.  A render that throws unmounts the tree, there
    being no error boundary.

    Two things the source leaves to React.  Whether an updater is
    computed at the [setState] call (eagerly, when React holds no update
    for the component) or at the next render: this shows in the updater
    of the timer only, which calls [finishInterview], and the world
    carries it as [eager], set by the event [Scheduler].  And what a
    payload of the exchange holds: the views render it as it came. *)

From Stdlib Require Import ZArith NArith List String Ascii Bool Lia.
From Stdlib Require DecimalString DecimalZ.
Import ListNotations.
Local Open Scope Z_scope.

(** ** JavaScript values *)

Module JS.

(** A JavaScript string is a sequence of UTF-16 code units. *)
Definition jsstring := list N.

(** An ASCII literal of the source. *)
Definition lit (s : string) : jsstring :=
  map N_of_ascii (list_ascii_of_string s).

Definition str_eqb (a b : jsstring) : bool :=
  if list_eq_dec N.eq_dec a b then true else false.

(** WhiteSpace and LineTerminator code points, which
    [String.prototype.trim] strips. *)
Definition isWhiteSpace (c : N) : bool :=
  (existsb (N.eqb c)
     [9; 10; 11; 12; 13; 32; 160; 5760; 8232; 8233; 8239; 8287; 12288; 65279]
   || ((8192 <=? c) && (c <=? 8202)))%N.

Fixpoint trimStart (s : jsstring) : jsstring :=
  match s with
  | [] => []
  | c :: r => if isWhiteSpace c then trimStart r else s
  end.

Definition trim (s : jsstring) : jsstring :=
  rev (trimStart (rev (trimStart s))).

(** [!s] for a string [s]. *)
Definition isEmpty (s : jsstring) : bool :=
  match s with [] => true | _ => false end.

(** What [JSON.parse] returns.  Numbers are kept to the integers, which
    is all the handlers look at; an object is the list of its own
    properties, the first binding of a key being the one found. *)
#[local] Set Warnings "-register-all".
Inductive json : Type :=
| JNull
| JBool (b : bool)
| JNum (n : Z)
| JStr (s : jsstring)
| JArr (items : list json)
| JObj (fields : list (jsstring * json)).

(** A value read from a property: [undefined], or a JSON value. *)
Inductive jsval : Type :=
| Undefined
| Val (v : json).

Fixpoint lookup (k : jsstring) (fields : list (jsstring * json)) : jsval :=
  match fields with
  | [] => Undefined
  | (k', v) :: r => if str_eqb k k' then Val v else lookup k r
  end.

(** [v.k] for a key [k] that is no built-in property of strings, arrays
    or [Object.prototype] ([nextQuestion], [evaluation], [score], ...):
    [None] is the TypeError of reading a property of [null]. *)
Definition getProp (v : json) (k : jsstring) : option jsval :=
  match v with
  | JNull => None
  | JObj fields => Some (lookup k fields)
  | _ => Some Undefined
  end.

(** Truthiness, as in [state.finalResult && ...]. *)
Definition truthy (v : json) : bool :=
  match v with
  | JNull => false
  | JBool b => b
  | JNum n => negb (n =? 0)
  | JStr s => negb (isEmpty s)
  | JArr _ | JObj _ => true
  end.

End JS.
Import JS.

(** ** types.ts *)

Inductive AppStatus : Type :=
| IDLE | SETUP | INITIALIZING | INTERVIEW_ACTIVE | PROCESSING_ANSWER | FINISHED.

Inductive Language : Type := ja | en.

Definition status_eqb (a b : AppStatus) : bool :=
  match a, b with
  | IDLE, IDLE | SETUP, SETUP | INITIALIZING, INITIALIZING
  | INTERVIEW_ACTIVE, INTERVIEW_ACTIVE
  | PROCESSING_ANSWER, PROCESSING_ANSWER | FINISHED, FINISHED => true
  | _, _ => false
  end.

Definition lang_eqb (a b : Language) : bool :=
  match a, b with
  | ja, ja | en, en => true
  | _, _ => false
  end.

(** [question] and [evaluation] hold whatever the parsed payload had under
    [nextQuestion] and [evaluation]: the cast [as TurnResponse] checks
    nothing at run time.  [answer] is always a string of the component. *)
Record InterviewQnA : Type := mkQnA {
  id : Z;
  question : jsval;
  answer : jsstring;
  evaluation : jsval
}.

(** [finalResult] is [FinalResult | null]: a JSON value, [JNull] for
    [null].  [error] is [string | null]. *)
Record InterviewState : Type := mkState {
  status : AppStatus;
  timeLimitMinutes : Z;
  timeLeftSeconds : Z;
  currentTranscript : jsstring;
  qnaHistory : list InterviewQnA;
  finalResult : json;
  isMicActive : bool;
  error : option jsstring;
  language : Language;
  isCameraOn : bool
}.

(** [{ ...prev, field: v }] *)
Definition set_status (v : AppStatus) (s : InterviewState) : InterviewState :=
  mkState v (timeLimitMinutes s) (timeLeftSeconds s) (currentTranscript s)
    (qnaHistory s) (finalResult s) (isMicActive s) (error s) (language s)
    (isCameraOn s).

Definition set_timeLimitMinutes (v : Z) (s : InterviewState) : InterviewState :=
  mkState (status s) v (timeLeftSeconds s) (currentTranscript s)
    (qnaHistory s) (finalResult s) (isMicActive s) (error s) (language s)
    (isCameraOn s).

Definition set_timeLeftSeconds (v : Z) (s : InterviewState) : InterviewState :=
  mkState (status s) (timeLimitMinutes s) v (currentTranscript s)
    (qnaHistory s) (finalResult s) (isMicActive s) (error s) (language s)
    (isCameraOn s).

Definition set_currentTranscript (v : jsstring) (s : InterviewState)
  : InterviewState :=
  mkState (status s) (timeLimitMinutes s) (timeLeftSeconds s) v
    (qnaHistory s) (finalResult s) (isMicActive s) (error s) (language s)
    (isCameraOn s).

Definition set_qnaHistory (v : list InterviewQnA) (s : InterviewState)
  : InterviewState :=
  mkState (status s) (timeLimitMinutes s) (timeLeftSeconds s)
    (currentTranscript s) v (finalResult s) (isMicActive s) (error s)
    (language s) (isCameraOn s).

Definition set_finalResult (v : json) (s : InterviewState) : InterviewState :=
  mkState (status s) (timeLimitMinutes s) (timeLeftSeconds s)
    (currentTranscript s) (qnaHistory s) v (isMicActive s) (error s)
    (language s) (isCameraOn s).

Definition set_error (v : option jsstring) (s : InterviewState)
  : InterviewState :=
  mkState (status s) (timeLimitMinutes s) (timeLeftSeconds s)
    (currentTranscript s) (qnaHistory s) (finalResult s) (isMicActive s) v
    (language s) (isCameraOn s).

Definition set_language (v : Language) (s : InterviewState) : InterviewState :=
  mkState (status s) (timeLimitMinutes s) (timeLeftSeconds s)
    (currentTranscript s) (qnaHistory s) (finalResult s) (isMicActive s)
    (error s) v (isCameraOn s).

Definition set_isCameraOn (v : bool) (s : InterviewState) : InterviewState :=
  mkState (status s) (timeLimitMinutes s) (timeLeftSeconds s)
    (currentTranscript s) (qnaHistory s) (finalResult s) (isMicActive s)
    (error s) (language s) v.

(** ** hooks/useSpeechRecognition *)

Module Speech.

(** [text] and [isListening] are the hook's two pieces of state;
    [isSupported] says that [recognitionRef.current] is set; [started]
    is the recognizer's own flag, set by [start()] and cleared when it
    fires [end] or [error] ([start()] on a started recognizer throws
    InvalidStateError); [onendListening] is the [isListening] that the [onend] handler
    closed over when the recognizer was created. *)
Record Hook : Type := mkHook {
  text : jsstring;
  isListening : bool;
  isSupported : bool;
  started : bool;
  onendListening : bool
}.

(** [startListening], as created in a render whose [isListening] was
    [seen].  When [start()] throws, the handler catches it after
    [setText('')] and before [setIsListening(true)]. *)
Definition startListening (seen : bool) (h : Hook) : Hook :=
  if isSupported h && negb seen then
    if started h
    then mkHook [] (isListening h) (isSupported h) true (onendListening h)
    else mkHook [] true (isSupported h) true (onendListening h)
  else h.

(** [stopListening], as created in a render whose [isListening] was
    [seen]. *)
Definition stopListening (seen : bool) (h : Hook) : Hook :=
  if isSupported h && seen then
    mkHook (text h) false (isSupported h) (started h) (onendListening h)
  else h.

Definition resetText (h : Hook) : Hook :=
  mkHook [] (isListening h) (isSupported h) (started h) (onendListening h).

(** [recognition.onresult]: the accumulated transcript [t]. *)
Definition onresult (t : jsstring) (h : Hook) : Hook :=
  mkHook t (isListening h) (isSupported h) (started h) (onendListening h).

(** [recognition.onend] *)
Definition onend (h : Hook) : Hook :=
  mkHook (text h)
    (if onendListening h then false else isListening h)
    (isSupported h) false (onendListening h).

(** [recognition.onerror] *)
Definition onerror (h : Hook) : Hook :=
  mkHook (text h) false (isSupported h) false (onendListening h).

(** The effect on [language]: the old recognizer is stopped by the
    cleanup and a new one is created, not started. *)
Definition recreate (h : Hook) : Hook :=
  if isSupported h
  then mkHook (text h) (isListening h) true false (isListening h)
  else h.

End Speech.

(** ** services/geminiService *)

Module Gemini.

(** What came back from upstream, seen through the two tests the
    service makes on it: [!text], then [JSON.parse(text)]. *)
Inductive Payload : Type :=
| NoText                  (* [response.text] is undefined or empty *)
| BadJson                 (* [JSON.parse] throws a SyntaxError *)
| Parsed (v : json).      (* [JSON.parse] returns [v] *)

Inductive Upstream : Type :=
| Rejects                 (* the request itself fails *)
| Responds (p : Payload).

Inductive Failure : Type :=
| TransportError
| NoResponseFromAI
| NoFinalReportGenerated
| SyntaxError
| SessionNotStarted
| TypeError.

Inductive Outcome (A : Type) : Type :=
| Returns (a : A)
| Throws (e : Failure).
Arguments Returns {A} a.
Arguments Throws {A} e.

(** [startSession], after [chatSession] has been created: the [catch]
    logs and rethrows. *)
Definition startSession (u : Upstream) : Outcome json :=
  match u with
  | Rejects => Throws TransportError
  | Responds NoText => Throws NoResponseFromAI
  | Responds BadJson => Throws SyntaxError
  | Responds (Parsed v) => Returns v
  end.

(** [sendAnswer]; [chat] says whether [chatSession] is set. *)
Definition sendAnswer (chat : bool) (u : Upstream) : Outcome json :=
  if negb chat then Throws SessionNotStarted
  else
    match u with
    | Rejects => Throws TransportError
    | Responds NoText => Throws NoResponseFromAI
    | Responds BadJson => Throws SyntaxError
    | Responds (Parsed v) => Returns v
    end.

(** The object built in the [catch] of [generateFinalReport]. *)
Definition errorSummary (lang : Language) : jsstring :=
  match lang with
  | en => lit "Error generating report."
  | ja => (* レポートの生成中にエラーが発生しました。 *)
      [12524; 12509; 12540; 12488; 12398; 29983; 25104; 20013; 12395;
       12456; 12521; 12540; 12364; 30330; 29983; 12375; 12414; 12375;
       12383; 12290]%N
  end.

Definition errorAdvice (lang : Language) : jsstring :=
  match lang with
  | en => lit "Please try again."
  | ja => (* もう一度お試しください。 *)
      [12418; 12358; 19968; 24230; 12362; 35430; 12375; 12367; 12384;
       12373; 12356; 12290]%N
  end.

Definition errorReport (lang : Language) : json :=
  JObj [ (lit "score", JNum 0);
         (lit "summary", JStr (errorSummary lang));
         (lit "goodPoints", JArr []);
         (lit "badPoints", JArr []);
         (lit "advice", JStr (errorAdvice lang)) ].

(** [generateFinalReport]: the request is made from [history] and
    [lang]; every failure inside the [try] ends in [errorReport]. *)
Definition generateFinalReport (history : list InterviewQnA)
    (lang : Language) (u : Upstream) : Outcome json :=
  match u with
  | Rejects => Returns (errorReport lang)
  | Responds NoText => Returns (errorReport lang)
  | Responds BadJson => Returns (errorReport lang)
  | Responds (Parsed v) => Returns v
  end.

End Gemini.

(** ** App *)

Import Speech Gemini.

(** What [finishInterview] reads from the render in which the timer
    effect armed the interval: [state.qnaHistory], [state.language], and
    the [isListening] that its [stopListening] closed over. *)
Record TimerClosure : Type := mkClosure {
  seenHistory : list InterviewQnA;
  seenLanguage : Language;
  seenListening : bool
}.

(** An exchange call that has not settled, with what the rest of its
    handler captured at the click. *)
Inductive Pending : Type :=
| AwaitStartSession (lang : Language) (supported seen : bool)
| AwaitSendAnswer (currentAnswer : jsstring) (seen : bool) (chat : bool)
| AwaitFinalReport (validHistory : list InterviewQnA) (lang : Language).

Record World : Type := mkWorld {
  st : InterviewState;            (* [state] of [App] *)
  sp : Hook;                      (* [useSpeechRecognition(state.language)] *)
  chatSession : bool;             (* the module variable is set *)
  hasApiKey : bool;               (* [process.env.API_KEY] is set *)
  timer : option TimerClosure;    (* the interval of the timer effect *)
  inflight : list Pending;
  mounted : bool;                 (* no updater and no render has thrown *)
  eager : bool                    (* React computes updaters at the call *)
}.

Definition set_st (v : InterviewState) (w : World) : World :=
  mkWorld v (sp w) (chatSession w) (hasApiKey w) (timer w) (inflight w)
    (mounted w) (eager w).

Definition set_sp (v : Hook) (w : World) : World :=
  mkWorld (st w) v (chatSession w) (hasApiKey w) (timer w) (inflight w)
    (mounted w) (eager w).

Definition set_chatSession (v : bool) (w : World) : World :=
  mkWorld (st w) (sp w) v (hasApiKey w) (timer w) (inflight w) (mounted w)
    (eager w).

Definition set_timer (v : option TimerClosure) (w : World) : World :=
  mkWorld (st w) (sp w) (chatSession w) (hasApiKey w) v (inflight w)
    (mounted w) (eager w).

Definition set_inflight (v : list Pending) (w : World) : World :=
  mkWorld (st w) (sp w) (chatSession w) (hasApiKey w) (timer w) v
    (mounted w) (eager w).

Definition set_eager (v : bool) (w : World) : World :=
  mkWorld (st w) (sp w) (chatSession w) (hasApiKey w) (timer w) (inflight w)
    (mounted w) v.

(** [setState(prev => ...)] *)
Definition setState (f : InterviewState -> InterviewState) (w : World)
  : World :=
  set_st (f (st w)) w.

Definition issue (p : Pending) (w : World) : World :=
  set_inflight (inflight w ++ [p]) w.

(** An updater or the component threw while React rendered: with no
    error boundary the tree is unmounted, the update is not committed, the
    cleanup of the timer effect clears the interval, and later [setState]
    calls do nothing. *)
Definition crash (w : World) : World :=
  mkWorld (st w) (sp w) (chatSession w) (hasApiKey w) None (inflight w) false
    (eager w).

Definition initialState : InterviewState :=
  mkState IDLE 5 0 [] [] JNull false None ja true.

Definition initialWorld (supported apiKey : bool) : World :=
  mkWorld initialState (mkHook [] false supported false false) false apiKey
    None [] true false.

(** *** What the views can render *)

(** [{v}] in JSX: strings and numbers are shown, [null], [undefined] and
    booleans show nothing, an array shows its elements; React throws on
    a plain object. *)
Fixpoint validChild (v : json) : bool :=
  match v with
  | JObj _ => false
  | JArr items => forallb validChild items
  | _ => true
  end.

Definition childRenders (v : jsval) : bool :=
  match v with
  | Undefined => true
  | Val v => validChild v
  end.

(** [v.map((p, i) => <li key={i}>... <span>{p}</span></li>)]: [v.map] is
    a function on arrays only. *)
Definition pointsRender (v : jsval) : bool :=
  match v with
  | Val (JArr items) => forallb validChild items
  | _ => false
  end.

(** [r.k] for a truthy [r]. *)
Definition member (r : json) (k : string) : jsval :=
  match getProp r (lit k) with
  | Some v => v
  | None => Undefined
  end.

(** The result view with [state.finalResult = r]: [ScoreGauge] shows
    [{score}]; then [{r.summary}], [r.goodPoints.map], [r.badPoints.map]
    and [{r.advice}]. *)
Definition reportRenders (r : json) : bool :=
  childRenders (member r "score")
  && childRenders (member r "summary")
  && pointsRender (member r "goodPoints")
  && pointsRender (member r "badPoints")
  && childRenders (member r "advice").

(** One turn in the interview view: [{item.question}], and under
    [item.answer &&] the answer and [{item.evaluation && ...
    {item.evaluation} ...}]. *)
Definition turnRenders (q : InterviewQnA) : bool :=
  childRenders (question q)
  && (isEmpty (answer q) || childRenders (evaluation q)).

(** [state.qnaHistory.map(...)] in the interview view. *)
Definition ledgerRenders (h : list InterviewQnA) : bool :=
  forallb turnRenders h.

(** *** Messages shown to the user *)

Definition startFailedMessage : jsstring :=
  (* AIセッションの開始に失敗しました。 *)
  [65; 73; 12475; 12483; 12471; 12519; 12531; 12398; 38283; 22987; 12395;
   22833; 25943; 12375; 12414; 12375; 12383; 12290]%N.

Definition answerFailedMessage : jsstring :=
  (* 回答の処理に失敗しました。 *)
  [22238; 31572; 12398; 20966; 29702; 12395; 22833; 25943; 12375; 12414;
   12375; 12383; 12290]%N.

Definition reportFailedMessage : jsstring :=
  (* レポートの生成に失敗しました。 *)
  [12524; 12509; 12540; 12488; 12398; 29983; 25104; 12395; 22833; 25943;
   12375; 12414; 12375; 12383; 12290]%N.

(** *** Handlers *)

(** [q.answer.trim() !== ''] *)
Definition answered (q : InterviewQnA) : bool :=
  negb (isEmpty (trim (answer q))).

(** [finishInterview] up to its [await], with the closure [c] of the
    render it was created in. *)
Definition finishInterview (c : TimerClosure) (w : World) : World :=
  let w := set_sp (stopListening (seenListening c) (sp w)) w in
  let w := setState (set_status PROCESSING_ANSWER) w in
  let validHistory := filter answered (seenHistory c) in
  issue (AwaitFinalReport validHistory (seenLanguage c)) w.

(** [finishInterview] after its [await].  With a truthy [result] the
    next render is the result view, which shows [result]. *)
Definition finishInterview_settled (validHistory : list InterviewQnA)
    (lang : Language) (u : Upstream) (w : World) : World :=
  match generateFinalReport validHistory lang u with
  | Returns result =>
      if truthy result && negb (reportRenders result) then crash w
      else
      setState (fun prev => set_finalResult result (set_status FINISHED prev)) w
  | Throws _ =>
      setState (fun prev =>
        set_error (Some reportFailedMessage) (set_status FINISHED prev)) w
  end.

(** The callback of [setInterval].  The updater calls [finishInterview]
    and returns [{...prev, timeLeftSeconds: 0}].  Computed at the next
    render, the [setState] that [finishInterview] queues meanwhile is
    applied after it; computed eagerly, at the call, it is queued behind
    that [setState], and its value, made from the state before, replaces
    what that one gives: the status stays as it was. *)
Definition tick (w : World) : World :=
  match timer w with
  | None => w
  | Some c =>
      if timeLeftSeconds (st w) <=? 1 then
        if eager w
        then set_st (set_timeLeftSeconds 0 (st w)) (finishInterview c w)
        else finishInterview c (setState (set_timeLeftSeconds 0) w)
      else
        setState (fun prev =>
          set_timeLeftSeconds (timeLeftSeconds prev - 1) prev) w
  end.

(** [startInterview] up to its [await]. *)
Definition startInterview (w : World) : World :=
  if negb (hasApiKey w) then w
  else
    let w1 := setState (fun prev =>
      set_error None (set_finalResult JNull (set_qnaHistory []
        (set_timeLeftSeconds (timeLimitMinutes prev * 60)
          (set_status INITIALIZING prev))))) w in
    issue (AwaitStartSession (language (st w)) (isSupported (sp w))
             (isListening (sp w)))
      (set_chatSession true w1).

Definition startFailed (w : World) : World :=
  setState (fun prev =>
    set_error (Some startFailedMessage) (set_status IDLE prev)) w.

(** [startInterview] after its [await].  The next render is the
    interview view, which shows the new ledger. *)
Definition startInterview_settled (supported seen : bool) (u : Upstream)
    (w : World) : World :=
  match startSession u with
  | Returns initialData =>
      match getProp initialData (lit "nextQuestion") with
      | Some q =>
          let firstQnA := mkQnA 1 q [] Undefined in
          if negb (ledgerRenders [firstQnA]) then crash w
          else
          let w := setState (fun prev =>
            set_qnaHistory [firstQnA] (set_status INTERVIEW_ACTIVE prev)) w in
          if supported
          then set_sp (startListening seen (resetText (sp w))) w
          else w
      | None => startFailed w
      end
  | Throws _ => startFailed w
  end.

(** [quitInterview] *)
Definition quitInterview (w : World) : World :=
  let w := set_sp (stopListening (isListening (sp w)) (sp w)) w in
  let w := set_timer None w in
  setState (fun prev => set_currentTranscript [] (set_status IDLE prev)) w.

(** [submitAnswer] up to its [await]. *)
Definition submitAnswer (w : World) : World :=
  if negb (status_eqb (status (st w)) INTERVIEW_ACTIVE) then w
  else if isEmpty (trim (currentTranscript (st w))) then w
  else
    let seen := isListening (sp w) in
    let currentAnswer := currentTranscript (st w) in
    let w := set_sp (stopListening seen (sp w)) w in
    let w := setState (set_status PROCESSING_ANSWER) w in
    issue (AwaitSendAnswer currentAnswer seen (chatSession w)) w.

(** [newHistory[lastIdx] = {...newHistory[lastIdx], answer, evaluation}].
    On an empty array [lastIdx] is [-1]: the assignment makes a property
    that is no element, and the array stays empty. *)
Fixpoint closeLast (a : jsstring) (ev : jsval) (h : list InterviewQnA)
  : list InterviewQnA :=
  match h with
  | [] => []
  | [q] => [mkQnA (id q) (question q) a ev]
  | q :: r => q :: closeLast a ev r
  end.

(** The updater of [submitAnswer] on success. *)
Definition recordTurn (a : jsstring) (ev nq : jsval) (prev : InterviewState)
  : InterviewState :=
  let newHistory := closeLast a ev (qnaHistory prev) in
  let newHistory :=
    newHistory ++ [mkQnA (Z.of_nat (List.length newHistory) + 1) nq [] Undefined] in
  set_currentTranscript []
    (set_qnaHistory newHistory (set_status INTERVIEW_ACTIVE prev)).

(** [submitAnswer] after its [await].  The updater reads
    [response.evaluation] and [response.nextQuestion]; on a [null]
    response it throws while React renders, outside the [try].  The
    next render is the interview view, which shows the new ledger. *)
Definition submitAnswer_settled (currentAnswer : jsstring) (seen chat : bool)
    (u : Upstream) (w : World) : World :=
  match sendAnswer chat u with
  | Returns response =>
      match getProp response (lit "evaluation"),
            getProp response (lit "nextQuestion") with
      | Some ev, Some nq =>
          if negb (ledgerRenders
                     (qnaHistory (recordTurn currentAnswer ev nq (st w))))
          then crash w
          else
          let w := setState (recordTurn currentAnswer ev nq) w in
          set_sp (startListening seen (resetText (sp w))) w
      | _, _ => crash w
      end
  | Throws _ =>
      let w := setState (fun prev =>
        set_error (Some answerFailedMessage)
          (set_status INTERVIEW_ACTIVE prev)) w in
      set_sp (startListening seen (sp w)) w
  end.

Definition settle (p : Pending) (u : Upstream) (w : World) : World :=
  match p with
  | AwaitStartSession _ supported seen => startInterview_settled supported seen u w
  | AwaitSendAnswer a seen chat => submitAnswer_settled a seen chat u w
  | AwaitFinalReport h lang => finishInterview_settled h lang u w
  end.

Definition removeAt {A : Type} (i : nat) (l : list A) : list A :=
  firstn i l ++ skipn (S i) l.

(** *** Events *)

Inductive Event : Type :=
| Start                                   (* click on the start button *)
| Quit                                    (* click on the exit button *)
| Submit                                  (* click on the next-question button *)
| Tick                                    (* the interval fires *)
| Settle (i : nat) (u : Upstream)        (* the i-th call in flight settles *)
| SpeechResult (t : jsstring)             (* [recognition.onresult] *)
| SpeechEnd                               (* [recognition.onend] *)
| SpeechError                             (* [recognition.onerror] *)
| ToggleMic
| ToggleCamera
| SetLanguage (l : Language)
| SetTimeLimit (m : Z)                    (* the range input changes *)
| Home                                    (* click on the back-home button *)
| Scheduler (now : bool).                 (* React computes updaters at the call, or not *)

Definition handle (e : Event) (w : World) : World :=
  match e with
  | Start => startInterview w
  | Quit => quitInterview w
  | Submit => submitAnswer w
  | Tick => tick w
  | Settle i u =>
      match nth_error (inflight w) i with
      | Some p => settle p u (set_inflight (removeAt i (inflight w)) w)
      | None => w
      end
  | SpeechResult t => set_sp (onresult t (sp w)) w
  | SpeechEnd => set_sp (onend (sp w)) w
  | SpeechError => set_sp (onerror (sp w)) w
  | ToggleMic =>
      if isListening (sp w)
      then set_sp (stopListening true (sp w)) w
      else set_sp (startListening false (sp w)) w
  | ToggleCamera =>
      setState (fun p => set_isCameraOn (negb (isCameraOn p)) p) w
  | SetLanguage l =>
      let w' := setState (set_language l) w in
      if lang_eqb (language (st w)) l then w'
      else set_sp (recreate (sp w)) w'
  | SetTimeLimit m => setState (set_timeLimitMinutes m) w
  | Home => setState (set_status IDLE) w
  | Scheduler now => set_eager now w
  end.

(** *** Effects, run after the render that follows an event *)

(** [useEffect(..., [speechText, state.status])] *)
Definition syncTranscript (before after : World) : World :=
  if str_eqb (text (sp before)) (text (sp after))
     && status_eqb (status (st before)) (status (st after))
  then after
  else if status_eqb (status (st after)) INTERVIEW_ACTIVE
       then setState (set_currentTranscript (text (sp after))) after
       else after.

(** [useEffect(..., [state.status, state.timeLeftSeconds])]: when a
    dependency changed, the cleanup clears the interval and the effect
    arms a new one, whose callback belongs to the render [after]. *)
Definition timerEffect (before after w : World) : World :=
  if status_eqb (status (st before)) (status (st after))
     && (timeLeftSeconds (st before) =? timeLeftSeconds (st after))
  then w
  else if status_eqb (status (st after)) INTERVIEW_ACTIVE
          && (0 <? timeLeftSeconds (st after))
       then set_timer
              (Some (mkClosure (qnaHistory (st after)) (language (st after))
                       (isListening (sp after)))) w
       else set_timer None w.

(** The effects that follow the render of [after].  The render itself
    throws only on a ledger or a report that it has not shown before,
    which is one the event wrote: the continuations above unmount the
    tree there ([reachable_view_renders]). *)
Definition render (before after : World) : World :=
  if mounted after
  then timerEffect before after (syncTranscript before after)
  else after.

(** One event, processed to completion. *)
Definition step (w : World) (e : Event) : World :=
  if mounted w then render w (handle e w) else w.

(** *** Which events the rendered view can produce *)

Inductive View : Type := SetupView | ResultView | InterviewView.

Definition view (s : InterviewState) : View :=
  match status s with
  | IDLE | SETUP => SetupView
  | FINISHED => if truthy (finalResult s) then ResultView else InterviewView
  | _ => InterviewView
  end.

Definition view_eqb (a b : View) : bool :=
  match a, b with
  | SetupView, SetupView | ResultView, ResultView
  | InterviewView, InterviewView => true
  | _, _ => false
  end.

(** The render of the component on the state [s]: the setup view shows
    nothing that came from the exchange. *)
Definition viewRenders (s : InterviewState) : bool :=
  match view s with
  | SetupView => true
  | ResultView => reportRenders (finalResult s)
  | InterviewView => ledgerRenders (qnaHistory s)
  end.

Definition enabled (w : World) (e : Event) : bool :=
  mounted w &&
  match e with
  | Start => view_eqb (view (st w)) SetupView && isSupported (sp w)
  | Quit | ToggleMic => view_eqb (view (st w)) InterviewView
  | Submit =>
      view_eqb (view (st w)) InterviewView
      && negb (isEmpty (trim (currentTranscript (st w))))
      && negb (status_eqb (status (st w)) PROCESSING_ANSWER)
  | Tick => match timer w with Some _ => true | None => false end
  | Settle i _ => (i <? List.length (inflight w))%nat
  | SpeechResult _ | SpeechEnd | SpeechError => started (sp w)
  | ToggleCamera => negb (view_eqb (view (st w)) ResultView)
  | SetLanguage _ => view_eqb (view (st w)) SetupView
  | SetTimeLimit m =>
      view_eqb (view (st w)) SetupView && (1 <=? m) && (m <=? 10)
  | Home => view_eqb (view (st w)) ResultView
  | Scheduler _ => true
  end.

Definition dispatch (w : World) (e : Event) : World :=
  if enabled w e then step w e else w.

Definition run (w : World) (es : list Event) : World :=
  fold_left dispatch es w.

(** ** The vocabulary of the properties *)

(** The [id]s of a ledger are 1, 2, ..., N in order. *)
Definition numbered (h : list InterviewQnA) : Prop :=
  map id h = map Z.of_nat (seq 1 (List.length h)).

(** An interval is armed. *)
Definition timerArmed (w : World) : bool :=
  match timer w with Some _ => true | None => false end.

(** What holds of every world the events can lead to. *)
Record Inv (w : World) : Prop := mkInv {
  inv_limit : 1 <= timeLimitMinutes (st w) <= 10;
  inv_left : 0 <= timeLeftSeconds (st w);
  inv_timer :
    timerArmed w =
    mounted w && status_eqb (status (st w)) INTERVIEW_ACTIVE
    && (0 <? timeLeftSeconds (st w))
}.

(** The ledger and the report of the state are ones the views can
    show. *)
Definition Shown (s : InterviewState) : Prop :=
  ledgerRenders (qnaHistory s) = true
  /\ (truthy (finalResult s) = true -> reportRenders (finalResult s) = true).

(** How the continuation of [finishInterview] takes a world [x] to [x']
    when [generateFinalReport] returned [r]: a report that is falsy, or
    that the result view can show, is stored with the status FINISHED; on
    a truthy report of another shape the render throws, the tree is
    unmounted and the update is not committed. *)
Definition reportLands (r : json) (x x' : World) : Prop :=
  (truthy r = false \/ reportRenders r = true ->
   status (st x') = FINISHED /\ finalResult (st x') = r /\ mounted x' = true)
  /\ (truthy r = true -> reportRenders r = false ->
      mounted x' = false /\ st x' = st x).

(** The event is a tick that finds the deadline reached: its updater
    takes the branch that calls [finishInterview]. *)
Definition fires (w : World) (e : Event) : bool :=
  match e with
  | Tick => enabled w Tick && (timeLeftSeconds (st w) <=? 1)
  | _ => false
  end.

Fixpoint firings (w : World) (es : list Event) : nat :=
  match es with
  | [] => 0
  | e :: r => (if fires w e then 1 else 0) + firings (dispatch w e) r
  end.

Definition isStart (e : Event) : bool :=
  match e with Start => true | _ => false end.

(** The call fails: the request rejects, or the text is missing, or it
    is no JSON. *)
Definition reportFails (u : Upstream) : Prop :=
  u = Rejects \/ u = Responds NoText \/ u = Responds BadJson.

(** *** Scenarios *)

Definition turnResponse (ev q : string) : Upstream :=
  Responds (Parsed (JObj [ (lit "evaluation", JStr (lit ev));
                           (lit "nextQuestion", JStr (lit q)) ])).

(** A session is opened and the first question asked. *)
Definition openedEvents : list Event :=
  [ Start; Settle 0 (turnResponse "" "Tell me about yourself") ].

(** The candidate has spoken and the recognizer is still listening. *)
Definition answeringEvents : list Event :=
  openedEvents ++ [ SpeechResult (lit "I am an engineer.") ].

(** The answer is submitted: the exchange call is in flight. *)
Definition processingEvents : list Event :=
  answeringEvents ++ [ Submit; SpeechEnd ].

(** The exchange answers: turn 1 is closed and turn 2 is open. *)
Definition secondTurnEvents : list Event :=
  processingEvents ++ [ Settle 0 (turnResponse "Good clarity." "Why this role?") ].

(** The same with a limit of one minute, then 59 ticks: one second left. *)
Definition lastSecondEvents : list Event :=
  SetTimeLimit 1 :: secondTurnEvents ++ repeat Tick 59.

(** The candidate pauses the microphone before submitting. *)
Definition pausedProcessingEvents : list Event :=
  answeringEvents ++ [ ToggleMic; SpeechEnd; Submit ].

Definition answering : World :=
  Eval vm_compute in run (initialWorld true true) answeringEvents.
Definition processing : World :=
  Eval vm_compute in run (initialWorld true true) processingEvents.
Definition secondTurn : World :=
  Eval vm_compute in run (initialWorld true true) secondTurnEvents.
Definition lastSecond : World :=
  Eval vm_compute in run (initialWorld true true) lastSecondEvents.
Definition pausedProcessing : World :=
  Eval vm_compute in run (initialWorld true true) pausedProcessingEvents.

(** One second left, the candidate speaking again, and React computing
    updaters at the call. *)
Definition lastSecondEagerEvents : list Event :=
  lastSecondEvents
  ++ [ ToggleMic; SpeechResult (lit "Because I like it."); Scheduler true ].

Definition lastSecondEager : World :=
  Eval vm_compute in run (initialWorld true true) lastSecondEagerEvents.

(** Each event of a scenario is one the rendered view can produce. *)
Fixpoint allEnabled (w : World) (es : list Event) : bool :=
  match es with
  | [] => true
  | e :: r => enabled w e && allEnabled (dispatch w e) r
  end.

(** ** Display, prompt, recognizer results and camera *)

(** *** Numbers and templates *)

(** [String(n)] for an integer [n] (below 1e21 in size, where JavaScript
    prints all the digits). *)
Definition toString (n : Z) : jsstring :=
  lit (DecimalString.NilZero.string_of_int (Z.to_int n)).

(** [s.padStart(targetLength, c)] for a one-character pad string. *)
Definition padStart (targetLength : nat) (c : N) (s : jsstring) : jsstring :=
  repeat c (targetLength - List.length s) ++ s.

(** [Number.MAX_SAFE_INTEGER], 2^53 - 1: up to it in size the integers
    are numbers of JavaScript, [n % 60] is exact as everywhere, and
    [Math.floor(n / 60)] is the exact quotient, a double below 2^48
    being less than 1/60 away from [n / 60]. *)
Definition MAX_SAFE_INTEGER : Z := 9007199254740991.

(** [formatTime] on an integer up to [MAX_SAFE_INTEGER] in size:
    [Math.floor(seconds / 60)] is the floor quotient, and [%] the
    remainder with the sign of the dividend.  Beyond that size the
    arithmetic of the code rounds, and from 1e21 on [String] prints an
    exponent: the definition says nothing of the code there. *)
Definition formatTime (seconds : Z) : jsstring :=
  let m := seconds / 60 in
  let s := Z.rem seconds 60 in
  toString m ++ lit ":" ++ padStart 2 48%N (toString s).

(** The two decimal digits of a number below 100. *)
Definition twoDigits (s : Z) : jsstring :=
  [Z.to_N (48 + s / 10); Z.to_N (48 + s mod 10)].

(** [parts.join(sep)] *)
Fixpoint joinWith (sep : jsstring) (parts : list jsstring) : jsstring :=
  match parts with
  | [] => []
  | [p] => p
  | p :: r => p ++ sep ++ joinWith sep r
  end.

(** [`${v}`] for a parsed JSON value: arrays join the strings of their
    elements with a comma, a [null] element giving the empty string;
    an object prints as [[object Object]]. *)
Fixpoint jsonToString (v : json) : jsstring :=
  match v with
  | JNull => lit "null"
  | JBool true => lit "true"
  | JBool false => lit "false"
  | JNum n => toString n
  | JStr s => s
  | JArr items =>
      joinWith (lit ",")
        ((fix elements (l : list json) : list jsstring :=
            match l with
            | [] => []
            | JNull :: r => [] :: elements r
            | x :: r => jsonToString x :: elements r
            end) items)
  | JObj _ => lit "[object Object]"
  end.

Definition templateString (v : jsval) : jsstring :=
  match v with
  | Undefined => lit "undefined"
  | Val j => jsonToString j
  end.

(** *** services/geminiService: the transcript in the prompt of
    [generateFinalReport] *)

Definition newline : jsstring := [10%N].

(** [`Q${i+1}: ${h.question}\nA${i+1}: ${h.answer}\n(Eval: ${h.evaluation})`] *)
Definition transcriptEntry (i : nat) (h : InterviewQnA) : jsstring :=
  lit "Q" ++ toString (Z.of_nat i + 1) ++ lit ": "
  ++ templateString (question h) ++ newline
  ++ lit "A" ++ toString (Z.of_nat i + 1) ++ lit ": " ++ answer h ++ newline
  ++ lit "(Eval: " ++ templateString (evaluation h) ++ lit ")".

(** [history.map((h, i) => ...)], from index [i]. *)
Fixpoint transcriptEntries (i : nat) (history : list InterviewQnA)
  : list jsstring :=
  match history with
  | [] => []
  | h :: r => transcriptEntry i h :: transcriptEntries (S i) r
  end.

Definition transcriptText (history : list InterviewQnA) : jsstring :=
  joinWith (newline ++ newline) (transcriptEntries 0 history).

(** *** What the ledger and the calls in flight look like *)

(** Answered turns, then one open turn; or nothing. *)
Fixpoint oneOpenTurn (h : list InterviewQnA) : bool :=
  match h with
  | [] => true
  | [q] => isEmpty (answer q)
  | q :: r => answered q && oneOpenTurn r
  end.

(** A [sendAnswer] call carries a non-blank answer and was made with a
    chat session. *)
Definition submittedWell (p : Pending) : bool :=
  match p with
  | AwaitSendAnswer a _ chat => negb (isEmpty (trim a)) && chat
  | _ => true
  end.

Record Coherent (w : World) : Prop := mkCoherent {
  coh_ledger : oneOpenTurn (qnaHistory (st w)) = true;
  coh_numbered : numbered (qnaHistory (st w));
  coh_seen :
    forall c : TimerClosure,
      timer w = Some c ->
      oneOpenTurn (seenHistory c) = true /\ numbered (seenHistory c);
  coh_inflight : forallb submittedWell (inflight w) = true;
  coh_chat : chatSession w = false -> status (st w) = IDLE /\ inflight w = [];
  coh_buffer :
    status (st w) = INTERVIEW_ACTIVE ->
    currentTranscript (st w) = text (sp w)
}.

(** An entry of the transcript, labelled with the turn's own [id]. *)
Definition transcriptEntryOf (h : InterviewQnA) : jsstring :=
  lit "Q" ++ toString (id h) ++ lit ": "
  ++ templateString (question h) ++ newline
  ++ lit "A" ++ toString (id h) ++ lit ": " ++ answer h ++ newline
  ++ lit "(Eval: " ++ templateString (evaluation h) ++ lit ")".

Definition isSetLanguage (e : Event) : bool :=
  match e with SetLanguage _ => true | _ => false end.

(** Before the first session: IDLE, nothing in flight, the recognizer
    never started. *)
Definition pristine (w : World) : Prop :=
  status (st w) = IDLE /\ inflight w = [] /\ timer w = None
  /\ isListening (sp w) = false /\ started (sp w) = false
  /\ onendListening (sp w) = false.

(** *** hooks/useSpeechRecognition: [recognition.onresult] *)

(** One entry of [event.results]: its [isFinal] flag and the transcript
    of its first alternative. *)
Record RecognitionResult : Type := mkResult {
  isFinal : bool;
  transcript : jsstring
}.

(** The two accumulators of the loop that starts at [event.resultIndex]. *)
Definition finalTranscript (resultIndex : nat)
    (results : list RecognitionResult) : jsstring :=
  List.concat (map transcript (filter isFinal (skipn resultIndex results))).

Definition interimTranscript (resultIndex : nat)
    (results : list RecognitionResult) : jsstring :=
  List.concat (map transcript
            (filter (fun r => negb (isFinal r)) (skipn resultIndex results))).

(** [Array.from(event.results).map(r => r[0].transcript).join('')] *)
Definition currentContent (results : list RecognitionResult) : jsstring :=
  List.concat (map transcript results).

(** The handler: [setText(currentContent)]. *)
Definition onresultEvent (resultIndex : nat)
    (results : list RecognitionResult) (h : Hook) : Hook :=
  onresult (currentContent results) h.

(** *** components/Camera *)

Module Camera.

(** [isActive] is the prop; [attached] says that [videoRef.current] is
    set (the component is mounted); [srcObject] is the stream shown by
    the video element; [live] lists the streams whose tracks run;
    [effectRun] counts the runs of the effect and [stream] is the variable of
    the current run; [pending] holds, for each [getUserMedia] call that
    has not settled, the run that made it; [fresh] names the next
    stream the browser hands out. *)
Record Cam : Type := mkCam {
  isActive : bool;
  attached : bool;
  srcObject : option nat;
  live : list nat;
  effectRun : nat;
  stream : option nat;
  pending : list nat;
  fresh : nat
}.

Inductive Event : Type :=
| Toggle                       (* the prop [isActive] changes *)
| Granted (i : nat)            (* the i-th pending [getUserMedia] resolves *)
| Denied (i : nat)             (* the i-th pending [getUserMedia] rejects *)
| Unmount.

(** [tracks.forEach(track => track.stop())] *)
Definition stopTracks (s : nat) (streams : list nat) : list nat :=
  filter (fun x => negb (Nat.eqb x s)) streams.

(** The function returned by the effect. *)
Definition cleanup (c : Cam) : list nat :=
  match stream c with
  | Some s => stopTracks s (live c)
  | None => live c
  end.

(** The body of the effect, in a new run, for the prop [active]. *)
Definition effect (active : bool) (c : Cam) : Cam :=
  if active then
    mkCam active (attached c) (srcObject c) (live c) (S (effectRun c)) None
      (pending c ++ [S (effectRun c)]) (fresh c)
  else
    match srcObject c with
    | Some s =>
        mkCam active (attached c) None (stopTracks s (live c)) (S (effectRun c))
          None (pending c) (fresh c)
    | None =>
        mkCam active (attached c) None (live c) (S (effectRun c)) None (pending c)
          (fresh c)
    end.

(** The first render. *)
Definition mount (active : bool) : Cam :=
  effect active (mkCam active true None [] 0 None [] 0).

Definition withLive (l : list nat) (c : Cam) : Cam :=
  mkCam (isActive c) (attached c) (srcObject c) l (effectRun c) (stream c)
    (pending c) (fresh c).

Definition react (c : Cam) (e : Event) : Cam :=
  match e with
  | Toggle =>
      if attached c
      then effect (negb (isActive c)) (withLive (cleanup c) c)
      else c
  | Granted i =>
      match nth_error (pending c) i with
      | Some r =>
          (* [stream = await getUserMedia(...)], then
             [if (videoRef.current) videoRef.current.srcObject = stream] *)
          mkCam (isActive c) (attached c)
            (if attached c then Some (fresh c) else srcObject c)
            (fresh c :: live c) (effectRun c)
            (if Nat.eqb r (effectRun c) then Some (fresh c) else stream c)
            (removeAt i (pending c)) (S (fresh c))
      | None => c
      end
  | Denied i =>
      mkCam (isActive c) (attached c) (srcObject c) (live c) (effectRun c)
        (stream c) (removeAt i (pending c)) (fresh c)
  | Unmount =>
      if attached c
      then mkCam (isActive c) false (srcObject c) (cleanup c) (effectRun c)
             (stream c) (pending c) (fresh c)
      else c
  end.

Definition reactAll (c : Cam) (es : list Event) : Cam :=
  fold_left react es c.

(** The prop changes, or the component goes away, only once every
    request has settled. *)
Definition patient (c : Cam) (e : Event) : bool :=
  match e with
  | Toggle | Unmount => match pending c with [] => true | _ => false end
  | _ => true
  end.

Fixpoint allPatient (c : Cam) (es : list Event) : bool :=
  match es with
  | [] => true
  | e :: r => patient c e && allPatient (react c e) r
  end.

(** What a patient run keeps. *)
Record Tidy (c : Cam) : Prop := mkTidy {
  tidy_live :
    attached c = true ->
    live c = match stream c with Some s => [s] | None => [] end;
  tidy_off : isActive c = false \/ attached c = false -> live c = [];
  tidy_shown :
    attached c = true ->
    forall s : nat, stream c = Some s -> srcObject c = Some s;
  tidy_pending :
    pending c = []
    \/ (pending c = [effectRun c] /\ stream c = None
        /\ isActive c = true /\ attached c = true)
}.

End Camera.

(** * Properties *)

(** ** What the render and the handlers leave alone *)

Ltac break_if :=
  match goal with
  | |- context [if ?b then _ else _] => destruct b eqn:?
  end.

Lemma render_qnaHistory (before after : World) :
  qnaHistory (st (render before after)) = qnaHistory (st after).
Proof.
  unfold render, timerEffect, syncTranscript.
  repeat break_if; reflexivity.
Qed.

Lemma render_status (before after : World) :
  status (st (render before after)) = status (st after).
Proof.
  unfold render, timerEffect, syncTranscript.
  repeat break_if; reflexivity.
Qed.

Lemma render_timeLeftSeconds (before after : World) :
  timeLeftSeconds (st (render before after)) = timeLeftSeconds (st after).
Proof.
  unfold render, timerEffect, syncTranscript.
  repeat break_if; reflexivity.
Qed.

Lemma render_timeLimitMinutes (before after : World) :
  timeLimitMinutes (st (render before after)) = timeLimitMinutes (st after).
Proof.
  unfold render, timerEffect, syncTranscript.
  repeat break_if; reflexivity.
Qed.

Lemma render_finalResult (before after : World) :
  finalResult (st (render before after)) = finalResult (st after).
Proof.
  unfold render, timerEffect, syncTranscript.
  repeat break_if; reflexivity.
Qed.

Lemma render_error (before after : World) :
  error (st (render before after)) = error (st after).
Proof.
  unfold render, timerEffect, syncTranscript.
  repeat break_if; reflexivity.
Qed.

Lemma render_sp (before after : World) :
  sp (render before after) = sp after.
Proof.
  unfold render, timerEffect, syncTranscript.
  repeat break_if; reflexivity.
Qed.

Lemma render_inflight (before after : World) :
  inflight (render before after) = inflight after.
Proof.
  unfold render, timerEffect, syncTranscript.
  repeat break_if; reflexivity.
Qed.

Lemma render_mounted (before after : World) :
  mounted (render before after) = mounted after.
Proof.
  unfold render, timerEffect, syncTranscript.
  repeat break_if; simpl; congruence.
Qed.

Lemma str_eqb_refl (a : jsstring) : str_eqb a a = true.
Proof. unfold str_eqb. destruct (list_eq_dec N.eq_dec a a); congruence. Qed.

Lemma status_eqb_refl (a : AppStatus) : status_eqb a a = true.
Proof. destruct a; reflexivity. Qed.

Lemma status_eqb_eq (a b : AppStatus) : status_eqb a b = true <-> a = b.
Proof. destruct a, b; simpl; split; congruence. Qed.

(** Nothing changed, nothing to re-run. *)
Lemma render_same (w : World) : render w w = w.
Proof.
  unfold render, timerEffect, syncTranscript.
  rewrite str_eqb_refl, status_eqb_refl, Z.eqb_refl. simpl.
  destruct (mounted w); reflexivity.
Qed.

(** ** The ledger's sequence numbers *)

Lemma closeLast_ids (a : jsstring) (ev : jsval) (h : list InterviewQnA) :
  map id (closeLast a ev h) = map id h.
Proof.
  induction h as [|q r IH]; [reflexivity|].
  destruct r as [|q' r']; [reflexivity|].
  change (closeLast a ev (q :: q' :: r')) with (q :: closeLast a ev (q' :: r')).
  change (map id (q :: closeLast a ev (q' :: r')))
    with (id q :: map id (closeLast a ev (q' :: r'))).
  rewrite IH. reflexivity.
Qed.

Lemma closeLast_length (a : jsstring) (ev : jsval) (h : list InterviewQnA) :
  List.length (closeLast a ev h) = List.length h.
Proof.
  rewrite <- (length_map id), closeLast_ids, length_map. reflexivity.
Qed.

Lemma recordTurn_numbered (a : jsstring) (ev nq : jsval) (s : InterviewState) :
  numbered (qnaHistory s) -> numbered (qnaHistory (recordTurn a ev nq s)).
Proof.
  unfold numbered, recordTurn. simpl. intros H.
  rewrite map_app, closeLast_ids, length_app, closeLast_length. simpl.
  rewrite Nat.add_1_r, seq_S, map_app, <- H. simpl.
  f_equal. f_equal. lia.
Qed.

Lemma settle_numbered (p : Pending) (u : Upstream) (w : World) :
  numbered (qnaHistory (st w)) -> numbered (qnaHistory (st (settle p u w))).
Proof.
  intros H. destruct p as [lang supported seen | a seen chat | h lang]; simpl.
  - unfold startInterview_settled, startFailed.
    destruct (startSession u); [|exact H].
    destruct (getProp a (lit "nextQuestion")); [|exact H].
    break_if; [exact H|]. destruct supported; reflexivity.
  - unfold submitAnswer_settled.
    destruct (sendAnswer chat u); [|exact H].
    destruct (getProp a0 (lit "evaluation")); [|exact H].
    destruct (getProp a0 (lit "nextQuestion")); [|exact H].
    break_if; [exact H|]. simpl. apply recordTurn_numbered, H.
  - unfold finishInterview_settled.
    destruct (generateFinalReport h lang u); [|exact H].
    break_if; exact H.
Qed.

Lemma handle_numbered (e : Event) (w : World) :
  numbered (qnaHistory (st w)) -> numbered (qnaHistory (st (handle e w))).
Proof.
  intros H. destruct e; simpl; try exact H.
  - unfold startInterview. destruct (negb (hasApiKey w)); [exact H|reflexivity].
  - unfold submitAnswer. repeat break_if; exact H.
  - unfold tick. destruct (timer w); [|exact H]. repeat break_if; exact H.
  - destruct (nth_error (inflight w) i); [|exact H].
    apply settle_numbered. exact H.
  - break_if; exact H.
  - break_if; exact H.
Qed.

Lemma step_numbered (w : World) (e : Event) :
  numbered (qnaHistory (st w)) -> numbered (qnaHistory (st (step w e))).
Proof.
  intros H. unfold step. destruct (mounted w); [|exact H].
  rewrite render_qnaHistory. apply handle_numbered, H.
Qed.

Lemma dispatch_numbered (w : World) (e : Event) :
  numbered (qnaHistory (st w)) -> numbered (qnaHistory (st (dispatch w e))).
Proof.
  intros H. unfold dispatch. destruct (enabled w e); [|exact H].
  apply step_numbered, H.
Qed.

Lemma run_numbered (w : World) (es : list Event) :
  numbered (qnaHistory (st w)) -> numbered (qnaHistory (st (run w es))).
Proof.
  revert w. induction es as [|e es IH]; intros w H; [exact H|].
  simpl. apply IH, dispatch_numbered, H.
Qed.

Lemma numbered_from_nth (h : list InterviewQnA) :
  forall (s i : nat) (q : InterviewQnA),
    map id h = map Z.of_nat (seq s (List.length h)) ->
    nth_error h i = Some q -> id q = Z.of_nat (s + i).
Proof.
  induction h as [|x r IH]; intros s i q H Hq.
  - destruct i; discriminate.
  - simpl in H. injection H as Hx Hr.
    destruct i as [|i]; simpl in Hq.
    + injection Hq as <-. rewrite Nat.add_0_r. exact Hx.
    + rewrite (IH (S s) i q Hr Hq). f_equal. lia.
Qed.

Lemma numbered_nth (h : list InterviewQnA) (i : nat) (q : InterviewQnA) :
  numbered h -> nth_error h i = Some q -> id q = Z.of_nat (S i).
Proof. intros H Hq. exact (numbered_from_nth h 1 i q H Hq). Qed.

(** C2. Along every sequence of events from the initial state, the [id]s
    of [qnaHistory] are 1, 2, ..., N in order, before and after each
    event, and an event never changes the [id] found at a position of
    the ledger. *)
Theorem ledger_ids_sequential (supported apiKey : bool) (es : list Event)
    (e : Event) :
  let w := run (initialWorld supported apiKey) es in
  let w' := dispatch w e in
  numbered (qnaHistory (st w)) /\
  numbered (qnaHistory (st w')) /\
  forall (i : nat) (q q' : InterviewQnA),
    nth_error (qnaHistory (st w)) i = Some q ->
    nth_error (qnaHistory (st w')) i = Some q' ->
    id q' = id q.
Proof.
  intros w w'.
  assert (Hw : numbered (qnaHistory (st w)))
    by (apply run_numbered; reflexivity).
  assert (Hw' : numbered (qnaHistory (st w')))
    by (apply dispatch_numbered, Hw).
  repeat split; trivial.
  intros i q q' Hq Hq'.
  rewrite (numbered_nth _ _ _ Hw Hq), (numbered_nth _ _ _ Hw' Hq').
  reflexivity.
Qed.

(** C4. [submitAnswer] returns at once, leaving the whole world as it
    was (status, ledger, buffer, calls in flight), when the status is not
    INTERVIEW_ACTIVE or the transcript is empty after trimming. *)
Theorem submit_guard_noop (w : World) :
  status (st w) <> INTERVIEW_ACTIVE \/ trim (currentTranscript (st w)) = [] ->
  step w Submit = w /\ dispatch w Submit = w.
Proof.
  intros H.
  assert (Hh : handle Submit w = w).
  { simpl. unfold submitAnswer.
    destruct (status_eqb (status (st w)) INTERVIEW_ACTIVE) eqn:Hs; simpl.
    - destruct H as [H | H].
      + apply status_eqb_eq in Hs. contradiction.
      + rewrite H. reflexivity.
    - reflexivity. }
  assert (Hs : step w Submit = w).
  { unfold step. rewrite Hh, render_same. destruct (mounted w); reflexivity. }
  split; [exact Hs|].
  unfold dispatch. rewrite Hs. destruct (enabled w Submit); reflexivity.
Qed.

(** A listening session whose transcript is three spaces. *)
Lemma submit_guard_noop_witness :
  let w := run answering [SpeechResult (lit "   ")] in
  (status (st w) = INTERVIEW_ACTIVE /\ currentTranscript (st w) = lit "   ")
  /\ step w Submit = w /\ dispatch w Submit = w.
Proof.
  split; [split; reflexivity|].
  apply submit_guard_noop. right. reflexivity.
Defined.

(** The answer of turn 1 comes back: the ledger grows from [1] to
    [1; 2], and turn 1 keeps its id. *)
Lemma ledger_ids_sequential_witness :
  let w := run (initialWorld true true) processingEvents in
  let w' := dispatch w (Settle 0 (turnResponse "Good clarity." "Why this role?")) in
  map id (qnaHistory (st w)) = [1]
  /\ map id (qnaHistory (st w')) = [1; 2]
  /\ option_map id (nth_error (qnaHistory (st w')) 0)
     = option_map id (nth_error (qnaHistory (st w)) 0).
Proof.
  destruct (ledger_ids_sequential true true processingEvents
              (Settle 0 (turnResponse "Good clarity." "Why this role?")))
    as (_ & _ & Hid).
  split; [vm_compute; reflexivity|]. split; [vm_compute; reflexivity|].
  specialize (Hid 0%nat).
  destruct (nth_error (qnaHistory (st (run (initialWorld true true)
                                         processingEvents))) 0)
    as [q|] eqn:Hq; [|vm_compute in Hq; discriminate].
  destruct (nth_error _ 0) as [q'|] eqn:Hq' in |- *;
    [|vm_compute in Hq'; discriminate].
  simpl. f_equal. apply (Hid q q'); [reflexivity|exact Hq'].
Defined.

(** ** The deadline timer *)

Lemma settle_timeLeftSeconds (p : Pending) (u : Upstream) (w : World) :
  timeLeftSeconds (st (settle p u w)) = timeLeftSeconds (st w).
Proof.
  destruct p as [lang supported seen | a seen chat | h lang]; simpl.
  - unfold startInterview_settled, startFailed.
    destruct (startSession u); [|reflexivity].
    destruct (getProp a (lit "nextQuestion")); [|reflexivity].
    break_if; [reflexivity|]. destruct supported; reflexivity.
  - unfold submitAnswer_settled.
    destruct (sendAnswer chat u); [|reflexivity].
    destruct (getProp a0 (lit "evaluation")); [|reflexivity].
    destruct (getProp a0 (lit "nextQuestion")); [|reflexivity].
    break_if; reflexivity.
  - unfold finishInterview_settled.
    destruct (generateFinalReport h lang u); [|reflexivity].
    break_if; reflexivity.
Qed.

Lemma settle_timeLimitMinutes (p : Pending) (u : Upstream) (w : World) :
  timeLimitMinutes (st (settle p u w)) = timeLimitMinutes (st w).
Proof.
  destruct p as [lang supported seen | a seen chat | h lang]; simpl.
  - unfold startInterview_settled, startFailed.
    destruct (startSession u); [|reflexivity].
    destruct (getProp a (lit "nextQuestion")); [|reflexivity].
    break_if; [reflexivity|]. destruct supported; reflexivity.
  - unfold submitAnswer_settled.
    destruct (sendAnswer chat u); [|reflexivity].
    destruct (getProp a0 (lit "evaluation")); [|reflexivity].
    destruct (getProp a0 (lit "nextQuestion")); [|reflexivity].
    break_if; reflexivity.
  - unfold finishInterview_settled.
    destruct (generateFinalReport h lang u); [|reflexivity].
    break_if; reflexivity.
Qed.

(** A settled call leaves the interval alone, unless the render threw. *)
Lemma settle_timer (p : Pending) (u : Upstream) (w : World) :
  mounted w = true ->
  (timer (settle p u w) = timer w /\ mounted (settle p u w) = true)
  \/ (timer (settle p u w) = None /\ mounted (settle p u w) = false).
Proof.
  intros Hm.
  destruct p as [lang supported seen | a seen chat | h lang]; simpl.
  - unfold startInterview_settled, startFailed.
    destruct (startSession u); [|left; split; [reflexivity|exact Hm]].
    destruct (getProp a (lit "nextQuestion"));
      [|left; split; [reflexivity|exact Hm]].
    break_if; [right; split; reflexivity|].
    destruct supported; left; split; try reflexivity; exact Hm.
  - unfold submitAnswer_settled.
    destruct (sendAnswer chat u); [|left; split; [reflexivity|exact Hm]].
    destruct (getProp a0 (lit "evaluation")); [|right; split; reflexivity].
    destruct (getProp a0 (lit "nextQuestion")); [|right; split; reflexivity].
    break_if; [right; split; reflexivity|].
    left; split; [reflexivity|exact Hm].
  - unfold finishInterview_settled.
    destruct (generateFinalReport h lang u);
      [|left; split; [reflexivity|exact Hm]].
    break_if; [right; split; reflexivity|].
    left; split; [reflexivity|exact Hm].
Qed.

(** Only [Start] and [Tick] write [timeLeftSeconds]. *)
Lemma handle_timeLeftSeconds (e : Event) (w : World) :
  e <> Start -> e <> Tick ->
  timeLeftSeconds (st (handle e w)) = timeLeftSeconds (st w).
Proof.
  intros HS HT. destruct e; try congruence; simpl; try reflexivity.
  - unfold submitAnswer. repeat break_if; reflexivity.
  - destruct (nth_error (inflight w) i); [|reflexivity].
    rewrite settle_timeLeftSeconds. reflexivity.
  - break_if; reflexivity.
  - break_if; reflexivity.
Qed.

Lemma handle_timeLimitMinutes (e : Event) (w : World) :
  (forall m, e <> SetTimeLimit m) ->
  timeLimitMinutes (st (handle e w)) = timeLimitMinutes (st w).
Proof.
  intros HL. destruct e; simpl; try reflexivity.
  - unfold startInterview. break_if; reflexivity.
  - unfold submitAnswer. repeat break_if; reflexivity.
  - unfold tick. destruct (timer w); [|reflexivity].
    repeat break_if; reflexivity.
  - destruct (nth_error (inflight w) i); [|reflexivity].
    rewrite settle_timeLimitMinutes. reflexivity.
  - break_if; reflexivity.
  - break_if; reflexivity.
  - exfalso. exact (HL m eq_refl).
Qed.

Lemma tick_timeLeftSeconds (w : World) :
  timeLeftSeconds (st (tick w)) =
  match timer w with
  | None => timeLeftSeconds (st w)
  | Some _ =>
      if timeLeftSeconds (st w) <=? 1 then 0 else timeLeftSeconds (st w) - 1
  end.
Proof.
  unfold tick. destruct (timer w); [|reflexivity].
  repeat break_if; reflexivity.
Qed.

Lemma startInterview_timeLeftSeconds (w : World) :
  timeLeftSeconds (st (startInterview w)) =
  if hasApiKey w then timeLimitMinutes (st w) * 60
  else timeLeftSeconds (st w).
Proof. unfold startInterview. destruct (hasApiKey w); reflexivity. Qed.

(** The interval after a handler is the one before it, unless the handler
    cleared it on the way to IDLE or the tree was unmounted. *)
Lemma handle_timer (e : Event) (w : World) :
  mounted w = true ->
  (timer (handle e w) = timer w /\ mounted (handle e w) = true)
  \/ (timer (handle e w) = None
      /\ (mounted (handle e w) = false
          \/ status (st (handle e w)) = IDLE)).
Proof.
  intros Hm. destruct e; simpl; try (left; split; [reflexivity|exact Hm]).
  - unfold startInterview. break_if; left; split; try reflexivity; exact Hm.
  - right. split; [reflexivity|right; reflexivity].
  - unfold submitAnswer.
    repeat break_if; left; split; try reflexivity; exact Hm.
  - unfold tick. destruct (timer w) eqn:Ht; [|left; split; [exact Ht|exact Hm]].
    repeat break_if; left; (split; [exact Ht|exact Hm]).
  - destruct (nth_error (inflight w) i); [|left; split; [reflexivity|exact Hm]].
    destruct (settle_timer p u (set_inflight (removeAt i (inflight w)) w) Hm)
      as [[Ht Hm'] | [Ht Hm']].
    + left. split; [exact Ht|exact Hm'].
    + right. split; [exact Ht|left; exact Hm'].
  - break_if; left; split; try reflexivity; exact Hm.
  - break_if; left; split; try reflexivity; exact Hm.
Qed.

Lemma render_timerArmed (before after : World) :
  Inv before -> mounted before = true ->
  (timer after = timer before /\ mounted after = true)
  \/ (timer after = None
      /\ (mounted after = false \/ status (st after) = IDLE)) ->
  timerArmed (render before after) =
  mounted after && status_eqb (status (st after)) INTERVIEW_ACTIVE
  && (0 <? timeLeftSeconds (st after)).
Proof.
  intros HI Hm Ht. unfold render.
  destruct (mounted after) eqn:Hma.
  - simpl. unfold timerEffect.
    destruct (status_eqb (status (st before)) (status (st after))
              && (timeLeftSeconds (st before) =? timeLeftSeconds (st after)))
      eqn:Hdeps.
    + apply andb_prop in Hdeps. destruct Hdeps as [Hs Hl].
      apply status_eqb_eq in Hs. apply Z.eqb_eq in Hl.
      assert (Hsync : timerArmed (syncTranscript before after) = timerArmed after)
        by (unfold syncTranscript; repeat break_if; reflexivity).
      rewrite Hsync.
      destruct Ht as [[Ht _] | [Ht [Hc | Hc]]].
      * unfold timerArmed. rewrite Ht.
        fold (timerArmed before). rewrite (inv_timer _ HI), Hm, Hs, Hl.
        reflexivity.
      * discriminate.
      * unfold timerArmed. rewrite Ht, Hc. reflexivity.
    + break_if; reflexivity.
  - destruct Ht as [[_ Hc] | [Ht _]]; [discriminate|].
    unfold timerArmed. rewrite Ht. reflexivity.
Qed.

Lemma dispatch_Inv (w : World) (e : Event) : Inv w -> Inv (dispatch w e).
Proof.
  intros HI. unfold dispatch.
  destruct (enabled w e) eqn:He; [|exact HI].
  unfold step. destruct (mounted w) eqn:Hm; [|exact HI].
  constructor.
  - rewrite render_timeLimitMinutes.
    destruct e; try (rewrite handle_timeLimitMinutes by discriminate;
                     exact (inv_limit _ HI)).
    simpl. unfold enabled in He. rewrite Hm in He. simpl in He.
    apply andb_prop in He. destruct He as [He H10].
    apply andb_prop in He. destruct He as [_ H1].
    apply Z.leb_le in H1, H10. lia.
  - rewrite render_timeLeftSeconds.
    pose proof (inv_left _ HI) as Hl. pose proof (inv_limit _ HI) as Hlim.
    destruct e; try (rewrite handle_timeLeftSeconds by discriminate; exact Hl).
    + simpl. rewrite startInterview_timeLeftSeconds. break_if; lia.
    + simpl. rewrite tick_timeLeftSeconds. destruct (timer w); [|exact Hl].
      destruct (Z.leb_spec (timeLeftSeconds (st w)) 1); lia.
  - rewrite render_mounted, render_status, render_timeLeftSeconds.
    apply render_timerArmed; [exact HI|exact Hm|].
    apply handle_timer. exact Hm.
Qed.

Lemma initial_Inv (supported apiKey : bool) : Inv (initialWorld supported apiKey).
Proof. constructor; simpl; [lia|lia|reflexivity]. Qed.

Lemma run_Inv (w : World) (es : list Event) : Inv w -> Inv (run w es).
Proof.
  revert w. induction es as [|e es IH]; intros w H; [exact H|].
  simpl. apply IH, dispatch_Inv, H.
Qed.

Lemma enabled_Tick (w : World) :
  Inv w ->
  enabled w Tick =
  mounted w && status_eqb (status (st w)) INTERVIEW_ACTIVE
  && (0 <? timeLeftSeconds (st w)).
Proof.
  intros HI. unfold enabled. fold (timerArmed w). rewrite (inv_timer _ HI).
  destruct (mounted w); reflexivity.
Qed.

Lemma idle_tick_noop (w : World) :
  Inv w -> status (st w) <> INTERVIEW_ACTIVE -> step w Tick = w.
Proof.
  intros HI Hs. pose proof (inv_timer _ HI) as Ht.
  destruct (status_eqb (status (st w)) INTERVIEW_ACTIVE) eqn:E.
  - apply status_eqb_eq in E. contradiction.
  - rewrite andb_false_r in Ht. unfold timerArmed in Ht.
    unfold step. simpl. unfold tick.
    destruct (timer w); [discriminate|].
    rewrite render_same. destruct (mounted w); reflexivity.
Qed.

Lemma dispatch_Tick_timeLeftSeconds (w : World) :
  Inv w ->
  timeLeftSeconds (st (dispatch w Tick)) =
  if enabled w Tick
  then (if timeLeftSeconds (st w) <=? 1 then 0 else timeLeftSeconds (st w) - 1)
  else timeLeftSeconds (st w).
Proof.
  intros HI. unfold dispatch.
  destruct (enabled w Tick) eqn:He; [|reflexivity].
  unfold step. unfold enabled in He.
  destruct (mounted w); [|discriminate].
  rewrite render_timeLeftSeconds. simpl. rewrite tick_timeLeftSeconds.
  simpl in He. destruct (timer w); [reflexivity|discriminate].
Qed.

Lemma dispatch_timeLeftSeconds (w : World) (e : Event) :
  e <> Start -> e <> Tick ->
  timeLeftSeconds (st (dispatch w e)) = timeLeftSeconds (st w).
Proof.
  intros HS HT. unfold dispatch. destruct (enabled w e); [|reflexivity].
  unfold step. destruct (mounted w); [|reflexivity].
  rewrite render_timeLeftSeconds. apply handle_timeLeftSeconds; assumption.
Qed.

Lemma fires_at_one (w : World) :
  Inv w -> fires w Tick = true ->
  timeLeftSeconds (st w) = 1 /\ timeLeftSeconds (st (dispatch w Tick)) = 0.
Proof.
  intros HI Hf. unfold fires in Hf.
  apply andb_prop in Hf. destruct Hf as [He Hle].
  rewrite (dispatch_Tick_timeLeftSeconds w HI), He, Hle.
  rewrite (enabled_Tick w HI) in He.
  apply andb_prop in He. destruct He as [_ Hpos].
  apply Z.ltb_lt in Hpos. apply Z.leb_le in Hle. lia.
Qed.

Lemma firings_at_zero (es : list Event) :
  forall w : World,
    Inv w -> timeLeftSeconds (st w) = 0 ->
    existsb isStart es = false -> firings w es = 0%nat.
Proof.
  induction es as [|e es IH]; intros w HI H0 Hns; [reflexivity|].
  simpl in Hns. apply orb_false_iff in Hns. destruct Hns as [He Hes].
  assert (Hf : fires w e = false).
  { destruct e; try reflexivity. unfold fires.
    rewrite (enabled_Tick w HI), H0. simpl. rewrite !andb_false_r.
    reflexivity. }
  simpl. rewrite Hf. simpl.
  apply IH; [apply dispatch_Inv, HI| |exact Hes].
  destruct e; try discriminate;
    try (rewrite dispatch_timeLeftSeconds by discriminate; exact H0).
  rewrite (dispatch_Tick_timeLeftSeconds w HI), (enabled_Tick w HI), H0.
  rewrite !andb_false_r. reflexivity.
Qed.

Lemma firings_at_most_once (es : list Event) :
  forall w : World,
    Inv w -> existsb isStart es = false -> (firings w es <= 1)%nat.
Proof.
  induction es as [|e es IH]; intros w HI Hns; [simpl; lia|].
  simpl in Hns. apply orb_false_iff in Hns. destruct Hns as [He Hes].
  simpl. destruct (fires w e) eqn:Hf.
  - destruct e; try discriminate.
    destruct (fires_at_one w HI Hf) as [_ H0].
    rewrite (firings_at_zero es _ (dispatch_Inv w Tick HI) H0 Hes). lia.
  - simpl. apply IH; [apply dispatch_Inv, HI|exact Hes].
Qed.

Lemma dispatch_Tick_running (w : World) :
  Inv w -> mounted w = true -> status (st w) = INTERVIEW_ACTIVE ->
  1 < timeLeftSeconds (st w) ->
  fires w Tick = false
  /\ mounted (dispatch w Tick) = true
  /\ status (st (dispatch w Tick)) = INTERVIEW_ACTIVE.
Proof.
  intros HI Hm Hs Hl.
  assert (He : enabled w Tick = true).
  { rewrite (enabled_Tick w HI), Hm, Hs. simpl. apply Z.ltb_lt. lia. }
  assert (Hle : (timeLeftSeconds (st w) <=? 1) = false)
    by (apply Z.leb_gt; lia).
  split; [unfold fires; rewrite He, Hle; reflexivity|].
  unfold dispatch. rewrite He. unfold step. rewrite Hm.
  rewrite render_mounted, render_status. simpl. unfold tick.
  unfold enabled in He. rewrite Hm in He. simpl in He.
  destruct (timer w); [|discriminate]. rewrite Hle. simpl.
  split; assumption.
Qed.

Lemma ticks_fire_once (n : nat) :
  forall w : World,
    Inv w -> mounted w = true -> status (st w) = INTERVIEW_ACTIVE ->
    timeLeftSeconds (st w) = Z.of_nat (S n) ->
    firings w (repeat Tick n) = 0%nat /\ firings w (repeat Tick (S n)) = 1%nat.
Proof.
  induction n as [|n IH]; intros w HI Hm Hs Hl.
  - split; [reflexivity|].
    assert (Hf : fires w Tick = true).
    { unfold fires. rewrite (enabled_Tick w HI), Hm, Hs, Hl. reflexivity. }
    cbn [firings repeat]. rewrite Hf. reflexivity.
  - destruct (dispatch_Tick_running w HI Hm Hs ltac:(lia)) as (Hf & Hm' & Hs').
    assert (Hl' : timeLeftSeconds (st (dispatch w Tick)) = Z.of_nat (S n)).
    { rewrite (dispatch_Tick_timeLeftSeconds w HI).
      rewrite (enabled_Tick w HI), Hm, Hs.
      replace (0 <? timeLeftSeconds (st w)) with true
        by (symmetry; apply Z.ltb_lt; lia).
      replace (timeLeftSeconds (st w) <=? 1) with false
        by (symmetry; apply Z.leb_gt; lia).
      simpl. lia. }
    destruct (IH _ (dispatch_Inv w Tick HI) Hm' Hs' Hl') as [IH0 IH1].
    change (repeat Tick (S (S n))) with (Tick :: repeat Tick (S n)).
    change (repeat Tick (S n)) with (Tick :: repeat Tick n) at 1.
    cbn [firings]. rewrite Hf, IH0, IH1. split; reflexivity.
Qed.

(** C6. In every world the events can lead to: the remaining time is
    never negative; a tick outside INTERVIEW_ACTIVE changes nothing; a
    tick while INTERVIEW_ACTIVE takes exactly one second off; every event
    other than a tick or a new start (so also entering
    PROCESSING_ANSWER and coming back from it) leaves the remaining time
    as it is; the tick that calls [finishInterview] finds the count at
    exactly 1 and leaves it at 0; until the next start no second tick
    does; and a session left to run fires once, on the tick that brings
    the count to zero. *)
Theorem deadline_timer_discipline (supported apiKey : bool) (es : list Event) :
  let w := run (initialWorld supported apiKey) es in
  0 <= timeLeftSeconds (st w)
  /\ (status (st w) <> INTERVIEW_ACTIVE -> step w Tick = w)
  /\ (mounted w = true -> status (st w) = INTERVIEW_ACTIVE ->
      0 < timeLeftSeconds (st w) ->
      timeLeftSeconds (st (dispatch w Tick)) = timeLeftSeconds (st w) - 1)
  /\ (forall e : Event, e <> Tick -> e <> Start ->
      timeLeftSeconds (st (dispatch w e)) = timeLeftSeconds (st w))
  /\ (fires w Tick = true ->
      timeLeftSeconds (st w) = 1
      /\ timeLeftSeconds (st (dispatch w Tick)) = 0)
  /\ (forall es' : list Event,
      existsb isStart es' = false -> (firings w es' <= 1)%nat)
  /\ (mounted w = true -> status (st w) = INTERVIEW_ACTIVE ->
      0 < timeLeftSeconds (st w) ->
      let n := Z.to_nat (timeLeftSeconds (st w)) in
      firings w (repeat Tick (n - 1)) = 0%nat
      /\ firings w (repeat Tick n) = 1%nat).
Proof.
  intros w.
  assert (HI : Inv w) by (apply run_Inv, initial_Inv).
  split; [exact (inv_left _ HI)|].
  split; [apply idle_tick_noop, HI|].
  split.
  { intros Hm Hs Hl.
    rewrite (dispatch_Tick_timeLeftSeconds w HI), (enabled_Tick w HI), Hm, Hs.
    replace (0 <? timeLeftSeconds (st w)) with true
      by (symmetry; apply Z.ltb_lt; lia).
    simpl. destruct (Z.leb_spec (timeLeftSeconds (st w)) 1); lia. }
  split; [intros e HT HS; apply dispatch_timeLeftSeconds; assumption|].
  split; [apply fires_at_one, HI|].
  split; [intros es' Hns; apply firings_at_most_once; assumption|].
  intros Hm Hs Hl n.
  destruct n as [|k] eqn:Hn; [unfold n in Hn; lia|].
  replace (S k - 1)%nat with k by lia.
  apply ticks_fire_once; try assumption. unfold n in Hn. lia.
Qed.

(** One second left: the tick fires and leaves zero.  While the answer
    is being processed a tick changes nothing.  A session of one minute
    left to run fires on its sixtieth tick and not before. *)
Lemma deadline_timer_discipline_witness :
  let w := run (initialWorld true true) lastSecondEvents in
  let p := run (initialWorld true true) processingEvents in
  let w0 := run (initialWorld true true) (SetTimeLimit 1 :: secondTurnEvents) in
  (status (st w) = INTERVIEW_ACTIVE /\ fires w Tick = true)
  /\ timeLeftSeconds (st w) = 1
  /\ timeLeftSeconds (st (dispatch w Tick)) = 0
  /\ (status (st p) = PROCESSING_ANSWER /\ step p Tick = p)
  /\ (timeLeftSeconds (st w0) = 60
      /\ firings w0 (repeat Tick (60 - 1)) = 0%nat
      /\ firings w0 (repeat Tick 60) = 1%nat).
Proof.
  destruct (deadline_timer_discipline true true lastSecondEvents)
    as (_ & _ & _ & _ & Hfire & _).
  destruct (deadline_timer_discipline true true processingEvents)
    as (_ & Hidle & _).
  destruct (deadline_timer_discipline true true
              (SetTimeLimit 1 :: secondTurnEvents))
    as (_ & _ & _ & _ & _ & _ & Honce).
  split; [split; vm_compute; reflexivity|].
  split; [apply Hfire; vm_compute; reflexivity|].
  split; [apply Hfire; vm_compute; reflexivity|].
  split.
  - split; [vm_compute; reflexivity|].
    apply Hidle. vm_compute. discriminate.
  - split; [vm_compute; reflexivity|].
    assert (H1 : mounted (run (initialWorld true true)
                            (SetTimeLimit 1 :: secondTurnEvents)) = true)
      by (vm_compute; reflexivity).
    assert (H2 : status (st (run (initialWorld true true)
                               (SetTimeLimit 1 :: secondTurnEvents)))
                 = INTERVIEW_ACTIVE)
      by (vm_compute; reflexivity).
    assert (H3 : 0 < timeLeftSeconds
                       (st (run (initialWorld true true)
                              (SetTimeLimit 1 :: secondTurnEvents))))
      by (vm_compute; reflexivity).
    specialize (Honce H1 H2 H3). cbv zeta in Honce.
    replace (Z.to_nat
               (timeLeftSeconds
                  (st (run (initialWorld true true)
                         (SetTimeLimit 1 :: secondTurnEvents)))))
      with 60%nat in Honce by (vm_compute; reflexivity).
    exact Honce.
Defined.

(** ** Deadline expiry *)

Lemma answered_spec (q : InterviewQnA) :
  answered q = true <-> trim (answer q) <> [].
Proof.
  unfold answered. destruct (trim (answer q)); simpl; split; congruence.
Qed.

Lemma nth_error_last {A : Type} (l : list A) (x : A) :
  nth_error (l ++ [x]) (List.length l) = Some x.
Proof.
  rewrite nth_error_app2 by lia. rewrite Nat.sub_diag. reflexivity.
Qed.

(** The object of the [catch] of [generateFinalReport] has the shape the
    result view shows. *)
Lemma errorReport_renders (lang : Language) :
  truthy (errorReport lang) = true /\ reportRenders (errorReport lang) = true.
Proof. destruct lang; split; reflexivity. Qed.

(** The report call settles with a report that is falsy, or one the
    result view can show: whatever the world has become meanwhile, the
    status is FINISHED and [finalResult] is what [generateFinalReport]
    returned. *)
Lemma report_settles (h : list InterviewQnA) (lang : Language) (u : Upstream)
    (w : World) (i : nat) (r : json) :
  mounted w = true ->
  nth_error (inflight w) i = Some (AwaitFinalReport h lang) ->
  generateFinalReport h lang u = Returns r ->
  truthy r = false \/ reportRenders r = true ->
  status (st (step w (Settle i u))) = FINISHED
  /\ finalResult (st (step w (Settle i u))) = r
  /\ error (st (step w (Settle i u))) = error (st w)
  /\ mounted (step w (Settle i u)) = true.
Proof.
  intros Hm Hp Hg Hr. unfold step. rewrite Hm.
  rewrite render_status, render_finalResult, render_error, render_mounted.
  simpl. rewrite Hp. simpl. unfold finishInterview_settled. rewrite Hg.
  replace (truthy r && negb (reportRenders r)) with false
    by (destruct Hr as [-> | ->]; [reflexivity|rewrite andb_false_r; reflexivity]).
  repeat split; try reflexivity. exact Hm.
Qed.

(** It settles with a truthy report that the result view cannot show:
    the render throws and the tree is unmounted. *)
Lemma report_unmounts (h : list InterviewQnA) (lang : Language) (u : Upstream)
    (w : World) (i : nat) (r : json) :
  mounted w = true ->
  nth_error (inflight w) i = Some (AwaitFinalReport h lang) ->
  generateFinalReport h lang u = Returns r ->
  truthy r = true -> reportRenders r = false ->
  mounted (step w (Settle i u)) = false /\ st (step w (Settle i u)) = st w.
Proof.
  intros Hm Hp Hg Ht Hr. unfold step. rewrite Hm.
  simpl. rewrite Hp. simpl. unfold finishInterview_settled.
  rewrite Hg, Ht, Hr. split; reflexivity.
Qed.

Lemma generateFinalReport_returns (h : list InterviewQnA) (lang : Language)
    (u : Upstream) :
  exists r : json,
    generateFinalReport h lang u = Returns r
    /\ (r = errorReport lang \/ u = Responds (Parsed r)).
Proof. destruct u as [|[| |v]]; eexists; (split; [reflexivity|]); auto. Qed.

(** The callback of an interval armed by this very step closes over the
    ledger and the language of the state the step ends in. *)
Lemma timer_closure_fresh (w : World) (e : Event) (c : TimerClosure) :
  mounted w = true ->
  status (st (step w e)) <> status (st w)
  \/ timeLeftSeconds (st (step w e)) <> timeLeftSeconds (st w) ->
  timer (step w e) = Some c ->
  seenHistory c = qnaHistory (st (step w e))
  /\ seenLanguage c = language (st (step w e)).
Proof.
  intros Hm Hch. unfold step in *. rewrite Hm in *.
  rewrite render_status, render_timeLeftSeconds in Hch.
  rewrite render_qnaHistory.
  unfold render, timerEffect.
  destruct (mounted (handle e w)) eqn:Hm'.
  - destruct (status_eqb (status (st w)) (status (st (handle e w)))
              && (timeLeftSeconds (st w) =? timeLeftSeconds (st (handle e w))))
      eqn:Hdeps.
    + apply andb_prop in Hdeps. destruct Hdeps as [Hs Hl].
      apply status_eqb_eq in Hs. apply Z.eqb_eq in Hl.
      destruct Hch; congruence.
    + break_if; simpl; [|discriminate].
      intros Hc. injection Hc as <-. simpl.
      unfold syncTranscript. repeat break_if; split; reflexivity.
  - intros Hc. pose proof (handle_timer e w Hm) as [[_ Hx] | [Hx _]];
      congruence.
Qed.

(** C1, the claim at a concrete session: one second is left, turn 1 is
    answered and turn 2 is open.  The report comes back as an object
    without [goodPoints]: the result view throws on it, the tree is
    unmounted and the status never is FINISHED.  And where React computes
    the updater of the tick at the call, the status is INTERVIEW_ACTIVE
    after the tick, and FINISHED once the report is in: there is no
    PROCESSING_ANSWER in between. *)
Lemma deadline_expiry_not_always_finished :
  let scoreOnly := Responds (Parsed (JObj [(lit "score", JNum 88)])) in
  let w1 := run lastSecond [Tick] in
  let w2 := run w1 [Settle 0 scoreOnly] in
  let e1 := run lastSecond [Scheduler true; Tick] in
  let e2 := run e1 [Settle 0 Rejects] in
  allEnabled lastSecond [Tick; Settle 0 scoreOnly] = true
  /\ allEnabled lastSecond [Scheduler true; Tick; Settle 0 Rejects] = true
  /\ status (st lastSecond) = INTERVIEW_ACTIVE
  /\ timeLeftSeconds (st lastSecond) = 1
  /\ (mounted w2 = false /\ status (st w2) <> FINISHED)
  /\ (status (st e1) = INTERVIEW_ACTIVE
      /\ timeLeftSeconds (st e1) = 0
      /\ status (st e2) = FINISHED).
Proof. vm_compute. repeat split; try reflexivity; discriminate. Qed.

(** C1, as the code has it.  When the interval fires with at most one
    second left while the status is INTERVIEW_ACTIVE, whatever the
    transcript buffer holds and however React computes the updater: the
    tick leaves zero seconds and one more call in flight, the report
    call; the history handed to [generateFinalReport] is the ledger
    seen by the interval's callback, filtered down to the turns whose
    answer is non-empty after trimming, so an open turn is not in it.
    When that call settles, at once or later, in any world that has it
    in flight: with a report that is falsy or that the result view can
    show (the one made on a failure is such), the status is FINISHED and
    [finalResult] is that report; with a truthy report of another shape
    the render throws, the tree is unmounted and the state stays as it
    was. *)
Theorem deadline_expiry_requests_report (w : World) (c : TimerClosure)
    (u : Upstream) :
  mounted w = true ->
  timer w = Some c ->
  status (st w) = INTERVIEW_ACTIVE ->
  timeLeftSeconds (st w) <= 1 ->
  let w1 := step w Tick in
  let validHistory := filter answered (seenHistory c) in
  timeLeftSeconds (st w1) = 0
  /\ mounted w1 = true
  /\ inflight w1 = inflight w ++ [AwaitFinalReport validHistory (seenLanguage c)]
  /\ Forall (fun q => In q (seenHistory c) /\ trim (answer q) <> []) validHistory
  /\ (forall q : InterviewQnA, trim (answer q) = [] -> ~ In q validHistory)
  /\ exists r : json,
       generateFinalReport validHistory (seenLanguage c) u = Returns r
       /\ (reportFails u ->
           r = errorReport (seenLanguage c)
           /\ truthy r = true /\ reportRenders r = true)
       /\ reportLands r w1 (step w1 (Settle (List.length (inflight w)) u))
       /\ forall (x : World) (j : nat),
            mounted x = true ->
            nth_error (inflight x) j
            = Some (AwaitFinalReport validHistory (seenLanguage c)) ->
            reportLands r x (step x (Settle j u)).
Proof.
  intros Hm Ht Hs Hl w1 validHistory.
  assert (Hh : handle Tick w
               = if eager w
                 then set_st (set_timeLeftSeconds 0 (st w)) (finishInterview c w)
                 else finishInterview c (setState (set_timeLeftSeconds 0) w)).
  { simpl. unfold tick. rewrite Ht.
    replace (timeLeftSeconds (st w) <=? 1) with true
      by (symmetry; apply Z.leb_le; exact Hl).
    reflexivity. }
  assert (H2 : timeLeftSeconds (st w1) = 0).
  { unfold w1, step. rewrite Hm, render_timeLeftSeconds, Hh.
    destruct (eager w); reflexivity. }
  assert (H3 : inflight w1
               = inflight w ++ [AwaitFinalReport validHistory (seenLanguage c)]).
  { unfold w1, step. rewrite Hm, render_inflight, Hh.
    destruct (eager w); reflexivity. }
  assert (Hm1 : mounted w1 = true).
  { unfold w1, step. rewrite Hm, render_mounted, Hh.
    destruct (eager w); exact Hm. }
  assert (Hv : forall q, In q validHistory ->
                 In q (seenHistory c) /\ trim (answer q) <> []).
  { intros q Hq. unfold validHistory in Hq.
    apply filter_In in Hq. destruct Hq as [Hin Ha].
    split; [exact Hin|apply answered_spec, Ha]. }
  split; [exact H2|]. split; [exact Hm1|]. split; [exact H3|].
  split; [apply Forall_forall; exact Hv|].
  split; [intros q Hq Hin; exact (proj2 (Hv q Hin) Hq)|].
  destruct (generateFinalReport_returns validHistory (seenLanguage c) u)
    as (r & Hg & _).
  exists r. split; [exact Hg|]. split.
  { intros Hu.
    assert (Hr : r = errorReport (seenLanguage c)).
    { destruct Hu as [-> | [-> | ->]]; simpl in Hg; congruence. }
    rewrite Hr. split; [reflexivity|]. apply errorReport_renders. }
  assert (Hall : forall (x : World) (j : nat),
            mounted x = true ->
            nth_error (inflight x) j
            = Some (AwaitFinalReport validHistory (seenLanguage c)) ->
            reportLands r x (step x (Settle j u))).
  { intros x j Hmx Hj. split.
    - intros Hr.
      destruct (report_settles _ _ u x j r Hmx Hj Hg Hr) as (Ha & Hb & _ & Hc).
      repeat split; assumption.
    - intros Htr Hrr. exact (report_unmounts _ _ u x j r Hmx Hj Hg Htr Hrr). }
  split; [|exact Hall].
  apply Hall; [exact Hm1|]. rewrite H3. apply nth_error_last.
Qed.

Lemma scenarios_reached :
  answering = run (initialWorld true true) answeringEvents
  /\ processing = run (initialWorld true true) processingEvents
  /\ secondTurn = run (initialWorld true true) secondTurnEvents
  /\ lastSecond = run (initialWorld true true) lastSecondEvents
  /\ pausedProcessing = run (initialWorld true true) pausedProcessingEvents.
Proof. repeat split; vm_compute; reflexivity. Qed.

Lemma scenarios_enabled :
  allEnabled (initialWorld true true) lastSecondEvents = true
  /\ allEnabled (initialWorld true true) pausedProcessingEvents = true.
Proof. split; vm_compute; reflexivity. Qed.

(** The ledger after the first exchange: turn 1 closed with its answer
    and evaluation, turn 2 open. *)
Lemma second_turn_ledger :
  qnaHistory (st secondTurn)
  = [ mkQnA 1 (Val (JStr (lit "Tell me about yourself")))
        (lit "I am an engineer.") (Val (JStr (lit "Good clarity.")));
      mkQnA 2 (Val (JStr (lit "Why this role?"))) [] Undefined ].
Proof. reflexivity. Qed.

(** One second left with turn 1 answered and turn 2 open: the report is
    asked for turn 1 alone, and a rejected request ends in FINISHED. *)
Lemma deadline_expiry_requests_report_witness :
  status (st lastSecond) = INTERVIEW_ACTIVE
  /\ timeLeftSeconds (st lastSecond) = 1
  /\ map id (qnaHistory (st lastSecond)) = [1; 2]
  /\ timeLeftSeconds (st (step lastSecond Tick)) = 0
  /\ (exists h : list InterviewQnA,
        inflight (step lastSecond Tick) = [AwaitFinalReport h ja]
        /\ map id h = [1])
  /\ status (st (step (step lastSecond Tick) (Settle 0 Rejects))) = FINISHED.
Proof.
  assert (Ht : timer lastSecond
               = Some (mkClosure (qnaHistory (st lastSecond)) ja false))
    by reflexivity.
  destruct (deadline_expiry_requests_report lastSecond _ Rejects
              eq_refl Ht eq_refl ltac:(simpl; lia))
    as (H2 & _ & H3 & _ & _ & r & _ & Hfail & [Hfin _] & _).
  destruct (Hfail (or_introl eq_refl)) as (_ & _ & Hr).
  destruct (Hfin (or_intror Hr)) as (Hs & _).
  repeat split; try reflexivity; try assumption.
  eexists. split; [exact H3|reflexivity].
Defined.

(** ** A failed exchange during PROCESSING_ANSWER *)

(** What the [catch] of [submitAnswer] does, in any world: the status is
    INTERVIEW_ACTIVE, the error is set, the ledger is untouched, and the
    hook has gone through the [startListening] of the render in which
    the answer was submitted. *)
Lemma submitAnswer_failure (w : World) (i : nat) (a : jsstring)
    (seen chat : bool) (u : Upstream) (e : Failure) :
  mounted w = true ->
  nth_error (inflight w) i = Some (AwaitSendAnswer a seen chat) ->
  sendAnswer chat u = Throws e ->
  let w' := step w (Settle i u) in
  status (st w') = INTERVIEW_ACTIVE
  /\ qnaHistory (st w') = qnaHistory (st w)
  /\ error (st w') = Some answerFailedMessage
  /\ sp w' = startListening seen (sp w).
Proof.
  intros Hm Hp Hu w'. unfold w', step. rewrite Hm.
  rewrite render_status, render_qnaHistory, render_error, render_sp.
  simpl. rewrite Hp. simpl. unfold submitAnswer_settled. rewrite Hu.
  repeat split; reflexivity.
Qed.

(** The [startListening] of a render that saw the recognizer listening
    does nothing. *)
Lemma startListening_stale (h : Hook) : startListening true h = h.
Proof. unfold startListening. rewrite andb_false_r. reflexivity. Qed.

(** So a failed call that was submitted while the recognizer was
    listening leaves the hook as [stopListening] left it. *)
Lemma submitAnswer_failure_listening (w : World) (i : nat) (a : jsstring)
    (chat : bool) (u : Upstream) (e : Failure) :
  mounted w = true ->
  nth_error (inflight w) i = Some (AwaitSendAnswer a true chat) ->
  sendAnswer chat u = Throws e ->
  sp (step w (Settle i u)) = sp w.
Proof.
  intros Hm Hp Hu.
  destruct (submitAnswer_failure w i a true chat u e Hm Hp Hu)
    as (_ & _ & _ & Hsp).
  rewrite Hsp. apply startListening_stale.
Qed.

(** C3. The candidate answers with the recognizer listening, submits,
    and [sendAnswer] rejects: the status is back at INTERVIEW_ACTIVE with
    ledger and buffer as before the submission, but the recognizer is
    not listening again.  When the microphone was paused before the
    submission the recognizer does start, and the buffer is emptied. *)
Theorem send_failure_capture_not_resumed :
  let before := answering in
  let after := run processing [Settle 0 Rejects] in
  let pausedAfter := run pausedProcessing [Settle 0 Rejects] in
  allEnabled (initialWorld true true)
    (processingEvents ++ [Settle 0 Rejects]) = true
  /\ allEnabled (initialWorld true true)
       (pausedProcessingEvents ++ [Settle 0 Rejects]) = true
  /\ (isListening (sp before) = true
   /\ status (st processing) = PROCESSING_ANSWER
   /\ status (st after) = INTERVIEW_ACTIVE
   /\ qnaHistory (st after) = qnaHistory (st before)
   /\ currentTranscript (st after) = lit "I am an engineer."
   /\ isListening (sp after) = false)
  /\ (status (st pausedProcessing) = PROCESSING_ANSWER
      /\ currentTranscript (st pausedProcessing) = lit "I am an engineer."
      /\ status (st pausedAfter) = INTERVIEW_ACTIVE
      /\ isListening (sp pausedAfter) = true
      /\ currentTranscript (st pausedAfter) = []).
Proof. vm_compute. repeat split; reflexivity. Qed.

(** ** A response that arrives after the user has quit *)

Lemma quit_leaves_calls_in_flight (w : World) :
  mounted w = true ->
  status (st (step w Quit)) = IDLE
  /\ currentTranscript (st (step w Quit)) = []
  /\ inflight (step w Quit) = inflight w.
Proof.
  intros Hm. unfold step. rewrite Hm, render_status, render_inflight.
  split; [reflexivity|]. split; [|reflexivity].
  unfold render, timerEffect, syncTranscript. simpl.
  repeat break_if; try reflexivity; discriminate.
Qed.

Lemma submitAnswer_success (w : World) (i : nat) (a : jsstring)
    (seen : bool) (v : json) (ev nq : jsval) :
  mounted w = true ->
  nth_error (inflight w) i = Some (AwaitSendAnswer a seen true) ->
  getProp v (lit "evaluation") = Some ev ->
  getProp v (lit "nextQuestion") = Some nq ->
  ledgerRenders
    (closeLast a ev (qnaHistory (st w))
     ++ [mkQnA (Z.of_nat (List.length (qnaHistory (st w))) + 1) nq []
           Undefined]) = true ->
  let w' := step w (Settle i (Responds (Parsed v))) in
  status (st w') = INTERVIEW_ACTIVE
  /\ qnaHistory (st w')
     = closeLast a ev (qnaHistory (st w))
       ++ [mkQnA (Z.of_nat (List.length (qnaHistory (st w))) + 1) nq []
             Undefined]
  /\ currentTranscript (st w') = []
  /\ mounted w' = true.
Proof.
  intros Hm Hp Hev Hnq Hr w'. unfold w', step. rewrite Hm.
  rewrite render_status, render_qnaHistory, render_mounted.
  simpl. rewrite Hp. simpl. unfold submitAnswer_settled. simpl.
  rewrite Hev, Hnq. simpl. rewrite closeLast_length, Hr. simpl.
  rewrite ?closeLast_length.
  split; [reflexivity|]. split; [reflexivity|]. split; [|exact Hm].
  unfold render, timerEffect, syncTranscript, startListening, resetText.
  simpl. repeat break_if; reflexivity.
Qed.

(** The interview view cannot show the new ledger: the render throws
    and the tree is unmounted. *)
Lemma submitAnswer_unmounts (w : World) (i : nat) (a : jsstring)
    (seen : bool) (v : json) (ev nq : jsval) :
  mounted w = true ->
  nth_error (inflight w) i = Some (AwaitSendAnswer a seen true) ->
  getProp v (lit "evaluation") = Some ev ->
  getProp v (lit "nextQuestion") = Some nq ->
  ledgerRenders
    (closeLast a ev (qnaHistory (st w))
     ++ [mkQnA (Z.of_nat (List.length (qnaHistory (st w))) + 1) nq []
           Undefined]) = false ->
  let w' := step w (Settle i (Responds (Parsed v))) in
  mounted w' = false /\ st w' = st w.
Proof.
  intros Hm Hp Hev Hnq Hr w'. unfold w', step. rewrite Hm.
  simpl. rewrite Hp. simpl. unfold submitAnswer_settled. simpl.
  rewrite Hev, Hnq. simpl. rewrite closeLast_length, Hr. simpl.
  split; reflexivity.
Qed.

Lemma closeLast_renders (a : jsstring) (ev : jsval) (h : list InterviewQnA) :
  ledgerRenders h = true -> childRenders ev = true ->
  ledgerRenders (closeLast a ev h) = true.
Proof.
  intros Hh Hev. induction h as [|q r IH]; [reflexivity|].
  unfold ledgerRenders in *. simpl in Hh.
  apply andb_prop in Hh. destruct Hh as [Hq Hr].
  destruct r as [|q' r'].
  - simpl. unfold turnRenders in *. simpl.
    apply andb_prop in Hq. destruct Hq as [Hq _].
    rewrite Hq, Hev, orb_true_r. reflexivity.
  - change (closeLast a ev (q :: q' :: r'))
      with (q :: closeLast a ev (q' :: r')).
    change (forallb turnRenders (q :: closeLast a ev (q' :: r')))
      with (turnRenders q && forallb turnRenders (closeLast a ev (q' :: r'))).
    rewrite Hq, (IH Hr). reflexivity.
Qed.

(** A ledger that has been shown stays one that can be, when the
    evaluation and the next question are no objects. *)
Lemma recordTurn_renders (a : jsstring) (ev nq : jsval) (h : list InterviewQnA) :
  ledgerRenders h = true -> childRenders ev = true -> childRenders nq = true ->
  ledgerRenders
    (closeLast a ev h
     ++ [mkQnA (Z.of_nat (List.length h) + 1) nq [] Undefined]) = true.
Proof.
  intros Hh Hev Hnq. unfold ledgerRenders. rewrite forallb_app.
  fold (ledgerRenders (closeLast a ev h)).
  rewrite (closeLast_renders a ev h Hh Hev). simpl.
  unfold turnRenders. simpl. rewrite Hnq. reflexivity.
Qed.

(** C5, the claim at a concrete session: the user quits while the
    exchange call of the first answer is in flight, the session is back
    at IDLE, and the response that arrives afterwards is applied to it. *)
Lemma stale_response_applied :
  let quitted := run processing [Quit] in
  let later := run quitted [Settle 0 (turnResponse "Good clarity." "Why this role?")] in
  allEnabled processing
    [Quit; Settle 0 (turnResponse "Good clarity." "Why this role?")] = true
  /\ status (st quitted) = IDLE
  /\ status (st later) = INTERVIEW_ACTIVE
  /\ map id (qnaHistory (st quitted)) = [1]
  /\ map id (qnaHistory (st later)) = [1; 2]
  /\ map answer (qnaHistory (st later)) = [lit "I am an engineer."; []].
Proof. vm_compute. repeat split; reflexivity. Qed.

(** C5, as the code has it.  Quitting leaves the exchange call in
    flight, and no call carries a session epoch: when a [sendAnswer]
    call settles, in whatever state the session is by then (IDLE after
    a quit, or a later session), its continuation runs.  A response
    that is an object makes a new ledger, with the answer of the old
    submission written into the last turn and a new turn appended: when
    the interview view can show it, as it can when the ledger was shown
    before and the evaluation and the next question are no objects, the
    status is set to INTERVIEW_ACTIVE, the ledger replaced and the
    buffer emptied; when it cannot, the render throws, the tree is
    unmounted and the state stays as it was.  A failure sets the status
    to INTERVIEW_ACTIVE and the error, and leaves the ledger. *)
Theorem stale_response_is_applied (w : World) (i : nat) (a : jsstring)
    (seen : bool) :
  mounted w = true ->
  nth_error (inflight w) i = Some (AwaitSendAnswer a seen true) ->
  (status (st (step w Quit)) = IDLE
   /\ nth_error (inflight (step w Quit)) i = Some (AwaitSendAnswer a seen true))
  /\ (forall (fields : list (jsstring * json)),
        let ev := lookup (lit "evaluation") fields in
        let nq := lookup (lit "nextQuestion") fields in
        let newHistory :=
          closeLast a ev (qnaHistory (st w))
          ++ [mkQnA (Z.of_nat (List.length (qnaHistory (st w))) + 1) nq []
                Undefined] in
        let w' := step w (Settle i (Responds (Parsed (JObj fields)))) in
        (ledgerRenders (qnaHistory (st w)) = true ->
         childRenders ev = true -> childRenders nq = true ->
         ledgerRenders newHistory = true)
        /\ (ledgerRenders newHistory = true ->
            status (st w') = INTERVIEW_ACTIVE
            /\ qnaHistory (st w') = newHistory
            /\ currentTranscript (st w') = []
            /\ mounted w' = true)
        /\ (ledgerRenders newHistory = false ->
            mounted w' = false /\ st w' = st w))
  /\ (forall u : Upstream,
        u = Rejects \/ u = Responds NoText \/ u = Responds BadJson ->
        let w' := step w (Settle i u) in
        status (st w') = INTERVIEW_ACTIVE
        /\ qnaHistory (st w') = qnaHistory (st w)
        /\ error (st w') = Some answerFailedMessage).
Proof.
  intros Hm Hp. split; [|split].
  - destruct (quit_leaves_calls_in_flight w Hm) as (Hs & _ & Hi).
    rewrite Hi. split; assumption.
  - intros fields ev nq newHistory w'. split; [|split].
    + apply recordTurn_renders.
    + intros Hr.
      apply (submitAnswer_success w i a seen (JObj fields)); try assumption;
        reflexivity.
    + intros Hr.
      apply (submitAnswer_unmounts w i a seen (JObj fields) ev nq);
        try assumption; reflexivity.
  - intros u Hu.
    assert (He : exists e, sendAnswer true u = Throws e)
      by (destruct Hu as [-> | [-> | ->]]; eexists; reflexivity).
    destruct He as [e He].
    destruct (submitAnswer_failure w i a seen true u e Hm Hp He)
      as (H1 & H2 & H3 & _).
    repeat split; assumption.
Qed.

(** Quit while the first answer is being processed; then the call
    settles: with a well-formed turn, with an evaluation that is an
    object, or with a failure. *)
Lemma stale_response_is_applied_witness :
  let quitted := step processing Quit in
  let good := turnResponse "Good clarity." "Why this role?" in
  let bad :=
    Responds (Parsed (JObj [ (lit "evaluation", JObj []);
                             (lit "nextQuestion", JStr (lit "Why this role?")) ])) in
  status (st quitted) = IDLE
  /\ status (st (step quitted (Settle 0 good))) = INTERVIEW_ACTIVE
  /\ mounted (step quitted (Settle 0 bad)) = false
  /\ status (st (step quitted (Settle 0 Rejects))) = INTERVIEW_ACTIVE.
Proof.
  assert (Hm : mounted (step processing Quit) = true) by reflexivity.
  assert (Hp : nth_error (inflight (step processing Quit)) 0
               = Some (AwaitSendAnswer (lit "I am an engineer.") true true))
    by reflexivity.
  destruct (stale_response_is_applied (step processing Quit) 0 _ _ Hm Hp)
    as (_ & Hok & Hfail).
  split; [reflexivity|]. split; [|split].
  - destruct (Hok [ (lit "evaluation", JStr (lit "Good clarity."));
                    (lit "nextQuestion", JStr (lit "Why this role?")) ])
      as (_ & Hgood & _).
    exact (proj1 (Hgood eq_refl)).
  - destruct (Hok [ (lit "evaluation", JObj []);
                    (lit "nextQuestion", JStr (lit "Why this role?")) ])
      as (_ & _ & Hbad).
    exact (proj1 (Hbad eq_refl)).
  - exact (proj1 (Hfail Rejects (or_introl eq_refl))).
Defined.

(** ** The final report *)

(** C7. When the report call fails (transport, empty text or
    unparsable text), [generateFinalReport] returns the object built in
    its [catch], whose [score] is 0 and whose [summary] is a non-empty
    text, and the continuation of [finishInterview] stores it with
    status FINISHED: the session does not stay in PROCESSING_ANSWER. *)
Theorem report_failure_still_finishes (w : World) (i : nat)
    (h : list InterviewQnA) (lang : Language) (u : Upstream) :
  mounted w = true ->
  nth_error (inflight w) i = Some (AwaitFinalReport h lang) ->
  reportFails u ->
  let w' := step w (Settle i u) in
  generateFinalReport h lang u = Returns (errorReport lang)
  /\ status (st w') = FINISHED
  /\ finalResult (st w') = errorReport lang
  /\ getProp (finalResult (st w')) (lit "score") = Some (Val (JNum 0))
  /\ getProp (finalResult (st w')) (lit "summary")
     = Some (Val (JStr (errorSummary lang)))
  /\ errorSummary lang <> [].
Proof.
  intros Hm Hp Hu w'.
  assert (Hg : generateFinalReport h lang u = Returns (errorReport lang))
    by (destruct Hu as [-> | [-> | ->]]; reflexivity).
  destruct (report_settles h lang u w i _ Hm Hp Hg
              (or_intror (proj2 (errorReport_renders lang))))
    as (Hs & Hr & _).
  fold w' in Hs, Hr.
  split; [exact Hg|]. split; [exact Hs|]. split; [exact Hr|].
  rewrite Hr. repeat split; try reflexivity.
  destruct lang; discriminate.
Qed.

(** The deadline has fired and upstream answers with text that is no
    JSON. *)
Lemma report_failure_still_finishes_witness :
  let w := step lastSecond Tick in
  status (st w) = PROCESSING_ANSWER
  /\ status (st (step w (Settle 0 (Responds BadJson)))) = FINISHED
  /\ getProp (finalResult (st (step w (Settle 0 (Responds BadJson)))))
       (lit "score") = Some (Val (JNum 0)).
Proof.
  assert (Hm : mounted (step lastSecond Tick) = true) by reflexivity.
  assert (Hp : nth_error (inflight (step lastSecond Tick)) 0
               = Some (AwaitFinalReport
                         (filter answered (qnaHistory (st lastSecond))) ja))
    by reflexivity.
  destruct (report_failure_still_finishes (step lastSecond Tick) 0 _ ja
              (Responds BadJson) Hm Hp (or_intror (or_intror eq_refl)))
    as (_ & Hs & _ & Hscore & _).
  split; [reflexivity|]. split; assumption.
Defined.

(** C10, the claim at a concrete response: upstream answers the report
    request with the JSON text [null].  [generateFinalReport] returns
    [null], and [finishInterview] completes with status FINISHED and a
    null [finalResult]. *)
Lemma null_report_is_stored :
  let w := step lastSecond Tick in
  let w' := step w (Settle 0 (Responds (Parsed JNull))) in
  generateFinalReport (filter answered (qnaHistory (st lastSecond))) ja
    (Responds (Parsed JNull)) = Returns JNull
  /\ inflight w
     = [AwaitFinalReport (filter answered (qnaHistory (st lastSecond))) ja]
  /\ status (st w') = FINISHED
  /\ finalResult (st w') = JNull.
Proof. vm_compute. repeat split; reflexivity. Qed.

(** C10, as the code has it.  [generateFinalReport] never throws: it
    returns the parsed payload, or the object of its [catch] on every
    failure, and what it returns is non-null unless upstream sent the
    JSON [null].  So the [catch] of [finishInterview] is never taken:
    when the report call settles the error is left as it was.  A report
    that is falsy, or that the result view can show, is stored in
    [finalResult] with the status FINISHED; on a truthy report of
    another shape the render throws, the tree is unmounted and the state
    stays as it was. *)
Theorem report_never_throws (h : list InterviewQnA) (lang : Language)
    (u : Upstream) :
  exists r : json,
    generateFinalReport h lang u = Returns r
    /\ (r = errorReport lang \/ u = Responds (Parsed r))
    /\ (u <> Responds (Parsed JNull) -> r <> JNull)
    /\ forall (w : World) (i : nat),
         mounted w = true ->
         nth_error (inflight w) i = Some (AwaitFinalReport h lang) ->
         let w' := step w (Settle i u) in
         error (st w') = error (st w) /\ reportLands r w w'.
Proof.
  destruct (generateFinalReport_returns h lang u) as (r & Hg & Hr).
  exists r. split; [exact Hg|]. split; [exact Hr|]. split.
  { intros Hu Hnull. subst r. destruct Hr as [Hr | Hr].
    - destruct lang; discriminate.
    - contradiction. }
  intros w i Hm Hp w'.
  assert (Hshown : truthy r = false \/ reportRenders r = true ->
                   status (st w') = FINISHED /\ finalResult (st w') = r
                   /\ error (st w') = error (st w) /\ mounted w' = true)
    by (intros Hs; exact (report_settles h lang u w i r Hm Hp Hg Hs)).
  assert (Hthrown : truthy r = true -> reportRenders r = false ->
                    mounted w' = false /\ st w' = st w)
    by (intros Ht Hs; exact (report_unmounts h lang u w i r Hm Hp Hg Ht Hs)).
  split; [|split].
  - destruct (truthy r) eqn:Ht.
    + destruct (reportRenders r) eqn:Hs.
      * exact (proj1 (proj2 (proj2 (Hshown (or_intror eq_refl))))).
      * rewrite (proj2 (Hthrown eq_refl eq_refl)). reflexivity.
    + exact (proj1 (proj2 (proj2 (Hshown (or_introl eq_refl))))).
  - intros Hs. destruct (Hshown Hs) as (Ha & Hb & _ & Hc).
    repeat split; assumption.
  - exact Hthrown.
Qed.

(** The deadline has fired and the report request is rejected; or it is
    answered with an object that has a score and nothing else. *)
Lemma report_never_throws_witness :
  let w := step lastSecond Tick in
  let h := filter answered (qnaHistory (st lastSecond)) in
  let scoreOnly := Responds (Parsed (JObj [(lit "score", JNum 88)])) in
  (status (st (step w (Settle 0 Rejects))) = FINISHED
   /\ finalResult (st (step w (Settle 0 Rejects))) = errorReport ja)
  /\ mounted (step w (Settle 0 scoreOnly)) = false.
Proof.
  split.
  - destruct (report_never_throws
                (filter answered (qnaHistory (st lastSecond))) ja Rejects)
      as (r & Hg & _ & _ & H).
    injection Hg as <-.
    destruct (H (step lastSecond Tick) 0%nat eq_refl eq_refl)
      as (_ & Hs & _).
    destruct (Hs (or_intror eq_refl)) as (Ha & Hb & _).
    split; assumption.
  - destruct (report_never_throws
                (filter answered (qnaHistory (st lastSecond))) ja
                (Responds (Parsed (JObj [(lit "score", JNum 88)]))))
      as (r & Hg & _ & _ & H).
    injection Hg as <-.
    destruct (H (step lastSecond Tick) 0%nat eq_refl eq_refl)
      as (_ & _ & Ht).
    exact (proj1 (Ht eq_refl eq_refl)).
Defined.

(** ** Entering IDLE *)

(** C8, the claim at a concrete session: the user quits with two turns
    in the ledger; the status is IDLE and the ledger still holds them.
    And a start that fails enters IDLE with the error set. *)
Lemma quit_keeps_ledger :
  let quitted := run secondTurn [Quit] in
  let failed := run (initialWorld true true) [Start; Settle 0 Rejects] in
  allEnabled secondTurn [Quit] = true
  /\ status (st quitted) = IDLE
  /\ map id (qnaHistory (st quitted)) = [1; 2]
  /\ status (st failed) = IDLE
  /\ error (st failed) <> None.
Proof. vm_compute. repeat split; try reflexivity; discriminate. Qed.

(** Only a start and the settling of a call write the ledger, the
    report or the error. *)
Lemma step_keeps_results (w : World) (e : Event) :
  e <> Start -> (forall (i : nat) (u : Upstream), e <> Settle i u) ->
  qnaHistory (st (step w e)) = qnaHistory (st w)
  /\ finalResult (st (step w e)) = finalResult (st w)
  /\ error (st (step w e)) = error (st w).
Proof.
  intros HS HU. unfold step. destruct (mounted w); [|repeat split].
  rewrite render_qnaHistory, render_finalResult, render_error.
  destruct e as [| | | |i u|tx| | | | |l|m| |b];
    try (exfalso; apply HS; reflexivity);
    try (exfalso; exact (HU i u eq_refl));
    simpl; try (repeat split; reflexivity).
  - unfold submitAnswer. repeat break_if; repeat split; reflexivity.
  - unfold tick. destruct (timer w); [|repeat split; reflexivity].
    repeat break_if; repeat split; reflexivity.
  - break_if; repeat split; reflexivity.
  - break_if; repeat split; reflexivity.
Qed.

(** C8, as the code has it.  The ledger, the report and the error are
    reset by [startInterview], on the way to INITIALIZING.  Quitting
    enters IDLE and empties the transcript buffer, going back home
    enters IDLE, and both leave all three as they were; so does every
    event that is no start and no settling of a call: beside a start,
    the continuation of a call is all that writes them, also after a
    quit. *)
Theorem reset_happens_on_start (w : World) :
  mounted w = true ->
  (hasApiKey w = true ->
   status (st (step w Start)) = INITIALIZING
   /\ qnaHistory (st (step w Start)) = []
   /\ finalResult (st (step w Start)) = JNull
   /\ error (st (step w Start)) = None)
  /\ (status (st (step w Quit)) = IDLE
      /\ currentTranscript (st (step w Quit)) = []
      /\ qnaHistory (st (step w Quit)) = qnaHistory (st w)
      /\ finalResult (st (step w Quit)) = finalResult (st w)
      /\ error (st (step w Quit)) = error (st w))
  /\ (status (st (step w Home)) = IDLE
      /\ qnaHistory (st (step w Home)) = qnaHistory (st w)
      /\ finalResult (st (step w Home)) = finalResult (st w)
      /\ error (st (step w Home)) = error (st w))
  /\ (forall e : Event,
        e <> Start -> (forall (i : nat) (u : Upstream), e <> Settle i u) ->
        qnaHistory (st (dispatch w e)) = qnaHistory (st w)
        /\ finalResult (st (dispatch w e)) = finalResult (st w)
        /\ error (st (dispatch w e)) = error (st w)).
Proof.
  intros Hm. split; [|split; [|split]].
  - intros Hk. unfold step. rewrite Hm.
    rewrite render_status, render_qnaHistory, render_finalResult, render_error.
    simpl. unfold startInterview. rewrite Hk. repeat split; reflexivity.
  - destruct (quit_leaves_calls_in_flight w Hm) as (Hs & Hc & _).
    split; [exact Hs|]. split; [exact Hc|].
    apply step_keeps_results; discriminate.
  - split; [|apply step_keeps_results; discriminate].
    unfold step. rewrite Hm, render_status. reflexivity.
  - intros e HS HU. unfold dispatch.
    destruct (enabled w e); [|repeat split].
    apply step_keeps_results; assumption.
Qed.

(** Quit with two turns in the ledger, wait, then start again. *)
Lemma reset_happens_on_start_witness :
  let quitted := step secondTurn Quit in
  status (st quitted) = IDLE
  /\ List.length (qnaHistory (st quitted)) = 2%nat
  /\ List.length (qnaHistory (st (dispatch quitted Tick))) = 2%nat
  /\ status (st (step quitted Start)) = INITIALIZING
  /\ qnaHistory (st (step quitted Start)) = [].
Proof.
  destruct (reset_happens_on_start (step secondTurn Quit) eq_refl)
    as (Hstart & _ & _ & Hkeep).
  destruct (Hstart eq_refl) as (Hs & Hq & _).
  destruct (Hkeep Tick ltac:(discriminate) ltac:(discriminate)) as (Hl & _).
  split; [reflexivity|]. split; [reflexivity|].
  split; [rewrite Hl; reflexivity|]. split; assumption.
Defined.

(** ** Payloads of the exchange *)

(** C9, the claim at a concrete payload: upstream answers with the JSON
    text of an empty object.  Both calls return it; in [App] the
    session becomes active with a first question that is [undefined]. *)
Lemma shapeless_payload_accepted :
  let u := Responds (Parsed (JObj [])) in
  let w := run (initialWorld true true) [Start; Settle 0 u] in
  startSession u = Returns (JObj [])
  /\ sendAnswer true u = Returns (JObj [])
  /\ getProp (JObj []) (lit "nextQuestion") = Some Undefined
  /\ status (st w) = INTERVIEW_ACTIVE
  /\ map question (qnaHistory (st w)) = [Undefined].
Proof. vm_compute. repeat split; reflexivity. Qed.

(** C9, as the code has it.  For [startSession], and for [sendAnswer]
    once a chat session exists: a response without text and a text that
    is no JSON make the call fail; a text that parses is returned as
    parsed, whatever its shape, with nothing checked and nothing put in
    the place of a missing field. *)
Theorem payload_is_parsed_not_validated (u : Upstream) :
  (u = Responds NoText ->
   startSession u = Throws NoResponseFromAI
   /\ sendAnswer true u = Throws NoResponseFromAI)
  /\ (u = Responds BadJson ->
      startSession u = Throws SyntaxError
      /\ sendAnswer true u = Throws SyntaxError)
  /\ (forall v : json,
        u = Responds (Parsed v) ->
        startSession u = Returns v /\ sendAnswer true u = Returns v).
Proof.
  split; [|split].
  - intros ->. split; reflexivity.
  - intros ->. split; reflexivity.
  - intros v ->. split; reflexivity.
Qed.

(** No text, a text that is no JSON, and a well-formed turn. *)
Lemma payload_is_parsed_not_validated_witness :
  startSession (Responds NoText) = Throws NoResponseFromAI
  /\ sendAnswer true (Responds BadJson) = Throws SyntaxError
  /\ startSession (turnResponse "" "Tell me about yourself")
     = Returns (JObj [ (lit "evaluation", JStr []);
                       (lit "nextQuestion", JStr (lit "Tell me about yourself")) ]).
Proof.
  split; [|split].
  - exact (proj1 (proj1 (payload_is_parsed_not_validated _) eq_refl)).
  - exact (proj2 (proj1 (proj2 (payload_is_parsed_not_validated _)) eq_refl)).
  - exact (proj1 (proj2 (proj2 (payload_is_parsed_not_validated _)) _ eq_refl)).
Defined.

(** * Further properties *)

(** ** [formatTime] *)

Lemma str_eqb_eq (a b : jsstring) : str_eqb a b = true -> a = b.
Proof.
  unfold str_eqb. destruct (list_eq_dec N.eq_dec a b); [trivial|discriminate].
Qed.

Lemma padStart_below_60 (s : Z) :
  0 <= s < 60 -> padStart 2 48%N (toString s) = twoDigits s.
Proof.
  intros Hs.
  assert (Hall : forallb
                   (fun k => str_eqb (padStart 2 48%N (toString (Z.of_nat k)))
                               (twoDigits (Z.of_nat k)))
                   (seq 0 60) = true) by (vm_compute; reflexivity).
  rewrite forallb_forall in Hall.
  specialize (Hall (Z.to_nat s)).
  rewrite Z2Nat.id in Hall by lia.
  apply str_eqb_eq, Hall, in_seq. lia.
Qed.

Lemma lit_inj (a b : string) : lit a = lit b -> a = b.
Proof.
  unfold lit. intros H.
  rewrite <- (string_of_list_ascii_of_string a),
          <- (string_of_list_ascii_of_string b).
  f_equal. revert H.
  generalize (list_ascii_of_string a) (list_ascii_of_string b).
  induction l as [|x l IH]; intros [|y l'] H; try discriminate; [reflexivity|].
  simpl in H. injection H as Hx Hl.
  f_equal; [|apply IH, Hl].
  rewrite <- (ascii_N_embedding x), <- (ascii_N_embedding y), Hx. reflexivity.
Qed.

Lemma toString_inj (a b : Z) : toString a = toString b -> a = b.
Proof.
  unfold toString. intros H. apply lit_inj in H.
  apply DecimalZ.to_int_inj.
  assert (Hn : forall n, Z.to_int n <> Decimal.Pos Decimal.Nil
                         /\ Z.to_int n <> Decimal.Neg Decimal.Nil).
  { intros [|p|p]; simpl; split; try discriminate;
      intros [= E]; exact (DecimalPos.Unsigned.to_uint_nonnil p E). }
  pose proof (DecimalString.NilZero.isi _ (proj1 (Hn a)) (proj2 (Hn a))) as Ha.
  pose proof (DecimalString.NilZero.isi _ (proj1 (Hn b)) (proj2 (Hn b))) as Hb.
  rewrite H in Ha. congruence.
Qed.

Lemma formatTime_nonneg (seconds : Z) :
  0 <= seconds ->
  formatTime seconds
  = toString (seconds / 60) ++ lit ":" ++ twoDigits (seconds mod 60).
Proof.
  intros H. unfold formatTime.
  rewrite Z.rem_mod_nonneg by lia.
  rewrite padStart_below_60 by (apply Z.mod_pos_bound; lia). reflexivity.
Qed.

(** X1. For a remaining time that is not negative and at most
    [Number.MAX_SAFE_INTEGER], [formatTime] prints the minutes, a colon,
    and the seconds within the minute as exactly two digits: the text is
    three characters longer than the minutes. *)
Theorem formatTime_minutes_and_two_digits (seconds : Z) :
  0 <= seconds <= MAX_SAFE_INTEGER ->
  formatTime seconds
  = toString (seconds / 60) ++ lit ":" ++ twoDigits (seconds mod 60)
  /\ 0 <= seconds mod 60 < 60
  /\ List.length (formatTime seconds)
     = (List.length (toString (seconds / 60)) + 3)%nat.
Proof.
  intros [H _]. pose proof (formatTime_nonneg seconds H) as E.
  split; [exact E|]. split; [apply Z.mod_pos_bound; lia|].
  rewrite E, length_app. reflexivity.
Qed.

Lemma formatTime_minutes_and_two_digits_witness :
  formatTime 299 = lit "4:59" /\ formatTime 65 = lit "1:05"
  /\ formatTime 600 = lit "10:00" /\ formatTime 0 = lit "0:00".
Proof.
  pose proof (formatTime_minutes_and_two_digits 299
                ltac:(unfold MAX_SAFE_INTEGER; lia)) as [H1 _].
  pose proof (formatTime_minutes_and_two_digits 65
                ltac:(unfold MAX_SAFE_INTEGER; lia)) as [H2 _].
  pose proof (formatTime_minutes_and_two_digits 600
                ltac:(unfold MAX_SAFE_INTEGER; lia)) as [H3 _].
  pose proof (formatTime_minutes_and_two_digits 0
                ltac:(unfold MAX_SAFE_INTEGER; lia)) as [H4 _].
  rewrite H1, H2, H3, H4. repeat split; vm_compute; reflexivity.
Defined.

(** X2. Two remaining times that are not negative, at most
    [Number.MAX_SAFE_INTEGER], and differ are displayed differently. *)
Theorem formatTime_injective (a b : Z) :
  0 <= a <= MAX_SAFE_INTEGER -> 0 <= b <= MAX_SAFE_INTEGER ->
  formatTime a = formatTime b -> a = b.
Proof.
  intros [Ha _] [Hb _] H.
  pose proof (formatTime_nonneg a Ha) as Ea.
  pose proof (formatTime_nonneg b Hb) as Eb.
  pose proof (Z.mod_pos_bound a 60 ltac:(lia)) as Ra.
  pose proof (Z.mod_pos_bound b 60 ltac:(lia)) as Rb.
  rewrite Ea, Eb in H. unfold twoDigits in H.
  change (lit ":") with [58%N] in H.
  assert (Hsplit : forall (l : jsstring) (x y z : N),
            l ++ [x] ++ [y; z] = ((l ++ [x]) ++ [y]) ++ [z]).
  { intros. rewrite <- !app_assoc. reflexivity. }
  rewrite !Hsplit in H.
  apply app_inj_tail in H. destruct H as [H H0].
  apply app_inj_tail in H. destruct H as [H H1].
  apply app_inj_tail in H. destruct H as [H _].
  apply toString_inj in H.
  apply (f_equal Z.of_N) in H0, H1.
  rewrite !Z2N.id in H0, H1
    by (try apply Z.add_nonneg_nonneg; try apply Z.div_pos;
        try apply Z.mod_pos_bound; lia).
  assert (Hm : a mod 60 = b mod 60).
  { rewrite (Z.div_mod (a mod 60) 10), (Z.div_mod (b mod 60) 10) by lia. lia. }
  rewrite (Z.div_mod a 60), (Z.div_mod b 60) by lia. lia.
Qed.

Lemma formatTime_injective_witness : formatTime 61 <> formatTime 1.
Proof.
  intros H.
  pose proof (formatTime_injective 61 1
                ltac:(unfold MAX_SAFE_INTEGER; lia)
                ltac:(unfold MAX_SAFE_INTEGER; lia) H).
  discriminate.
Defined.

(** ** What every reachable world looks like *)

Lemma closeLast_oneOpenTurn (a : jsstring) (ev nq : jsval) (n : Z)
    (h : list InterviewQnA) :
  isEmpty (trim a) = false ->
  oneOpenTurn h = true ->
  oneOpenTurn (closeLast a ev h ++ [mkQnA n nq [] Undefined]) = true.
Proof.
  intros Ha. induction h as [|q r IH]; intros H; [reflexivity|].
  destruct r as [|q' r'].
  - simpl. unfold answered. simpl. rewrite Ha. reflexivity.
  - change (oneOpenTurn (q :: q' :: r'))
      with (answered q && oneOpenTurn (q' :: r')) in H.
    apply andb_prop in H. destruct H as [Hq Hr].
    change (closeLast a ev (q :: q' :: r'))
      with (q :: closeLast a ev (q' :: r')).
    specialize (IH Hr).
    destruct (closeLast a ev (q' :: r') ++ [mkQnA n nq [] Undefined])
      as [|x l] eqn:E.
    + destruct (closeLast a ev (q' :: r')); discriminate.
    + rewrite <- app_comm_cons, E.
      change (oneOpenTurn (q :: x :: l)) with (answered q && oneOpenTurn (x :: l)).
      rewrite Hq, IH. reflexivity.
Qed.

Lemma settle_inflight (p : Pending) (u : Upstream) (w : World) :
  inflight (settle p u w) = inflight w.
Proof.
  destruct p as [lang supported seen | a seen chat | h lang]; simpl.
  - unfold startInterview_settled, startFailed.
    destruct (startSession u); [|reflexivity].
    destruct (getProp a (lit "nextQuestion")); [|reflexivity].
    break_if; [reflexivity|]. destruct supported; reflexivity.
  - unfold submitAnswer_settled.
    destruct (sendAnswer chat u); [|reflexivity].
    destruct (getProp a0 (lit "evaluation")); [|reflexivity].
    destruct (getProp a0 (lit "nextQuestion")); [|reflexivity].
    break_if; reflexivity.
  - unfold finishInterview_settled.
    destruct (generateFinalReport h lang u); [|reflexivity].
    break_if; reflexivity.
Qed.

Lemma settle_chatSession (p : Pending) (u : Upstream) (w : World) :
  chatSession (settle p u w) = chatSession w.
Proof.
  destruct p as [lang supported seen | a seen chat | h lang]; simpl.
  - unfold startInterview_settled, startFailed.
    destruct (startSession u); [|reflexivity].
    destruct (getProp a (lit "nextQuestion")); [|reflexivity].
    break_if; [reflexivity|]. destruct supported; reflexivity.
  - unfold submitAnswer_settled.
    destruct (sendAnswer chat u); [|reflexivity].
    destruct (getProp a0 (lit "evaluation")); [|reflexivity].
    destruct (getProp a0 (lit "nextQuestion")); [|reflexivity].
    break_if; reflexivity.
  - unfold finishInterview_settled.
    destruct (generateFinalReport h lang u); [|reflexivity].
    break_if; reflexivity.
Qed.

Lemma settle_oneOpenTurn (p : Pending) (u : Upstream) (w : World) :
  submittedWell p = true ->
  oneOpenTurn (qnaHistory (st w)) = true ->
  oneOpenTurn (qnaHistory (st (settle p u w))) = true.
Proof.
  intros Hp H.
  destruct p as [lang supported seen | a seen chat | h lang]; simpl.
  - unfold startInterview_settled, startFailed.
    destruct (startSession u); [|exact H].
    destruct (getProp a (lit "nextQuestion")); [|exact H].
    break_if; [exact H|]. destruct supported; reflexivity.
  - unfold submitAnswer_settled.
    destruct (sendAnswer chat u); [|exact H].
    destruct (getProp a0 (lit "evaluation")); [|exact H].
    destruct (getProp a0 (lit "nextQuestion")); [|exact H].
    break_if; [exact H|].
    simpl. apply closeLast_oneOpenTurn; [|exact H].
    simpl in Hp. apply andb_prop in Hp. destruct Hp as [Hp _].
    apply negb_true_iff in Hp. exact Hp.
  - unfold finishInterview_settled.
    destruct (generateFinalReport h lang u); [|exact H].
    break_if; exact H.
Qed.

Lemma forallb_removeAt {A : Type} (f : A -> bool) (i : nat) (l : list A) :
  forallb f l = true -> forallb f (removeAt i l) = true.
Proof.
  intros H. unfold removeAt. rewrite forallb_app.
  rewrite forallb_forall in H.
  rewrite andb_true_iff, !forallb_forall. split; intros x Hx; apply H.
  - rewrite <- (firstn_skipn i l). apply in_or_app. left. exact Hx.
  - rewrite <- (firstn_skipn (S i) l). apply in_or_app. right. exact Hx.
Qed.

Lemma handle_oneOpenTurn (e : Event) (w : World) :
  forallb submittedWell (inflight w) = true ->
  oneOpenTurn (qnaHistory (st w)) = true ->
  oneOpenTurn (qnaHistory (st (handle e w))) = true.
Proof.
  intros Hp H. destruct e; simpl; try exact H.
  - unfold startInterview. destruct (negb (hasApiKey w)); [exact H|reflexivity].
  - unfold submitAnswer. repeat break_if; exact H.
  - unfold tick. destruct (timer w); [|exact H]. repeat break_if; exact H.
  - destruct (nth_error (inflight w) i) as [p|] eqn:Hi; [|exact H].
    apply settle_oneOpenTurn; [|exact H].
    rewrite forallb_forall in Hp. apply Hp.
    exact (nth_error_In _ _ Hi).
  - break_if; exact H.
  - break_if; exact H.
Qed.

Lemma handle_inflight_well (e : Event) (w : World) :
  (status (st w) = INTERVIEW_ACTIVE -> chatSession w = true) ->
  forallb submittedWell (inflight w) = true ->
  forallb submittedWell (inflight (handle e w)) = true.
Proof.
  intros Hc H. destruct e; simpl; try exact H.
  - unfold startInterview. destruct (negb (hasApiKey w)); [exact H|].
    simpl. rewrite forallb_app, H. reflexivity.
  - unfold submitAnswer.
    destruct (status_eqb (status (st w)) INTERVIEW_ACTIVE) eqn:Hs;
      [|exact H].
    simpl.
    destruct (isEmpty (trim (currentTranscript (st w)))) eqn:Ht; [exact H|].
    simpl. rewrite forallb_app, H. simpl.
    rewrite Ht, (Hc (proj1 (status_eqb_eq _ _) Hs)). reflexivity.
  - unfold tick. destruct (timer w); [|exact H].
    break_if; [|exact H].
    break_if; simpl; rewrite forallb_app, H; reflexivity.
  - destruct (nth_error (inflight w) i); [|exact H].
    rewrite settle_inflight. simpl. apply forallb_removeAt, H.
  - break_if; exact H.
  - break_if; exact H.
Qed.

Lemma handle_chatSession (e : Event) (w : World) :
  chatSession (handle e w) = false -> chatSession w = false.
Proof.
  destruct e; simpl; try (intros H; exact H).
  - unfold startInterview. destruct (negb (hasApiKey w)); [trivial|discriminate].
  - unfold submitAnswer. repeat break_if; trivial.
  - unfold tick. destruct (timer w); [|trivial]. repeat break_if; trivial.
  - destruct (nth_error (inflight w) i); [|trivial].
    rewrite settle_chatSession. trivial.
  - break_if; trivial.
  - break_if; trivial.
Qed.

(** With no chat session yet the component sits at IDLE with nothing in
    flight, and no handler moves it. *)
Lemma handle_before_chat (e : Event) (w : World) :
  timer w = None ->
  status (st w) = IDLE -> inflight w = [] ->
  chatSession (handle e w) = false ->
  status (st (handle e w)) = IDLE /\ inflight (handle e w) = [].
Proof.
  intros Ht Hs Hi. destruct e; simpl; try (intros _; split; assumption).
  - unfold startInterview. destruct (negb (hasApiKey w));
      [intros _; split; assumption|discriminate].
  - intros _. split; [reflexivity|exact Hi].
  - unfold submitAnswer. rewrite Hs. simpl. intros _; split; assumption.
  - unfold tick. rewrite Ht. intros _; split; assumption.
  - rewrite Hi. destruct i; simpl; intros _; split; assumption.
  - break_if; intros _; split; assumption.
  - break_if; intros _; split; assumption.
  - intros _. split; [reflexivity|exact Hi].
Qed.

Lemma settle_buffer (p : Pending) (u : Upstream) (w : World) :
  currentTranscript (st w) = text (sp w) ->
  status (st (settle p u w)) = INTERVIEW_ACTIVE ->
  text (sp (settle p u w)) = text (sp w) ->
  currentTranscript (st (settle p u w)) = text (sp (settle p u w)).
Proof.
  intros Hb Ha Ht.
  destruct p as [lang supported seen | a seen chat | h lang]; simpl in *.
  - unfold startInterview_settled, startFailed in *.
    destruct (startSession u); [|discriminate].
    destruct (getProp a (lit "nextQuestion")); [|discriminate].
    destruct (negb (ledgerRenders [mkQnA 1 j [] Undefined]));
      [simpl in *; congruence|].
    destruct supported; simpl in *; congruence.
  - unfold submitAnswer_settled in *.
    destruct (sendAnswer chat u).
    + destruct (getProp a0 (lit "evaluation")); [|simpl in *; congruence].
      destruct (getProp a0 (lit "nextQuestion")); [|simpl in *; congruence].
      destruct (negb (ledgerRenders (qnaHistory (recordTurn a j j0 (st w)))));
        [simpl in *; congruence|].
      simpl in *. unfold startListening, resetText in *. simpl in *.
      repeat break_if; reflexivity.
    + simpl in *. congruence.
  - unfold finishInterview_settled in *.
    destruct (generateFinalReport h lang u); [|discriminate].
    destruct (truthy a && negb (reportRenders a)); [|discriminate].
    simpl in *. congruence.
Qed.

(** A handler that ends in INTERVIEW_ACTIVE without having changed the
    status or the hook's text leaves the buffer equal to that text. *)
Lemma handle_buffer (e : Event) (w : World) :
  currentTranscript (st w) = text (sp w) ->
  status (st (handle e w)) = INTERVIEW_ACTIVE ->
  status (st (handle e w)) = status (st w) ->
  text (sp (handle e w)) = text (sp w) ->
  currentTranscript (st (handle e w)) = text (sp (handle e w)).
Proof.
  intros Hb Ha Hs Ht. destruct e; simpl in *; try congruence.
  - unfold startInterview in *. destruct (negb (hasApiKey w)); simpl in *;
      congruence.
  - unfold submitAnswer in *. repeat break_if; simpl in *; congruence.
  - unfold tick in *. destruct (timer w); [|congruence].
    revert Ha Hs Ht. repeat break_if; simpl; intros; congruence.
  - destruct (nth_error (inflight w) i); [|congruence].
    apply settle_buffer; assumption.
  - break_if; simpl in *; congruence.
  - break_if; simpl in *; congruence.
Qed.

Lemma render_currentTranscript (before after : World) :
  mounted after = true ->
  currentTranscript (st (render before after))
  = if str_eqb (text (sp before)) (text (sp after))
       && status_eqb (status (st before)) (status (st after))
    then currentTranscript (st after)
    else if status_eqb (status (st after)) INTERVIEW_ACTIVE
         then text (sp after) else currentTranscript (st after).
Proof.
  intros Hm. unfold render, timerEffect, syncTranscript. rewrite Hm.
  repeat break_if; reflexivity.
Qed.

Lemma render_timer_cases (before after : World) (c : TimerClosure) :
  timer (render before after) = Some c ->
  timer after = Some c
  \/ (seenHistory c = qnaHistory (st after)).
Proof.
  unfold render, timerEffect, syncTranscript.
  repeat break_if; simpl; intros H; try (left; exact H); try discriminate;
    right; injection H as <-; reflexivity.
Qed.

(** A continuation that unmounts the tree leaves state and hook as they
    were. *)
Lemma settle_unmounted (p : Pending) (u : Upstream) (w : World) :
  mounted w = true -> mounted (settle p u w) = false ->
  st (settle p u w) = st w /\ sp (settle p u w) = sp w.
Proof.
  intros Hm.
  destruct p as [lang supported seen | a seen chat | h lang]; simpl.
  - unfold startInterview_settled, startFailed.
    destruct (startSession u); [|simpl; congruence].
    destruct (getProp a (lit "nextQuestion")); [|simpl; congruence].
    break_if; [split; reflexivity|].
    destruct supported; simpl; congruence.
  - unfold submitAnswer_settled.
    destruct (sendAnswer chat u); [|simpl; congruence].
    destruct (getProp a0 (lit "evaluation")); [|split; reflexivity].
    destruct (getProp a0 (lit "nextQuestion")); [|split; reflexivity].
    break_if; [split; reflexivity|]. simpl; congruence.
  - unfold finishInterview_settled.
    destruct (generateFinalReport h lang u); [|simpl; congruence].
    break_if; [split; reflexivity|]. simpl; congruence.
Qed.

Lemma handle_unmounted (e : Event) (w : World) :
  mounted w = true -> mounted (handle e w) = false ->
  st (handle e w) = st w /\ sp (handle e w) = sp w.
Proof.
  intros Hm. destruct e; simpl; try congruence.
  - unfold startInterview. break_if; simpl; congruence.
  - unfold submitAnswer. repeat break_if; simpl; congruence.
  - unfold tick. destruct (timer w); [|congruence].
    repeat break_if; simpl; congruence.
  - destruct (nth_error (inflight w) i); [|congruence].
    intros H.
    exact (settle_unmounted p u (set_inflight (removeAt i (inflight w)) w)
             Hm H).
  - break_if; simpl; congruence.
  - break_if; simpl; congruence.
Qed.

Lemma step_Coherent (w : World) (e : Event) :
  Inv w -> Coherent w -> Coherent (step w e).
Proof.
  intros HI HC. unfold step. destruct (mounted w) eqn:Hm; [|exact HC].
  assert (Hchat : status (st w) = INTERVIEW_ACTIVE -> chatSession w = true).
  { intros Hs. destruct (chatSession w) eqn:Hc; [reflexivity|].
    destruct (coh_chat _ HC Hc) as [Hi _]. congruence. }
  assert (Hled : oneOpenTurn (qnaHistory (st (handle e w))) = true)
    by (apply handle_oneOpenTurn; [apply (coh_inflight _ HC)|apply (coh_ledger _ HC)]).
  assert (Hnum : numbered (qnaHistory (st (handle e w))))
    by (apply handle_numbered, (coh_numbered _ HC)).
  constructor.
  - rewrite render_qnaHistory. exact Hled.
  - rewrite render_qnaHistory. exact Hnum.
  - intros c Hc. apply render_timer_cases in Hc. destruct Hc as [Hc | Hc].
    + destruct (handle_timer e w Hm) as [[Ht _] | [Ht _]];
        [|congruence].
      apply (coh_seen _ HC). congruence.
    + rewrite Hc. split; assumption.
  - rewrite render_inflight.
    apply handle_inflight_well; [exact Hchat|apply (coh_inflight _ HC)].
  - intros Hc.
    assert (Hc' : chatSession (handle e w) = false).
    { revert Hc. unfold render, timerEffect, syncTranscript.
      repeat break_if; trivial. }
    pose proof (handle_chatSession e w Hc') as Hw.
    destruct (coh_chat _ HC Hw) as [Hs Hi].
    rewrite render_status, render_inflight.
    apply handle_before_chat; try assumption.
    pose proof (inv_timer _ HI) as Ht. rewrite Hs in Ht. simpl in Ht.
    rewrite andb_false_r in Ht. unfold timerArmed in Ht.
    destruct (timer w); [discriminate|reflexivity].
  - rewrite render_status, render_sp. intros Ha.
    destruct (mounted (handle e w)) eqn:Hm'.
    + rewrite (render_currentTranscript _ _ Hm').
      destruct (str_eqb (text (sp w)) (text (sp (handle e w)))
                && status_eqb (status (st w)) (status (st (handle e w))))
        eqn:Hdeps.
      * apply andb_prop in Hdeps. destruct Hdeps as [Ht Hs].
        apply str_eqb_eq in Ht. apply status_eqb_eq in Hs.
        apply handle_buffer; try congruence.
        apply (coh_buffer _ HC). congruence.
      * rewrite Ha. reflexivity.
    + (* the render threw: state and hook are as before the event *)
      assert (Hsame : st (render w (handle e w)) = st (handle e w))
        by (unfold render; rewrite Hm'; reflexivity).
      rewrite Hsame.
      destruct (handle_unmounted e w Hm Hm') as [Hst Hsp].
      rewrite Hst, Hsp in *. apply (coh_buffer _ HC). exact Ha.
Qed.

(** *** What the views are given to show *)

Lemma settle_Shown (p : Pending) (u : Upstream) (w : World) :
  Shown (st w) -> Shown (st (settle p u w)).
Proof.
  intros [Hl Hr].
  destruct p as [lang supported seen | a seen chat | h lang]; simpl.
  - unfold startInterview_settled, startFailed.
    destruct (startSession u); [|split; assumption].
    destruct (getProp a (lit "nextQuestion")); [|split; assumption].
    destruct (negb (ledgerRenders [mkQnA 1 j [] Undefined])) eqn:E;
      [split; assumption|].
    apply negb_false_iff in E.
    destruct supported; split; simpl; assumption.
  - unfold submitAnswer_settled.
    destruct (sendAnswer chat u); [|split; assumption].
    destruct (getProp a0 (lit "evaluation")); [|split; assumption].
    destruct (getProp a0 (lit "nextQuestion")); [|split; assumption].
    destruct (negb (ledgerRenders (qnaHistory (recordTurn a j j0 (st w)))))
      eqn:E; [split; assumption|].
    apply negb_false_iff in E. split; [exact E|exact Hr].
  - unfold finishInterview_settled.
    destruct (generateFinalReport h lang u); [|split; assumption].
    destruct (truthy a && negb (reportRenders a)) eqn:E;
      [split; assumption|].
    split; [exact Hl|]. simpl. intros Ht. rewrite Ht in E. simpl in E.
    apply negb_false_iff in E. exact E.
Qed.

Lemma handle_Shown (e : Event) (w : World) :
  Shown (st w) -> Shown (st (handle e w)).
Proof.
  intros H. destruct e; simpl; try exact H.
  - unfold startInterview. break_if; [exact H|].
    split; [reflexivity|discriminate].
  - unfold submitAnswer. repeat break_if; exact H.
  - unfold tick. destruct (timer w); [|exact H]. repeat break_if; exact H.
  - destruct (nth_error (inflight w) i); [|exact H].
    apply settle_Shown. exact H.
  - break_if; exact H.
  - break_if; exact H.
Qed.

Lemma step_Shown (w : World) (e : Event) :
  Shown (st w) -> Shown (st (step w e)).
Proof.
  intros H. unfold step, Shown. destruct (mounted w); [|exact H].
  rewrite render_qnaHistory, render_finalResult. apply handle_Shown, H.
Qed.

Lemma run_Shown (es : list Event) :
  forall w : World, Shown (st w) -> Shown (st (run w es)).
Proof.
  induction es as [|e es IH]; intros w H; [exact H|].
  simpl. apply IH. unfold dispatch.
  destruct (enabled w e); [apply step_Shown, H|exact H].
Qed.

(** In every world the events can lead to, the component renders on the
    state: the continuations that write the ledger or the report have
    unmounted the tree wherever a view would have thrown. *)
Lemma reachable_view_renders (supported apiKey : bool) (es : list Event) :
  viewRenders (st (run (initialWorld supported apiKey) es)) = true.
Proof.
  destruct (run_Shown es (initialWorld supported apiKey)) as [Hl Hr].
  { split; [reflexivity|discriminate]. }
  unfold viewRenders, view.
  destruct (status (st (run (initialWorld supported apiKey) es)));
    try reflexivity; try exact Hl.
  destruct (truthy (finalResult (st (run (initialWorld supported apiKey) es))))
    eqn:Ht; [exact (Hr eq_refl)|exact Hl].
Qed.

Lemma dispatch_Coherent (w : World) (e : Event) :
  Inv w -> Coherent w -> Coherent (dispatch w e).
Proof.
  intros HI HC. unfold dispatch. destruct (enabled w e); [|exact HC].
  apply step_Coherent; assumption.
Qed.

Lemma initial_Coherent (supported apiKey : bool) :
  Coherent (initialWorld supported apiKey).
Proof.
  constructor; simpl; try reflexivity; try discriminate.
  intros _. split; reflexivity.
Qed.

Lemma run_Coherent (w : World) (es : list Event) :
  Inv w -> Coherent w -> Coherent (run w es).
Proof.
  revert w. induction es as [|e es IH]; intros w HI HC; [exact HC|].
  simpl. apply IH; [apply dispatch_Inv, HI|apply dispatch_Coherent; assumption].
Qed.

Lemma reachable_Coherent (supported apiKey : bool) (es : list Event) :
  Inv (run (initialWorld supported apiKey) es)
  /\ Coherent (run (initialWorld supported apiKey) es).
Proof.
  split; [apply run_Inv, initial_Inv|].
  apply run_Coherent; [apply initial_Inv|apply initial_Coherent].
Qed.

(** ** The shape of the ledger *)

Lemma oneOpenTurn_spec (h : list InterviewQnA) :
  oneOpenTurn h = true ->
  h = []
  \/ exists (closed : list InterviewQnA) (open : InterviewQnA),
       h = closed ++ [open]
       /\ answer open = []
       /\ Forall (fun q => trim (answer q) <> []) closed.
Proof.
  induction h as [|q r IH]; intros H; [left; reflexivity|right].
  destruct r as [|q' r'].
  - exists [], q. simpl in H. destruct (answer q); [|discriminate].
    repeat split. constructor.
  - change (oneOpenTurn (q :: q' :: r'))
      with (answered q && oneOpenTurn (q' :: r')) in H.
    apply andb_prop in H. destruct H as [Hq Hr].
    destruct (IH Hr) as [E | (closed & open & E & Ho & Hc)]; [discriminate|].
    exists (q :: closed), open. rewrite E. repeat split; [exact Ho|].
    constructor; [apply answered_spec, Hq|exact Hc].
Qed.

Lemma oneOpenTurn_filter (h : list InterviewQnA) :
  oneOpenTurn h = true -> filter answered h = removelast h.
Proof.
  induction h as [|q r IH]; intros H; [reflexivity|].
  destruct r as [|q' r'].
  - simpl in H. simpl. unfold answered. destruct (answer q); [|discriminate].
    reflexivity.
  - change (oneOpenTurn (q :: q' :: r'))
      with (answered q && oneOpenTurn (q' :: r')) in H.
    apply andb_prop in H. destruct H as [Hq Hr].
    change (removelast (q :: q' :: r')) with (q :: removelast (q' :: r')).
    rewrite <- (IH Hr). simpl. rewrite Hq. reflexivity.
Qed.

Lemma removelast_numbered_from (h : list InterviewQnA) :
  forall s : nat,
    map id h = map Z.of_nat (seq s (List.length h)) ->
    map id (removelast h)
    = map Z.of_nat (seq s (List.length (removelast h))).
Proof.
  induction h as [|q r IH]; intros s H; [reflexivity|].
  destruct r as [|q' r']; [reflexivity|].
  change (removelast (q :: q' :: r')) with (q :: removelast (q' :: r')).
  remember (q' :: r') as r eqn:Er.
  simpl in H. injection H as Hq Hr.
  simpl. f_equal; [exact Hq|]. apply (IH (S s)). exact Hr.
Qed.

(** X3. In every world the events can lead to, the ledger is empty, or
    it is a run of turns with a non-blank answer followed by exactly one
    open turn, whose answer is empty; this holds in every status, the
    terminal ones included. *)
Theorem ledger_has_one_open_turn (supported apiKey : bool) (es : list Event) :
  let h := qnaHistory (st (run (initialWorld supported apiKey) es)) in
  h = []
  \/ exists (closed : list InterviewQnA) (open : InterviewQnA),
       h = closed ++ [open]
       /\ answer open = []
       /\ Forall (fun q => trim (answer q) <> []) closed.
Proof.
  intros h. apply oneOpenTurn_spec.
  apply (coh_ledger _ (proj2 (reachable_Coherent supported apiKey es))).
Qed.

(** X4. When the deadline fires, the history handed to
    [generateFinalReport] is the ledger seen by the interval's callback
    without its last turn, and its turns carry the ids 1, 2, ... in
    order. *)
Theorem report_history_drops_last_turn (supported apiKey : bool)
    (es : list Event) (c : TimerClosure) :
  let w := run (initialWorld supported apiKey) es in
  timer w = Some c ->
  timeLeftSeconds (st w) <= 1 ->
  inflight (dispatch w Tick)
  = inflight w
    ++ [AwaitFinalReport (removelast (seenHistory c)) (seenLanguage c)]
  /\ numbered (removelast (seenHistory c)).
Proof.
  intros w Ht Hl.
  destruct (reachable_Coherent supported apiKey es) as [HI HC].
  fold w in HI, HC.
  destruct (coh_seen _ HC c Ht) as [Hshape Hnum].
  assert (Hen : enabled w Tick = true).
  { rewrite (enabled_Tick w HI), <- (inv_timer _ HI).
    unfold timerArmed. rewrite Ht. reflexivity. }
  assert (Hm : mounted w = true).
  { unfold enabled in Hen. apply andb_prop in Hen. exact (proj1 Hen). }
  split.
  - unfold dispatch. rewrite Hen. unfold step. rewrite Hm, render_inflight.
    simpl. unfold tick. rewrite Ht.
    replace (timeLeftSeconds (st w) <=? 1) with true
      by (symmetry; apply Z.leb_le; exact Hl).
    destruct (eager w); simpl; rewrite (oneOpenTurn_filter _ Hshape);
      reflexivity.
  - apply (removelast_numbered_from _ 1%nat). exact Hnum.
Qed.

Lemma report_history_drops_last_turn_witness :
  exists h : list InterviewQnA,
    inflight (dispatch (run (initialWorld true true) lastSecondEvents) Tick)
    = [AwaitFinalReport h ja]
    /\ map id h = [1]
    /\ map id (qnaHistory (st lastSecond)) = [1; 2].
Proof.
  assert (Ht : timer (run (initialWorld true true) lastSecondEvents)
               = Some (mkClosure (qnaHistory (st lastSecond)) ja false))
    by (vm_compute; reflexivity).
  assert (Hl : timeLeftSeconds
                 (st (run (initialWorld true true) lastSecondEvents)) <= 1)
    by (vm_compute; discriminate).
  destruct (report_history_drops_last_turn true true lastSecondEvents _ Ht Hl)
    as [Hi _].
  replace (inflight (run (initialWorld true true) lastSecondEvents))
    with (@nil Pending) in Hi by (vm_compute; reflexivity).
  eexists. split; [exact Hi|]. split; reflexivity.
Defined.

(** X5. Through the user interface [sendAnswer] is never called before
    [startSession]: every [sendAnswer] call in flight was made with a
    chat session and a non-blank answer, so its "Session not started"
    error cannot occur; and whenever the status is INTERVIEW_ACTIVE a
    chat session exists. *)
Theorem answers_follow_a_started_session (supported apiKey : bool)
    (es : list Event) :
  let w := run (initialWorld supported apiKey) es in
  (forall (a : jsstring) (seen chat : bool),
      In (AwaitSendAnswer a seen chat) (inflight w) ->
      chat = true /\ trim a <> []
      /\ forall u : Upstream, sendAnswer chat u <> Throws SessionNotStarted)
  /\ (status (st w) = INTERVIEW_ACTIVE -> chatSession w = true).
Proof.
  intros w.
  destruct (reachable_Coherent supported apiKey es) as [HI HC].
  fold w in HI, HC. split.
  - intros a seen chat Hin.
    pose proof (coh_inflight _ HC) as Hall.
    rewrite forallb_forall in Hall. specialize (Hall _ Hin). simpl in Hall.
    apply andb_prop in Hall. destruct Hall as [Ha Hc]. subst chat.
    split; [reflexivity|]. split.
    + destruct (trim a); [discriminate|discriminate].
    + intros [|[| |v]]; discriminate.
  - intros Hs. destruct (chatSession w) eqn:Hc; [reflexivity|].
    destruct (coh_chat _ HC Hc) as [Hi _]. congruence.
Qed.

(** X6. In every world the events can lead to, while the status is
    INTERVIEW_ACTIVE the transcript buffer is the text accumulated by
    the speech hook; so the answer a submission sends is that text, as
    it is, untrimmed. *)
Theorem buffer_mirrors_speech_text (supported apiKey : bool)
    (es : list Event) :
  let w := run (initialWorld supported apiKey) es in
  status (st w) = INTERVIEW_ACTIVE ->
  currentTranscript (st w) = text (sp w)
  /\ (mounted w = true -> trim (text (sp w)) <> [] ->
      inflight (dispatch w Submit)
      = inflight w
        ++ [AwaitSendAnswer (text (sp w)) (isListening (sp w)) true]).
Proof.
  intros w Hs.
  destruct (reachable_Coherent supported apiKey es) as [HI HC].
  fold w in HI, HC.
  pose proof (coh_buffer _ HC Hs) as Hb. split; [exact Hb|].
  intros Hm Ht.
  assert (Hc : chatSession w = true).
  { destruct (chatSession w) eqn:Hc; [reflexivity|].
    destruct (coh_chat _ HC Hc) as [Hi _]. congruence. }
  assert (Hne : isEmpty (trim (currentTranscript (st w))) = false)
    by (rewrite Hb; destruct (trim (text (sp w))); [contradiction|reflexivity]).
  assert (He : enabled w Submit = true).
  { unfold enabled, view. rewrite Hm, Hs, Hne. reflexivity. }
  unfold dispatch. rewrite He.
  unfold step. rewrite Hm, render_inflight. simpl. unfold submitAnswer.
  rewrite Hs, Hne. simpl. rewrite Hb, Hc. reflexivity.
Qed.

Lemma buffer_mirrors_speech_text_witness :
  let w := run (initialWorld true true) answeringEvents in
  currentTranscript (st w) = lit "I am an engineer."
  /\ text (sp w) = lit "I am an engineer."
  /\ inflight (dispatch w Submit)
     = [AwaitSendAnswer (lit "I am an engineer.") true true].
Proof.
  assert (Hs : status (st (run (initialWorld true true) answeringEvents))
               = INTERVIEW_ACTIVE) by (vm_compute; reflexivity).
  destruct (buffer_mirrors_speech_text true true answeringEvents Hs)
    as [Hb Hsub].
  assert (Hm : mounted (run (initialWorld true true) answeringEvents) = true)
    by (vm_compute; reflexivity).
  assert (Ht : trim (text (sp (run (initialWorld true true) answeringEvents)))
               <> []) by (vm_compute; discriminate).
  specialize (Hsub Hm Ht).
  replace (text (sp (run (initialWorld true true) answeringEvents)))
    with (lit "I am an engineer.") in Hb, Hsub by (vm_compute; reflexivity).
  replace (inflight (run (initialWorld true true) answeringEvents))
    with (@nil Pending) in Hsub by (vm_compute; reflexivity).
  replace (isListening (sp (run (initialWorld true true) answeringEvents)))
    with true in Hsub by (vm_compute; reflexivity).
  split; [exact Hb|]. split; [reflexivity|exact Hsub].
Defined.

(** ** The prompt of the final report *)

Lemma transcriptEntries_by_id (h : list InterviewQnA) :
  forall k : nat,
    map id h = map Z.of_nat (seq (S k) (List.length h)) ->
    transcriptEntries k h = map transcriptEntryOf h.
Proof.
  induction h as [|q r IH]; intros k H; [reflexivity|].
  simpl in H. injection H as Hq Hr.
  simpl. rewrite (IH (S k) Hr). f_equal.
  unfold transcriptEntry, transcriptEntryOf.
  replace (Z.of_nat k + 1) with (id q)
    by (rewrite Hq; rewrite Zpos_P_of_succ_nat; lia).
  reflexivity.
Qed.

(** X7. In the prompt built when the deadline fires, the answered turns
    of the ledger appear in ledger order, each under its own sequence
    number: the label [Qi]/[Ai] that [generateFinalReport] derives from
    the position is the turn's [id]. *)
Theorem prompt_labels_are_turn_ids (supported apiKey : bool)
    (es : list Event) (c : TimerClosure) :
  let w := run (initialWorld supported apiKey) es in
  timer w = Some c ->
  let validHistory := filter answered (seenHistory c) in
  transcriptText validHistory
  = joinWith (newline ++ newline) (map transcriptEntryOf validHistory).
Proof.
  intros w Ht validHistory.
  destruct (reachable_Coherent supported apiKey es) as [_ HC].
  fold w in HC. destruct (coh_seen _ HC c Ht) as [Hshape Hnum].
  unfold transcriptText. f_equal.
  apply transcriptEntries_by_id. unfold validHistory.
  rewrite (oneOpenTurn_filter _ Hshape).
  apply removelast_numbered_from. exact Hnum.
Qed.

Lemma prompt_labels_are_turn_ids_witness :
  transcriptText (filter answered (qnaHistory (st lastSecond)))
  = lit "Q1: Tell me about yourself" ++ newline
    ++ lit "A1: I am an engineer." ++ newline
    ++ lit "(Eval: Good clarity.)".
Proof.
  assert (Ht : timer (run (initialWorld true true) lastSecondEvents)
               = Some (mkClosure (qnaHistory (st lastSecond)) ja false))
    by (vm_compute; reflexivity).
  pose proof (prompt_labels_are_turn_ids true true lastSecondEvents _ Ht) as H.
  etransitivity; [exact H|]. vm_compute. reflexivity.
Defined.

(** ** Submitting an answer *)

Lemma render_timer_cleared (before after : World) :
  mounted after = true ->
  status (st before) <> status (st after) ->
  status (st after) <> INTERVIEW_ACTIVE ->
  timer (render before after) = None.
Proof.
  intros Hm Hch Hna. unfold render, timerEffect. rewrite Hm.
  destruct (status_eqb (status (st before)) (status (st after))) eqn:E;
    [apply status_eqb_eq in E; contradiction|].
  destruct (status_eqb (status (st after)) INTERVIEW_ACTIVE) eqn:E';
    [apply status_eqb_eq in E'; contradiction|].
  reflexivity.
Qed.

Lemma unarmed_tick_noop (w : World) : timer w = None -> step w Tick = w.
Proof.
  intros Ht. unfold step. simpl. unfold tick. rewrite Ht.
  rewrite render_same. destruct (mounted w); reflexivity.
Qed.

Lemma inactive_submit_noop (w : World) :
  status (st w) <> INTERVIEW_ACTIVE -> step w Submit = w.
Proof.
  intros Hs. unfold step. simpl. unfold submitAnswer.
  destruct (status_eqb (status (st w)) INTERVIEW_ACTIVE) eqn:E;
    [apply status_eqb_eq in E; contradiction|].
  simpl. rewrite render_same. destruct (mounted w); reflexivity.
Qed.

(** What the click on the submit button does when the guard passes. *)
Lemma submitAnswer_accepted (w : World) :
  mounted w = true ->
  status (st w) = INTERVIEW_ACTIVE ->
  trim (currentTranscript (st w)) <> [] ->
  handle Submit w
  = issue (AwaitSendAnswer (currentTranscript (st w)) (isListening (sp w))
             (chatSession w))
      (setState (set_status PROCESSING_ANSWER)
         (set_sp (stopListening (isListening (sp w)) (sp w)) w))
  /\ mounted (step w Submit) = true
  /\ sp (step w Submit) = stopListening (isListening (sp w)) (sp w)
  /\ qnaHistory (st (step w Submit)) = qnaHistory (st w)
  /\ inflight (step w Submit)
     = inflight w
       ++ [AwaitSendAnswer (currentTranscript (st w)) (isListening (sp w))
             (chatSession w)].
Proof.
  intros Hm Hs Ht.
  assert (Hne : isEmpty (trim (currentTranscript (st w))) = false)
    by (destruct (trim (currentTranscript (st w))); [contradiction|reflexivity]).
  assert (Hh : handle Submit w
               = issue (AwaitSendAnswer (currentTranscript (st w))
                          (isListening (sp w)) (chatSession w))
                   (setState (set_status PROCESSING_ANSWER)
                      (set_sp (stopListening (isListening (sp w)) (sp w)) w))).
  { simpl. unfold submitAnswer. rewrite Hs, Hne. reflexivity. }
  split; [exact Hh|]. unfold step. rewrite Hm.
  rewrite render_mounted, render_sp, render_qnaHistory, render_inflight, Hh.
  repeat split; try reflexivity. exact Hm.
Qed.

(** X8. A submission that passes the guard (status INTERVIEW_ACTIVE,
    buffer not blank) moves to PROCESSING_ANSWER with exactly one
    [sendAnswer] call added, carrying the buffer untrimmed; the ledger,
    the buffer and the remaining time are untouched, the interval is
    cleared and the listening flag is off; and until the call settles a
    tick or a second submission changes nothing. *)
Theorem accepted_submit_stops_timer_and_capture (w : World) :
  mounted w = true ->
  status (st w) = INTERVIEW_ACTIVE ->
  trim (currentTranscript (st w)) <> [] ->
  let w' := step w Submit in
  status (st w') = PROCESSING_ANSWER
  /\ inflight w'
     = inflight w
       ++ [AwaitSendAnswer (currentTranscript (st w)) (isListening (sp w))
             (chatSession w)]
  /\ qnaHistory (st w') = qnaHistory (st w)
  /\ currentTranscript (st w') = currentTranscript (st w)
  /\ timeLeftSeconds (st w') = timeLeftSeconds (st w)
  /\ timer w' = None
  /\ (isSupported (sp w) = true -> isListening (sp w') = false)
  /\ step w' Tick = w'
  /\ step w' Submit = w'.
Proof.
  intros Hm Hs Ht w'.
  destruct (submitAnswer_accepted w Hm Hs Ht) as (Hh & Hm' & Hsp & Hq & Hi).
  fold w' in Hm', Hsp, Hq, Hi.
  assert (H1 : status (st w') = PROCESSING_ANSWER)
    by (unfold w', step; rewrite Hm, render_status, Hh; reflexivity).
  assert (H6 : timer w' = None).
  { unfold w', step. rewrite Hm, Hh.
    apply render_timer_cleared; simpl; [exact Hm| |discriminate].
    rewrite Hs. discriminate. }
  split; [exact H1|]. split; [exact Hi|]. split; [exact Hq|].
  split.
  { unfold w', step. rewrite Hm, Hh, render_currentTranscript by exact Hm.
    simpl. rewrite Hs. simpl. rewrite andb_false_r. reflexivity. }
  split; [unfold w', step; rewrite Hm, render_timeLeftSeconds, Hh; reflexivity|].
  split; [exact H6|].
  split.
  { intros Hsup. rewrite Hsp. unfold stopListening. rewrite Hsup.
    destruct (isListening (sp w)) eqn:E; simpl; [reflexivity|exact E]. }
  split; [apply unarmed_tick_noop, H6|].
  apply inactive_submit_noop. rewrite H1. discriminate.
Qed.

Lemma accepted_submit_stops_timer_and_capture_witness :
  status (st (step answering Submit)) = PROCESSING_ANSWER
  /\ timer answering <> None
  /\ timer (step answering Submit) = None
  /\ isListening (sp (step answering Submit)) = false
  /\ step (step answering Submit) Tick = step answering Submit.
Proof.
  destruct (accepted_submit_stops_timer_and_capture answering
              eq_refl eq_refl ltac:(vm_compute; discriminate))
    as (H1 & _ & _ & _ & _ & H6 & H7 & H8 & _).
  split; [exact H1|]. split; [vm_compute; discriminate|].
  split; [exact H6|]. split; [exact (H7 eq_refl)|exact H8].
Defined.

(** X9. The next turn does not bring the microphone back.  When an
    answer was submitted while the recognizer was listening and the
    exchange answers with an object whose evaluation and next question
    the interview view can show (neither is an object, nor an array that
    holds one), the session is back at INTERVIEW_ACTIVE with an empty
    buffer and the new turn appended, but the hook is still not
    listening: the [startListening] called after the [await] is the one
    of the render of the click, whose [isListening] is [true].  When the
    microphone was paused at the click and the recognizer has ended, the
    same call does start it. *)
Theorem next_turn_leaves_capture_off (w : World)
    (fields : list (jsstring * json)) :
  mounted w = true ->
  status (st w) = INTERVIEW_ACTIVE ->
  trim (currentTranscript (st w)) <> [] ->
  chatSession w = true ->
  isSupported (sp w) = true ->
  ledgerRenders (qnaHistory (st w)) = true ->
  childRenders (lookup (lit "evaluation") fields) = true ->
  childRenders (lookup (lit "nextQuestion") fields) = true ->
  let w1 := step w Submit in
  let w2 := step w1 (Settle (List.length (inflight w))
                       (Responds (Parsed (JObj fields)))) in
  status (st w2) = INTERVIEW_ACTIVE
  /\ currentTranscript (st w2) = []
  /\ text (sp w2) = []
  /\ List.length (qnaHistory (st w2)) = S (List.length (qnaHistory (st w)))
  /\ (isListening (sp w) = true -> isListening (sp w2) = false)
  /\ (isListening (sp w) = false -> started (sp w) = false ->
      isListening (sp w2) = true).
Proof.
  intros Hm Hs Ht Hc Hsup Hled Hev Hnq w1 w2.
  destruct (submitAnswer_accepted w Hm Hs Ht) as (_ & Hm1 & Hsp1 & Hq & Hi).
  fold w1 in Hm1, Hsp1, Hq, Hi.
  assert (Hp : nth_error (inflight w1) (List.length (inflight w))
               = Some (AwaitSendAnswer (currentTranscript (st w))
                         (isListening (sp w)) true))
    by (rewrite Hi, Hc; apply nth_error_last).
  assert (Hr : ledgerRenders
                 (closeLast (currentTranscript (st w))
                    (lookup (lit "evaluation") fields) (qnaHistory (st w1))
                  ++ [mkQnA (Z.of_nat (List.length (qnaHistory (st w1))) + 1)
                        (lookup (lit "nextQuestion") fields) [] Undefined])
               = true)
    by (rewrite Hq; apply recordTurn_renders; assumption).
  destruct (submitAnswer_success w1 _ _ _ (JObj fields) _ _ Hm1 Hp
              eq_refl eq_refl Hr) as (H1 & H2 & H3 & _).
  fold w2 in H1, H2, H3.
  assert (Hsp2 : sp w2 = startListening (isListening (sp w)) (resetText (sp w1))).
  { unfold w2, step. rewrite Hm1, render_sp. simpl. rewrite Hp. simpl.
    unfold submitAnswer_settled. simpl.
    rewrite closeLast_length, Hr. reflexivity. }
  split; [exact H1|]. split; [exact H3|].
  split.
  { rewrite Hsp2. unfold startListening, resetText. simpl.
    repeat break_if; reflexivity. }
  split.
  { rewrite H2, length_app, closeLast_length, Hq. simpl. lia. }
  split.
  - intros Hl. rewrite Hsp2, Hsp1, Hl.
    rewrite startListening_stale. unfold resetText, stopListening.
    rewrite Hsup. reflexivity.
  - intros Hl Hst. rewrite Hsp2, Hsp1, Hl.
    unfold startListening, resetText, stopListening. simpl.
    rewrite andb_false_r. simpl. rewrite Hsup, Hst. reflexivity.
Qed.

Lemma next_turn_leaves_capture_off_witness :
  let fields := [ (lit "evaluation", JStr (lit "Good clarity."));
                  (lit "nextQuestion", JStr (lit "Why this role?")) ] in
  isListening (sp answering) = true
  /\ status (st (step (step answering Submit)
                   (Settle 0 (Responds (Parsed (JObj fields)))))) = INTERVIEW_ACTIVE
  /\ isListening (sp (step (step answering Submit)
                        (Settle 0 (Responds (Parsed (JObj fields)))))) = false.
Proof.
  destruct (next_turn_leaves_capture_off answering
              [ (lit "evaluation", JStr (lit "Good clarity."));
                (lit "nextQuestion", JStr (lit "Why this role?")) ]
              eq_refl eq_refl ltac:(vm_compute; discriminate) eq_refl eq_refl
              eq_refl eq_refl eq_refl)
    as (H1 & _ & _ & _ & H5 & _).
  split; [reflexivity|]. split; [exact H1|exact (H5 eq_refl)].
Defined.

(** ** Starting a session *)

Lemma render_status_changed_active (before after : World) :
  mounted after = true ->
  status (st after) = INTERVIEW_ACTIVE ->
  status (st before) <> INTERVIEW_ACTIVE ->
  currentTranscript (st (render before after)) = text (sp after)
  /\ timer (render before after)
     = if 0 <? timeLeftSeconds (st after)
       then Some (mkClosure (qnaHistory (st after)) (language (st after))
                    (isListening (sp after)))
       else None.
Proof.
  intros Hm Ha Hb.
  assert (E : status_eqb (status (st before)) (status (st after)) = false).
  { destruct (status_eqb (status (st before)) (status (st after))) eqn:E;
      [apply status_eqb_eq in E; congruence|reflexivity]. }
  split.
  - rewrite render_currentTranscript by exact Hm.
    rewrite E, andb_false_r, Ha. reflexivity.
  - unfold render, timerEffect. rewrite Hm, E, Ha. simpl.
    break_if; reflexivity.
Qed.

(** X10. A start that fails returns to IDLE with the start error and
    no ledger: whether the request is rejected, comes back without text
    or with text that is no JSON, or comes back as the JSON [null]
    (reading [nextQuestion] off it throws inside the [try]).  Nothing
    is listening, no interval is armed, and the remaining time keeps the
    full limit that the start had set. *)
Theorem failed_start_returns_to_idle (w : World) (u : Upstream) :
  mounted w = true ->
  hasApiKey w = true ->
  u = Rejects \/ u = Responds NoText \/ u = Responds BadJson
  \/ u = Responds (Parsed JNull) ->
  let w1 := step w Start in
  let w2 := step w1 (Settle (List.length (inflight w)) u) in
  status (st w1) = INITIALIZING
  /\ status (st w2) = IDLE
  /\ error (st w2) = Some startFailedMessage
  /\ qnaHistory (st w2) = []
  /\ finalResult (st w2) = JNull
  /\ timeLeftSeconds (st w2) = timeLimitMinutes (st w) * 60
  /\ timer w2 = None
  /\ sp w2 = sp w.
Proof.
  intros Hm Hk Hu w1 w2.
  assert (Hh : handle Start w
               = issue (AwaitStartSession (language (st w))
                          (isSupported (sp w)) (isListening (sp w)))
                   (set_chatSession true
                      (setState (fun prev =>
                         set_error None (set_finalResult JNull
                           (set_qnaHistory []
                              (set_timeLeftSeconds (timeLimitMinutes prev * 60)
                                 (set_status INITIALIZING prev))))) w)))
    by (simpl; unfold startInterview; rewrite Hk; reflexivity).
  assert (Hm1 : mounted w1 = true)
    by (unfold w1, step; rewrite Hm, render_mounted, Hh; exact Hm).
  assert (Hi : inflight w1
               = inflight w
                 ++ [AwaitStartSession (language (st w)) (isSupported (sp w))
                       (isListening (sp w))])
    by (unfold w1, step; rewrite Hm, render_inflight, Hh; reflexivity).
  assert (Hp : nth_error (inflight w1) (List.length (inflight w))
               = Some (AwaitStartSession (language (st w))
                         (isSupported (sp w)) (isListening (sp w))))
    by (rewrite Hi; apply nth_error_last).
  assert (Hs1 : status (st w1) = INITIALIZING)
    by (unfold w1, step; rewrite Hm, render_status, Hh; reflexivity).
  assert (Hh2 : handle (Settle (List.length (inflight w)) u) w1
                = startFailed
                    (set_inflight
                       (removeAt (List.length (inflight w)) (inflight w1)) w1)).
  { simpl. rewrite Hp. simpl. unfold startInterview_settled.
    destruct Hu as [-> | [-> | [-> | ->]]]; reflexivity. }
  assert (Hq1 : qnaHistory (st w1) = [])
    by (unfold w1, step; rewrite Hm, render_qnaHistory, Hh; reflexivity).
  assert (Hf1 : finalResult (st w1) = JNull)
    by (unfold w1, step; rewrite Hm, render_finalResult, Hh; reflexivity).
  assert (Ht1 : timeLeftSeconds (st w1) = timeLimitMinutes (st w) * 60)
    by (unfold w1, step; rewrite Hm, render_timeLeftSeconds, Hh; reflexivity).
  assert (Hsp1 : sp w1 = sp w)
    by (unfold w1, step; rewrite Hm, render_sp, Hh; reflexivity).
  split; [exact Hs1|].
  unfold w2, step. rewrite Hm1.
  rewrite render_status, render_error, render_qnaHistory, render_finalResult,
    render_timeLeftSeconds, render_sp, Hh2.
  split; [reflexivity|]. split; [reflexivity|].
  split; [exact Hq1|]. split; [exact Hf1|]. split; [exact Ht1|].
  split; [|exact Hsp1].
  apply render_timer_cleared; simpl; [exact Hm1| |discriminate].
  rewrite Hs1. discriminate.
Qed.

Lemma failed_start_returns_to_idle_witness :
  let w := initialWorld true true in
  let w2 := step (step w Start) (Settle 0 (Responds (Parsed JNull))) in
  status (st w2) = IDLE
  /\ error (st w2) = Some startFailedMessage
  /\ timeLeftSeconds (st w2) = 300.
Proof.
  destruct (failed_start_returns_to_idle (initialWorld true true)
              (Responds (Parsed JNull)) eq_refl eq_refl
              (or_intror (or_intror (or_intror eq_refl))))
    as (_ & H2 & H3 & _ & _ & H6 & _).
  split; [exact H2|]. split; [exact H3|exact H6].
Defined.

Lemma first_turn_renders (q : jsval) :
  ledgerRenders [mkQnA 1 q [] Undefined] = childRenders q.
Proof.
  unfold ledgerRenders, turnRenders. simpl. rewrite !andb_true_r. reflexivity.
Qed.

(** X11. A start that succeeds (the payload is any JSON value but
    [null], with a [nextQuestion] that the interview view can show: no
    object, and no array that holds one) opens the session with one
    turn: id 1, the payload's [nextQuestion] as question, no answer.
    The status is INTERVIEW_ACTIVE, the buffer is empty, the remaining
    time is the limit in seconds with the interval armed, and the
    recognizer, idle before, is listening. *)
Theorem successful_start_opens_first_turn (w : World) (v : json)
    (q : jsval) :
  mounted w = true ->
  hasApiKey w = true ->
  isSupported (sp w) = true ->
  isListening (sp w) = false ->
  started (sp w) = false ->
  0 < timeLimitMinutes (st w) ->
  getProp v (lit "nextQuestion") = Some q ->
  childRenders q = true ->
  let w2 := step (step w Start)
              (Settle (List.length (inflight w)) (Responds (Parsed v))) in
  status (st w2) = INTERVIEW_ACTIVE
  /\ qnaHistory (st w2) = [mkQnA 1 q [] Undefined]
  /\ currentTranscript (st w2) = []
  /\ timeLeftSeconds (st w2) = timeLimitMinutes (st w) * 60
  /\ timer w2
     = Some (mkClosure [mkQnA 1 q [] Undefined] (language (st w)) true)
  /\ isListening (sp w2) = true.
Proof.
  intros Hm Hk Hsup Hl Hst Hlim Hq Hshow w2.
  set (w1 := step w Start) in *.
  assert (Hh : handle Start w
               = issue (AwaitStartSession (language (st w))
                          (isSupported (sp w)) (isListening (sp w)))
                   (set_chatSession true
                      (setState (fun prev =>
                         set_error None (set_finalResult JNull
                           (set_qnaHistory []
                              (set_timeLeftSeconds (timeLimitMinutes prev * 60)
                                 (set_status INITIALIZING prev))))) w)))
    by (simpl; unfold startInterview; rewrite Hk; reflexivity).
  assert (Hm1 : mounted w1 = true)
    by (unfold w1, step; rewrite Hm, render_mounted, Hh; exact Hm).
  assert (Hi : inflight w1
               = inflight w
                 ++ [AwaitStartSession (language (st w)) (isSupported (sp w))
                       (isListening (sp w))])
    by (unfold w1, step; rewrite Hm, render_inflight, Hh; reflexivity).
  assert (Hp : nth_error (inflight w1) (List.length (inflight w))
               = Some (AwaitStartSession (language (st w)) true false))
    by (rewrite Hi, Hsup, Hl; apply nth_error_last).
  assert (Hs1 : status (st w1) = INITIALIZING)
    by (unfold w1, step; rewrite Hm, render_status, Hh; reflexivity).
  assert (Hsp1 : sp w1 = sp w)
    by (unfold w1, step; rewrite Hm, render_sp, Hh; reflexivity).
  assert (Ht1 : timeLeftSeconds (st w1) = timeLimitMinutes (st w) * 60)
    by (unfold w1, step; rewrite Hm, render_timeLeftSeconds, Hh; reflexivity).
  assert (Hlang : language (st w1) = language (st w)).
  { unfold w1, step. rewrite Hm, Hh. unfold render, timerEffect, syncTranscript.
    repeat break_if; reflexivity. }
  set (after := handle (Settle (List.length (inflight w)) (Responds (Parsed v))) w1).
  assert (Hafter : after
                   = set_sp (startListening false (resetText (sp w1)))
                       (setState (fun prev =>
                          set_qnaHistory [mkQnA 1 q [] Undefined]
                            (set_status INTERVIEW_ACTIVE prev))
                          (set_inflight
                             (removeAt (List.length (inflight w)) (inflight w1))
                             w1))).
  { unfold after. simpl. rewrite Hp. simpl. unfold startInterview_settled.
    change (startSession (Responds (Parsed v))) with (Returns v).
    cbv beta iota. rewrite Hq, first_turn_renders, Hshow. reflexivity. }
  assert (Hspa : sp after = mkHook [] true true true (onendListening (sp w))).
  { rewrite Hafter, Hsp1. simpl. unfold startListening, resetText. simpl.
    rewrite Hsup, Hst. reflexivity. }
  assert (Hma : mounted after = true) by (rewrite Hafter; exact Hm1).
  assert (Hsa : status (st after) = INTERVIEW_ACTIVE)
    by (rewrite Hafter; reflexivity).
  assert (Hb : status (st w1) <> INTERVIEW_ACTIVE)
    by (rewrite Hs1; discriminate).
  destruct (render_status_changed_active w1 after Hma Hsa Hb) as [Hc Ht].
  unfold w2. fold w1. unfold step. rewrite Hm1. fold after.
  rewrite render_status, render_qnaHistory, render_timeLeftSeconds, render_sp.
  split; [exact Hsa|].
  split; [rewrite Hafter; reflexivity|].
  split; [rewrite Hc, Hspa; reflexivity|].
  split; [rewrite Hafter; simpl; exact Ht1|].
  split.
  - rewrite Ht.
    replace (timeLeftSeconds (st after)) with (timeLimitMinutes (st w) * 60)
      by (rewrite Hafter; simpl; symmetry; exact Ht1).
    replace (0 <? timeLimitMinutes (st w) * 60) with true
      by (symmetry; apply Z.ltb_lt; lia).
    rewrite Hspa. rewrite Hafter. simpl. rewrite Hlang. reflexivity.
  - rewrite Hspa. reflexivity.
Qed.

Lemma successful_start_opens_first_turn_witness :
  let w2 := step (step (initialWorld true true) Start)
              (Settle 0 (turnResponse "" "Tell me about yourself")) in
  status (st w2) = INTERVIEW_ACTIVE
  /\ qnaHistory (st w2)
     = [mkQnA 1 (Val (JStr (lit "Tell me about yourself"))) [] Undefined]
  /\ timeLeftSeconds (st w2) = 300
  /\ isListening (sp w2) = true.
Proof.
  destruct (successful_start_opens_first_turn (initialWorld true true)
              (JObj [ (lit "evaluation", JStr (lit ""));
                      (lit "nextQuestion", JStr (lit "Tell me about yourself")) ])
              (Val (JStr (lit "Tell me about yourself")))
              eq_refl eq_refl eq_refl eq_refl eq_refl
              ltac:(simpl; lia) eq_refl eq_refl)
    as (H1 & H2 & _ & H4 & _ & H6).
  split; [exact H1|]. split; [exact H2|]. split; [exact H4|exact H6].
Defined.

(** ** The recognizer and the microphone button *)

Lemma settle_onendListening (p : Pending) (u : Upstream) (w : World) :
  onendListening (sp (settle p u w)) = onendListening (sp w).
Proof.
  destruct p as [lang supported seen | a seen chat | h lang]; simpl.
  - unfold startInterview_settled, startFailed.
    destruct (startSession u); [|reflexivity].
    destruct (getProp a (lit "nextQuestion")); [|reflexivity].
    break_if; [reflexivity|].
    destruct supported; [|reflexivity].
    simpl. unfold startListening, resetText. simpl. repeat break_if; reflexivity.
  - unfold submitAnswer_settled.
    destruct (sendAnswer chat u).
    + destruct (getProp a0 (lit "evaluation")); [|reflexivity].
      destruct (getProp a0 (lit "nextQuestion")); [|reflexivity].
      break_if; [reflexivity|].
      simpl. unfold startListening, resetText. simpl.
      repeat break_if; reflexivity.
    + simpl. unfold startListening. repeat break_if; reflexivity.
  - unfold finishInterview_settled.
    destruct (generateFinalReport h lang u); [|reflexivity].
    break_if; reflexivity.
Qed.

(** Only the effect on [language] makes a new [onend] handler. *)
Lemma step_onendListening (w : World) (e : Event) :
  isSetLanguage e = false ->
  onendListening (sp (step w e)) = onendListening (sp w).
Proof.
  intros He. unfold step. destruct (mounted w); [|reflexivity].
  rewrite render_sp.
  destruct e; try discriminate; simpl;
    try (destruct (nth_error (inflight w) i);
         [rewrite settle_onendListening|]; reflexivity);
    unfold startInterview, quitInterview, submitAnswer, tick, finishInterview,
      stopListening, startListening;
    try destruct (timer w); repeat break_if; reflexivity.
Qed.

Lemma render_timer_none (before after : World) :
  timer after = None ->
  status (st after) <> INTERVIEW_ACTIVE ->
  timer (render before after) = None.
Proof.
  intros Ht Hs. unfold render, timerEffect, syncTranscript.
  destruct (status_eqb (status (st after)) INTERVIEW_ACTIVE) eqn:E;
    [apply status_eqb_eq in E; contradiction|].
  simpl. repeat break_if; simpl; try exact Ht; reflexivity.
Qed.

Lemma dispatch_pristine (w : World) (e : Event) :
  isStart e = false -> pristine w -> pristine (dispatch w e).
Proof.
  intros He (Hs & Hi & Ht & Hl & Hst & Ho).
  unfold dispatch. destruct (enabled w e) eqn:Hen;
    [|repeat split; assumption].
  unfold enabled, view in Hen. rewrite Hs, Hi, Ht, Hst in Hen.
  destruct (mounted w) eqn:Hm; [|discriminate].
  simpl in Hen. unfold step. rewrite Hm. unfold pristine.
  rewrite render_status, render_inflight, render_sp.
  destruct e as [| | | |i u|tx| | | | |l|m| |b]; try discriminate;
    simpl in Hen; try discriminate.
  - simpl. repeat split; try assumption.
    apply render_timer_none; simpl; [exact Ht|rewrite Hs; discriminate].
  - simpl. unfold recreate.
    destruct (lang_eqb (language (st w)) l); simpl;
      [|destruct (isSupported (sp w)); simpl];
      (split; [exact Hs|]); (split; [exact Hi|]);
      (split; [apply render_timer_none; simpl;
               [exact Ht|rewrite Hs; discriminate]|]);
      repeat split; assumption.
  - simpl. repeat split; try assumption.
    apply render_timer_none; simpl; [exact Ht|rewrite Hs; discriminate].
  - simpl. repeat split; try assumption.
    apply render_timer_none; simpl; [exact Ht|rewrite Hs; discriminate].
Qed.

Lemma run_app (w : World) (es es' : list Event) :
  run w (es ++ es') = run (run w es) es'.
Proof. apply fold_left_app. Qed.

Lemma run_pristine (es : list Event) :
  forall w : World,
    existsb isStart es = false -> pristine w -> pristine (run w es).
Proof.
  induction es as [|e es IH]; intros w Hes Hw; [exact Hw|].
  simpl in Hes. apply orb_false_iff in Hes. destruct Hes as [He Hes].
  simpl. apply IH; [exact Hes|apply dispatch_pristine; assumption].
Qed.

Lemma run_onendListening (es : list Event) :
  forall w : World,
    existsb isSetLanguage es = false ->
    onendListening (sp (run w es)) = onendListening (sp w).
Proof.
  induction es as [|e es IH]; intros w Hes; [reflexivity|].
  simpl in Hes. apply orb_false_iff in Hes. destruct Hes as [He Hes].
  simpl. rewrite (IH _ Hes). unfold dispatch.
  destruct (enabled w e); [apply step_onendListening, He|reflexivity].
Qed.

(** X12. The end of recognition is never surfaced.  In a session whose
    language was chosen before the first start, the [onend] handler of
    the recognizer closed over [isListening = false]; so when the
    recognizer ends, by itself or after [stop()], the hook's
    [isListening] stays as it was: a recognizer that stopped while
    listening is still shown as listening. *)
Theorem recognizer_end_is_not_surfaced (supported apiKey : bool)
    (setup session : list Event) :
  existsb isStart setup = false ->
  existsb isSetLanguage session = false ->
  let w := run (initialWorld supported apiKey) (setup ++ session) in
  onendListening (sp w) = false
  /\ isListening (sp (step w SpeechEnd)) = isListening (sp w)
  /\ text (sp (step w SpeechEnd)) = text (sp w)
  /\ (mounted w = true -> started (sp (step w SpeechEnd)) = false).
Proof.
  intros Hsetup Hsession w.
  assert (Ho : onendListening (sp w) = false).
  { unfold w. rewrite run_app, (run_onendListening _ _ Hsession).
    assert (Hp : pristine (initialWorld supported apiKey))
      by (repeat split; reflexivity).
    destruct (run_pristine setup _ Hsetup Hp) as (_ & _ & _ & _ & _ & H).
    exact H. }
  split; [exact Ho|].
  unfold step.
  destruct (mounted w);
    [|split; [reflexivity|split; [reflexivity|discriminate]]].
  rewrite render_sp. simpl. unfold onend. simpl. rewrite Ho.
  split; [reflexivity|split; reflexivity].
Qed.

Lemma recognizer_end_is_not_surfaced_witness :
  let w := run (initialWorld true true) ([SetLanguage en] ++ answeringEvents) in
  isListening (sp w) = true
  /\ started (sp (step w SpeechEnd)) = false
  /\ isListening (sp (step w SpeechEnd)) = true.
Proof.
  destruct (recognizer_end_is_not_surfaced true true [SetLanguage en]
              answeringEvents eq_refl eq_refl) as (_ & Hl & _ & Hs).
  assert (Hw : isListening
                 (sp (run (initialWorld true true)
                        ([SetLanguage en] ++ answeringEvents))) = true)
    by (vm_compute; reflexivity).
  split; [exact Hw|]. split.
  - apply Hs. vm_compute. reflexivity.
  - rewrite Hl. exact Hw.
Defined.

Lemma settle_isSupported (p : Pending) (u : Upstream) (w : World) :
  isSupported (sp (settle p u w)) = isSupported (sp w).
Proof.
  destruct p as [lang supported seen | a seen chat | h lang]; simpl.
  - unfold startInterview_settled, startFailed.
    destruct (startSession u); [|reflexivity].
    destruct (getProp a (lit "nextQuestion")); [|reflexivity].
    break_if; [reflexivity|].
    destruct supported; [|reflexivity].
    simpl. unfold startListening, resetText. simpl.
    destruct (isSupported (sp w)) eqn:E; simpl; repeat break_if; simpl;
      congruence.
  - unfold submitAnswer_settled.
    destruct (sendAnswer chat u).
    + destruct (getProp a0 (lit "evaluation")); [|reflexivity].
      destruct (getProp a0 (lit "nextQuestion")); [|reflexivity].
      break_if; [reflexivity|].
      simpl. unfold startListening, resetText. simpl.
      destruct (isSupported (sp w)) eqn:E; simpl; repeat break_if; simpl;
        congruence.
    + simpl. unfold startListening.
      destruct (isSupported (sp w)) eqn:E; simpl; repeat break_if; simpl;
        congruence.
  - unfold finishInterview_settled.
    destruct (generateFinalReport h lang u); [|reflexivity].
    break_if; reflexivity.
Qed.

Lemma step_isSupported (w : World) (e : Event) :
  isSupported (sp (step w e)) = isSupported (sp w).
Proof.
  unfold step. destruct (mounted w); [|reflexivity].
  rewrite render_sp.
  destruct e; simpl;
    try (destruct (nth_error (inflight w) i);
         [rewrite settle_isSupported|]; reflexivity);
    unfold startInterview, quitInterview, submitAnswer, tick, finishInterview,
      stopListening, startListening, recreate;
    try destruct (timer w);
    destruct (isSupported (sp w)) eqn:E; simpl; repeat break_if; simpl;
    congruence.
Qed.

Lemma run_isSupported (es : list Event) :
  forall w : World, isSupported (sp (run w es)) = isSupported (sp w).
Proof.
  induction es as [|e es IH]; intros w; [reflexivity|].
  simpl. rewrite IH. unfold dispatch.
  destruct (enabled w e); [apply step_isSupported|reflexivity].
Qed.

(** X13. Resuming the microphone discards what was said.  In an active
    session with the microphone paused, a click on the microphone
    button empties the hook's text and with it the transcript buffer;
    the hook listens again when the recognizer had ended, and stays
    paused when it had not ([start()] throws and is caught). *)
Theorem resuming_microphone_empties_buffer (apiKey : bool)
    (es : list Event) :
  let w := run (initialWorld true apiKey) es in
  mounted w = true ->
  status (st w) = INTERVIEW_ACTIVE ->
  isListening (sp w) = false ->
  let w' := step w ToggleMic in
  text (sp w') = []
  /\ currentTranscript (st w') = []
  /\ status (st w') = INTERVIEW_ACTIVE
  /\ isListening (sp w') = negb (started (sp w)).
Proof.
  intros w Hm Hs Hl w'.
  destruct (reachable_Coherent true apiKey es) as [_ HC]. fold w in HC.
  assert (Hsup : isSupported (sp w) = true)
    by (unfold w; rewrite run_isSupported; reflexivity).
  pose proof (coh_buffer _ HC Hs) as Hb.
  assert (Hh : handle ToggleMic w = set_sp (startListening false (sp w)) w)
    by (simpl; rewrite Hl; reflexivity).
  assert (Hsp : sp w' = startListening false (sp w))
    by (unfold w', step; rewrite Hm, render_sp, Hh; reflexivity).
  assert (Ht : text (sp w') = []).
  { rewrite Hsp. unfold startListening. rewrite Hsup. simpl.
    break_if; reflexivity. }
  split; [exact Ht|].
  split.
  { unfold w', step. rewrite Hm, Hh.
    rewrite render_currentTranscript by exact Hm. simpl.
    rewrite status_eqb_refl, andb_true_r, Hs. simpl.
    rewrite <- Hsp, Ht.
    destruct (str_eqb (text (sp w)) []) eqn:E; [|reflexivity].
    apply str_eqb_eq in E. rewrite Hb. exact E. }
  split; [unfold w', step; rewrite Hm, render_status, Hh; exact Hs|].
  rewrite Hsp. unfold startListening. rewrite Hsup. simpl.
  destruct (started (sp w)); [exact Hl|reflexivity].
Qed.

Lemma resuming_microphone_empties_buffer_witness :
  let w := run (initialWorld true true) (answeringEvents ++ [ToggleMic; SpeechEnd]) in
  currentTranscript (st w) = lit "I am an engineer."
  /\ currentTranscript (st (step w ToggleMic)) = []
  /\ isListening (sp (step w ToggleMic)) = true.
Proof.
  destruct (resuming_microphone_empties_buffer true
              (answeringEvents ++ [ToggleMic; SpeechEnd]))
    as (_ & Hb & _ & Hl); try (vm_compute; reflexivity).
  split; [vm_compute; reflexivity|]. split; [exact Hb|].
  rewrite Hl. vm_compute. reflexivity.
Defined.

(** ** The result view *)

(** X14. When the report call settles with a payload that parses to a
    falsy value ([null], [0], [false] or the empty string), the status
    is FINISHED and the value is stored, but the result view is not
    rendered: the interview view stays, the button that leads home does
    not exist, and the exit button leads to IDLE. *)
Theorem falsy_report_keeps_interview_view (w : World) (i : nat)
    (h : list InterviewQnA) (lang : Language) (v : json) :
  mounted w = true ->
  nth_error (inflight w) i = Some (AwaitFinalReport h lang) ->
  truthy v = false ->
  let w' := step w (Settle i (Responds (Parsed v))) in
  status (st w') = FINISHED
  /\ finalResult (st w') = v
  /\ view (st w') = InterviewView
  /\ enabled w' Home = false
  /\ enabled w' Quit = true
  /\ status (st (step w' Quit)) = IDLE.
Proof.
  intros Hm Hp Hv w'.
  destruct (report_settles h lang (Responds (Parsed v)) w i v Hm Hp eq_refl
              (or_introl Hv)) as (Hs & Hr & _ & Hm').
  fold w' in Hs, Hr, Hm'.
  assert (Hview : view (st w') = InterviewView)
    by (unfold view; rewrite Hs, Hr, Hv; reflexivity).
  split; [exact Hs|]. split; [exact Hr|]. split; [exact Hview|].
  split; [unfold enabled; rewrite Hm', Hview; reflexivity|].
  split; [unfold enabled; rewrite Hm', Hview; reflexivity|].
  unfold step. rewrite Hm', render_status. reflexivity.
Qed.

Lemma falsy_report_keeps_interview_view_witness :
  let w := step lastSecond Tick in
  let w' := step w (Settle 0 (Responds (Parsed (JNum 0)))) in
  status (st w') = FINISHED /\ view (st w') = InterviewView
  /\ enabled w' Home = false.
Proof.
  destruct (falsy_report_keeps_interview_view (step lastSecond Tick) 0
              (filter answered (qnaHistory (st lastSecond))) ja (JNum 0)
              eq_refl eq_refl eq_refl)
    as (H1 & _ & H3 & H4 & _).
  split; [exact H1|]. split; [exact H3|exact H4].
Defined.

(** ** [recognition.onresult] *)

(** X15. The text published by [onresult] is the whole utterance since
    the first result, whatever [resultIndex] says: when, from
    [resultIndex] on, the final results come before the interim ones,
    it is the text of the results before [resultIndex], then the
    final transcript, then the interim transcript of the handler's
    loop. *)
Theorem onresult_publishes_whole_utterance (resultIndex : nat)
    (results finals interims : list RecognitionResult) (h : Hook) :
  skipn resultIndex results = finals ++ interims ->
  forallb isFinal finals = true ->
  forallb (fun r => negb (isFinal r)) interims = true ->
  text (onresultEvent resultIndex results h)
  = currentContent (firstn resultIndex results)
    ++ finalTranscript resultIndex results
    ++ interimTranscript resultIndex results.
Proof.
  intros Hsplit Hf Hi. unfold onresultEvent, onresult. simpl.
  unfold currentContent, finalTranscript, interimTranscript.
  rewrite <- (firstn_skipn resultIndex results) at 1.
  rewrite map_app, List.concat_app, Hsplit. f_equal.
  assert (Hkeep : forall (A : Type) (f : A -> bool) (l : list A),
            forallb f l = true -> filter f l = l).
  { intros A f l. induction l as [|x l IH]; intros H; [reflexivity|].
    simpl in H. apply andb_prop in H. destruct H as [Hx Hl].
    simpl. rewrite Hx, (IH Hl). reflexivity. }
  assert (Hdrop : forall (A : Type) (f : A -> bool) (l : list A),
            forallb (fun x => negb (f x)) l = true -> filter f l = []).
  { intros A f l. induction l as [|x l IH]; intros H; [reflexivity|].
    simpl in H. apply andb_prop in H. destruct H as [Hx Hl].
    simpl. apply negb_true_iff in Hx. rewrite Hx. exact (IH Hl). }
  rewrite !filter_app.
  rewrite (Hkeep _ _ _ Hf), (Hkeep _ _ _ Hi).
  rewrite (Hdrop _ isFinal interims Hi).
  assert (Hf' : forallb (fun x => negb (negb (isFinal x))) finals = true).
  { rewrite forallb_forall in *. intros x Hx. rewrite (Hf x Hx). reflexivity. }
  rewrite (Hdrop _ (fun r => negb (isFinal r)) finals Hf').
  rewrite app_nil_r. simpl. rewrite map_app, List.concat_app. reflexivity.
Qed.

Lemma onresult_publishes_whole_utterance_witness :
  text (onresultEvent 1
          [mkResult true (lit "I am "); mkResult true (lit "an ");
           mkResult false (lit "engin")]
          (mkHook [] true true true false))
  = lit "I am an engin".
Proof.
  rewrite (onresult_publishes_whole_utterance 1
             [mkResult true (lit "I am "); mkResult true (lit "an ");
              mkResult false (lit "engin")]
             [mkResult true (lit "an ")] [mkResult false (lit "engin")]
             (mkHook [] true true true false)
             eq_refl eq_refl eq_refl).
  reflexivity.
Defined.

(** ** The camera *)

Lemma stopTracks_single (s : nat) : Camera.stopTracks s [s] = [].
Proof. unfold Camera.stopTracks. simpl. rewrite Nat.eqb_refl. reflexivity. Qed.

Lemma react_Tidy (c : Camera.Cam) (e : Camera.Event) :
  Camera.patient c e = true -> Camera.Tidy c -> Camera.Tidy (Camera.react c e).
Proof.
  intros Hp HT.
  pose proof (Camera.tidy_live _ HT) as Hl.
  pose proof (Camera.tidy_off _ HT) as Hoff.
  pose proof (Camera.tidy_shown _ HT) as Hshown.
  pose proof (Camera.tidy_pending _ HT) as Hpend.
  destruct e as [|i|i|]; simpl in *.
  - (* Toggle *)
    destruct (Camera.pending c) eqn:Epend; [|discriminate].
    destruct (Camera.attached c) eqn:Eatt; [|exact HT].
    assert (Hclean : Camera.cleanup c = []).
    { unfold Camera.cleanup. rewrite (Hl eq_refl).
      destruct (Camera.stream c); [apply stopTracks_single|reflexivity]. }
    unfold Camera.effect. simpl. rewrite Hclean, Epend.
    destruct (Camera.isActive c) eqn:Eact; simpl.
    + destruct (Camera.srcObject c); constructor; simpl; auto; try (intros; congruence).
    + constructor; simpl; auto; try (intros; congruence);
        try (intros [H | H]; congruence);
        try (right; repeat split; assumption).
  - (* Granted *)
    destruct (nth_error (Camera.pending c) i) as [r|] eqn:Ei; [|exact HT].
    destruct Hpend as [Hpend | (Hpend & Hs & Hact & Hatt)];
      [rewrite Hpend in Ei; destruct i; discriminate|].
    rewrite Hpend in Ei. destruct i as [|i]; [|destruct i; discriminate].
    simpl in Ei. injection Ei as <-.
    rewrite Hpend, Hatt, Nat.eqb_refl.
    assert (Hlive : Camera.live c = [])
      by (rewrite (Hl Hatt), Hs; reflexivity).
    rewrite Hlive. constructor; simpl; auto; try (intros; congruence);
      try (intros [H | H]; congruence).
  - (* Denied *)
    destruct Hpend as [Hpend | (Hpend & Hs & Hact & Hatt)].
    + rewrite Hpend.
      replace (removeAt i (@nil nat)) with (@nil nat)
        by (unfold removeAt; destruct i; reflexivity).
      constructor; simpl; auto; try (intros; congruence).
    + rewrite Hpend. destruct i as [|i].
      * constructor; simpl; auto; try (intros; congruence).
      * replace (removeAt (S i) [Camera.effectRun c])
          with [Camera.effectRun c]
          by (unfold removeAt; destruct i; reflexivity).
        constructor; simpl; auto; try (intros; congruence);
          try (right; repeat split; assumption).
  - (* Unmount *)
    destruct (Camera.pending c) eqn:Epend; [|discriminate].
    destruct (Camera.attached c) eqn:Eatt; [|exact HT].
    assert (Hclean : Camera.cleanup c = []).
    { unfold Camera.cleanup. rewrite (Hl eq_refl).
      destruct (Camera.stream c); [apply stopTracks_single|reflexivity]. }
    rewrite Hclean. constructor; simpl; auto; try (intros; congruence); try discriminate.
Qed.

Lemma reactAll_Tidy (es : list Camera.Event) :
  forall c : Camera.Cam,
    Camera.allPatient c es = true -> Camera.Tidy c ->
    Camera.Tidy (Camera.reactAll c es).
Proof.
  induction es as [|e es IH]; intros c Hp HT; [exact HT|].
  simpl in Hp. apply andb_prop in Hp. destruct Hp as [He Hes].
  simpl. apply IH; [exact Hes|apply react_Tidy; assumption].
Qed.

Lemma mount_Tidy (active : bool) : Camera.Tidy (Camera.mount active).
Proof.
  destruct active; constructor; simpl; auto; try (intros; congruence).
Qed.

(** X16. As long as the camera is switched, or the component removed,
    only when no permission request is outstanding, no stream is left
    running once the camera is off or the component is gone; while it
    is on, at most one stream runs, and it is the one shown. *)
Theorem camera_stops_when_switched_off (active : bool)
    (es : list Camera.Event) :
  Camera.allPatient (Camera.mount active) es = true ->
  let c := Camera.reactAll (Camera.mount active) es in
  (Camera.isActive c = false \/ Camera.attached c = false ->
   Camera.live c = [])
  /\ (forall s : nat, In s (Camera.live c) ->
      Camera.live c = [s] /\ Camera.srcObject c = Some s).
Proof.
  intros Hp c.
  pose proof (reactAll_Tidy es _ Hp (mount_Tidy active)) as HT. fold c in HT.
  split; [exact (Camera.tidy_off _ HT)|].
  intros s Hs.
  destruct (Camera.attached c) eqn:Hatt.
  - pose proof (Camera.tidy_live _ HT Hatt) as Hl.
    destruct (Camera.stream c) as [s'|] eqn:Est;
      [|rewrite Hl in Hs; contradiction].
    rewrite Hl in Hs. destruct Hs as [<- | []].
    split; [exact Hl|exact (Camera.tidy_shown _ HT Hatt _ Est)].
  - rewrite (Camera.tidy_off _ HT (or_intror Hatt)) in Hs. contradiction.
Qed.

Lemma camera_stops_when_switched_off_witness :
  let on := Camera.reactAll (Camera.mount true) [Camera.Granted 0] in
  let off := Camera.reactAll (Camera.mount true)
               [Camera.Granted 0; Camera.Toggle] in
  Camera.live on = [0%nat] /\ Camera.srcObject on = Some 0%nat
  /\ Camera.live off = [].
Proof.
  destruct (camera_stops_when_switched_off true [Camera.Granted 0] eq_refl)
    as [_ Hon].
  destruct (camera_stops_when_switched_off true
              [Camera.Granted 0; Camera.Toggle] eq_refl) as [Hoff _].
  destruct (Hon 0%nat (or_introl eq_refl)) as [H1 H2].
  split; [exact H1|]. split; [exact H2|].
  apply Hoff. left. reflexivity.
Defined.

Lemma gone_keeps_streams (s : nat) (es : list Camera.Event) :
  forall c : Camera.Cam,
    Camera.attached c = false -> In s (Camera.live c) ->
    In s (Camera.live (Camera.reactAll c es)).
Proof.
  induction es as [|e es IH]; intros c Hatt Hs; [exact Hs|].
  simpl. destruct e as [|i|i|]; simpl.
  - rewrite Hatt. apply IH; assumption.
  - destruct (nth_error (Camera.pending c) i); apply IH; simpl;
      try assumption.
    right. exact Hs.
  - apply IH; simpl; assumption.
  - rewrite Hatt. apply IH; assumption.
Qed.

(** X17. A permission request that resolves late leaves the camera
    running.  If the component has been removed while the request was
    outstanding, the stream it brings is never stopped, whatever
    happens afterwards; if the camera has been switched off meanwhile,
    the stream is attached and runs although the camera is off. *)
Theorem late_permission_leaves_camera_running (c : Camera.Cam) (i r : nat) :
  nth_error (Camera.pending c) i = Some r ->
  let c' := Camera.react c (Camera.Granted i) in
  (Camera.attached c = false ->
   forall es : list Camera.Event,
     In (Camera.fresh c) (Camera.live (Camera.reactAll c' es)))
  /\ (Camera.attached c = true -> Camera.isActive c = false ->
      Camera.isActive c' = false
      /\ In (Camera.fresh c) (Camera.live c')
      /\ Camera.srcObject c' = Some (Camera.fresh c)).
Proof.
  intros Hp c'.
  assert (Hc' : c' = Camera.mkCam (Camera.isActive c) (Camera.attached c)
                       (if Camera.attached c then Some (Camera.fresh c)
                        else Camera.srcObject c)
                       (Camera.fresh c :: Camera.live c) (Camera.effectRun c)
                       (if Nat.eqb r (Camera.effectRun c)
                        then Some (Camera.fresh c) else Camera.stream c)
                       (removeAt i (Camera.pending c)) (S (Camera.fresh c)))
    by (unfold c'; simpl; rewrite Hp; reflexivity).
  split.
  - intros Hatt es. apply gone_keeps_streams.
    + rewrite Hc'. exact Hatt.
    + rewrite Hc'. left. reflexivity.
  - intros Hatt Hact. rewrite Hc'. simpl. rewrite Hatt.
    split; [exact Hact|]. split; [left; reflexivity|reflexivity].
Qed.

Lemma late_permission_leaves_camera_running_witness :
  let gone := Camera.reactAll (Camera.mount true) [Camera.Unmount] in
  let off := Camera.reactAll (Camera.mount true) [Camera.Toggle] in
  Camera.attached gone = false
  /\ In 0%nat (Camera.live (Camera.reactAll gone
                              [Camera.Granted 0; Camera.Toggle; Camera.Unmount]))
  /\ Camera.isActive (Camera.react off (Camera.Granted 0)) = false
  /\ Camera.srcObject (Camera.react off (Camera.Granted 0)) = Some 0%nat.
Proof.
  destruct (late_permission_leaves_camera_running
              (Camera.reactAll (Camera.mount true) [Camera.Unmount]) 0 1
              eq_refl) as [Hgone _].
  destruct (late_permission_leaves_camera_running
              (Camera.reactAll (Camera.mount true) [Camera.Toggle]) 0 1
              eq_refl) as [_ Hoff].
  destruct (Hoff eq_refl eq_refl) as (H1 & _ & H3).
  split; [reflexivity|].
  split; [exact (Hgone eq_refl [Camera.Toggle; Camera.Unmount])|].
  split; [exact H1|exact H3].
Defined.

(** ** The clock *)

Lemma dispatch_within_limit (w : World) (e : Event) :
  Inv w -> timeLeftSeconds (st w) <= 600 ->
  timeLeftSeconds (st (dispatch w e)) <= 600.
Proof.
  intros HI Hl. pose proof (inv_limit _ HI) as Hlim.
  pose proof (inv_left _ HI) as H0.
  destruct e;
    try (rewrite dispatch_timeLeftSeconds by discriminate; exact Hl).
  - unfold dispatch. destruct (enabled w Start); [|exact Hl].
    unfold step. destruct (mounted w); [|exact Hl].
    rewrite render_timeLeftSeconds. simpl.
    rewrite startInterview_timeLeftSeconds. break_if; lia.
  - rewrite (dispatch_Tick_timeLeftSeconds w HI).
    repeat break_if; lia.
Qed.

Lemma run_within_limit (es : list Event) :
  forall w : World,
    Inv w -> timeLeftSeconds (st w) <= 600 ->
    timeLeftSeconds (st (run w es)) <= 600.
Proof.
  induction es as [|e es IH]; intros w HI Hl; [exact Hl|].
  simpl. apply IH; [apply dispatch_Inv, HI|apply dispatch_within_limit; assumption].
Qed.

Lemma minutes_at_most_two_digits (m : Z) :
  0 <= m <= 10 -> (List.length (toString m) <= 2)%nat.
Proof.
  intros Hm.
  assert (Hall : forallb
                   (fun k => (List.length (toString (Z.of_nat k)) <=? 2)%nat)
                   (seq 0 11) = true) by (vm_compute; reflexivity).
  rewrite forallb_forall in Hall.
  specialize (Hall (Z.to_nat m)). rewrite Z2Nat.id in Hall by lia.
  apply Nat.leb_le, Hall, in_seq. lia.
Qed.

(** X18. In every world the events can lead to, the remaining time lies
    between 0 and 600 seconds, so the clock shows at most five
    characters, from [0:00] to [10:00]. *)
Theorem clock_stays_within_ten_minutes (supported apiKey : bool)
    (es : list Event) :
  let w := run (initialWorld supported apiKey) es in
  0 <= timeLeftSeconds (st w) <= 600
  /\ (4 <= List.length (formatTime (timeLeftSeconds (st w))) <= 5)%nat.
Proof.
  intros w.
  assert (HI : Inv w) by (apply run_Inv, initial_Inv).
  assert (Hl : timeLeftSeconds (st w) <= 600)
    by (apply run_within_limit; [apply initial_Inv|simpl; lia]).
  pose proof (inv_left _ HI) as H0.
  split; [lia|].
  rewrite (formatTime_nonneg _ H0), length_app. simpl.
  assert (Hm : 0 <= timeLeftSeconds (st w) / 60 <= 10).
  { split; [apply Z.div_pos; lia|].
    apply Z.div_le_upper_bound; lia. }
  pose proof (minutes_at_most_two_digits _ Hm) as H2.
  assert (H1 : (1 <= List.length (toString (timeLeftSeconds (st w) / 60)))%nat).
  { unfold toString, lit. rewrite length_map.
    destruct (timeLeftSeconds (st w) / 60) as [|p|p]; simpl;
      [lia| |lia].
    destruct (Pos.to_uint p); simpl; lia. }
  lia.
Qed.

(** ** The status after the deadline *)

Lemma eager_scenario_reached :
  lastSecondEager = run (initialWorld true true) lastSecondEagerEvents
  /\ allEnabled (initialWorld true true) lastSecondEagerEvents = true.
Proof. split; vm_compute; reflexivity. Qed.

(** X19. The tick that finds the deadline reached leaves zero seconds,
    no interval and the buffer as it was.  Where React computes the
    updater of the tick at the next render, the [setState] of
    [finishInterview] comes after it and the status is
    PROCESSING_ANSWER: the submit button is disabled.  Where React
    computes it at the call, its value replaces what that [setState]
    gives and the status is still INTERVIEW_ACTIVE: while the report is
    awaited the submit button is enabled for a buffer that is not
    blank. *)
Theorem deadline_tick_status (w : World) (c : TimerClosure) :
  mounted w = true ->
  timer w = Some c ->
  status (st w) = INTERVIEW_ACTIVE ->
  0 < timeLeftSeconds (st w) <= 1 ->
  let w1 := step w Tick in
  status (st w1) = (if eager w then INTERVIEW_ACTIVE else PROCESSING_ANSWER)
  /\ timeLeftSeconds (st w1) = 0
  /\ timer w1 = None
  /\ currentTranscript (st w1) = currentTranscript (st w)
  /\ enabled w1 Submit
     = eager w && negb (isEmpty (trim (currentTranscript (st w)))).
Proof.
  intros Hm Ht Hs Hl w1.
  assert (Hh : handle Tick w
               = if eager w
                 then set_st (set_timeLeftSeconds 0 (st w)) (finishInterview c w)
                 else finishInterview c (setState (set_timeLeftSeconds 0) w)).
  { simpl. unfold tick. rewrite Ht.
    replace (timeLeftSeconds (st w) <=? 1) with true
      by (symmetry; apply Z.leb_le; lia).
    reflexivity. }
  assert (Hm1 : mounted (handle Tick w) = true)
    by (rewrite Hh; destruct (eager w); exact Hm).
  assert (H1 : status (st w1)
               = if eager w then INTERVIEW_ACTIVE else PROCESSING_ANSWER).
  { unfold w1, step. rewrite Hm, render_status, Hh.
    destruct (eager w); [exact Hs|reflexivity]. }
  assert (H2 : timeLeftSeconds (st w1) = 0).
  { unfold w1, step. rewrite Hm, render_timeLeftSeconds, Hh.
    destruct (eager w); reflexivity. }
  assert (H3 : timer w1 = None).
  { unfold w1, step. rewrite Hm. unfold render, timerEffect.
    rewrite Hm1.
    replace (timeLeftSeconds (st (handle Tick w))) with 0
      by (rewrite Hh; destruct (eager w); reflexivity).
    replace (timeLeftSeconds (st w) =? 0) with false
      by (symmetry; apply Z.eqb_neq; lia).
    rewrite !andb_false_r. reflexivity. }
  assert (H4 : currentTranscript (st w1) = currentTranscript (st w)).
  { unfold w1, step. rewrite Hm, render_currentTranscript by exact Hm1.
    rewrite Hh. unfold finishInterview, stopListening.
    destruct (eager w); simpl; rewrite Hs;
      repeat break_if; simpl; try reflexivity;
      rewrite str_eqb_refl in *; discriminate. }
  assert (Hmw1 : mounted w1 = true)
    by (unfold w1, step; rewrite Hm, render_mounted; exact Hm1).
  split; [exact H1|]. split; [exact H2|]. split; [exact H3|].
  split; [exact H4|].
  unfold enabled, view. rewrite Hmw1, H1, H4.
  destruct (eager w); simpl; [rewrite andb_true_r|rewrite andb_false_r];
    reflexivity.
Qed.

(** One second left and the candidate has spoken: computed at the
    render the tick disables the submit button, computed at the call it
    leaves the session active with the button enabled. *)
Lemma deadline_tick_status_witness :
  let lazily := step lastSecondEager (Scheduler false) in
  (status (st (step lazily Tick)) = PROCESSING_ANSWER
   /\ enabled (step lazily Tick) Submit = false)
  /\ (status (st (step lastSecondEager Tick)) = INTERVIEW_ACTIVE
      /\ timeLeftSeconds (st (step lastSecondEager Tick)) = 0
      /\ enabled (step lastSecondEager Tick) Submit = true).
Proof.
  assert (Ht : timer lastSecondEager
               = Some (mkClosure (qnaHistory (st lastSecond)) ja false))
    by reflexivity.
  split.
  - destruct (deadline_tick_status (step lastSecondEager (Scheduler false)) _
                eq_refl Ht eq_refl ltac:(simpl; lia))
      as (H1 & _ & _ & _ & H5).
    split; [exact H1|exact H5].
  - destruct (deadline_tick_status lastSecondEager _
                eq_refl Ht eq_refl ltac:(simpl; lia))
      as (H1 & H2 & _ & _ & H5).
    split; [exact H1|]. split; [exact H2|exact H5].
Defined.
